(** * cell-counter: a shallow embedding of the pattern tracking pipeline

    The development follows the Python sources
    [cell_counter/core/Analyzer.py], [cell_counter/core/Extractor.py] and
    [cell_counter/core/CellGenerator.py].  Python integers are [Z], lists are
    [list], the [saved] dictionary and the per-view result files are [gmap]s,
    the set of processed views is a [gset], and dictionaries whose insertion
    order is observable are association lists.  An exception is the left
    summand of [result]. *)

From Stdlib Require Import ZArith Lia List Ascii String PrimFloat Uint63.
From stdpp Require Import base tactics option list sorting gmap.
Import ListNotations.

Open Scope Z_scope.

(** ** Exceptions and the error monad *)

(** The [raise] sites of the three modules.  The Python code raises
    [ValueError] (or lets a [KeyError] escape) with a message; the
    constructors name the site instead of carrying the text. *)
Inductive exn : Type :=
| FrameIndexOutOfRange
| ViewIndexOutOfRange
| PatternIndexOutOfRange
| FrameNotProvided
| NoBoundingBoxes
| NotLoaded
| LoadingFailed
| EmptyContours
| ListRemoveAbsent
| KeyError
| InvalidLiteral
| InvalidViewRange
| ExternalFailure
| ProcessingFailed.

Definition result (A : Type) : Type := exn + A.

Definition ret {A} (a : A) : result A := inr a.
Definition raise {A} (e : exn) : result A := inl e.

Definition bind {A B} (m : result A) (k : A -> result B) : result B :=
  match m with
  | inl e => inl e
  | inr a => k a
  end.

Notation "'do' x <- m ; k" := (bind m (fun x => k))
  (at level 10, x name, m at level 100, k at level 200, only parsing).
Notation "'do' ' p <- m ; k" := (bind m (fun x => let p := x in k))
  (at level 10, p pattern, m at level 100, k at level 200, only parsing).

(** [try: ... except Exception as e: raise ValueError(...)]: whatever was
    raised inside is raised again under one name. *)
Definition reraise_as {A} (e : exn) (m : result A) : result A :=
  match m with
  | inl _ => inl e
  | inr a => inr a
  end.

(** The value of a computation seen through [f], an exception left as it is. *)
Definition on_ok {A B} (f : A -> B) (m : result A) : result B :=
  match m with
  | inl e => inl e
  | inr a => inr (f a)
  end.

Definition is_ok {A} (m : result A) : bool :=
  match m with inl _ => false | inr _ => true end.

(** A [for] loop whose body may raise. *)
Fixpoint for_each {A S} (body : S -> A -> result S) (l : list A) (s : S) : result S :=
  match l with
  | [] => ret s
  | a :: l' => do s' <- body s a; for_each body l' s'
  end.

(** ** Python built-ins *)

Module Py.

(** [range(start, stop)] and [range(n)]. *)
Definition range2 (start stop : Z) : list Z :=
  map (fun k => start + Z.of_nat k) (seq 0 (Z.to_nat (stop - start))).

Definition range (n : Z) : list Z := range2 0 n.

(** [idx in l] on a list of integers. *)
Definition mem (idx : Z) (l : list Z) : bool := bool_decide (idx ∈ l).

(** [l.remove(x)]: deletes the first occurrence, [ValueError] when there
    is none. *)
Fixpoint remove (x : Z) (l : list Z) : result (list Z) :=
  match l with
  | [] => raise ListRemoveAbsent
  | y :: l' => if bool_decide (x = y) then ret l'
               else (do r <- remove x l'; ret (y :: r))
  end.

(** [zip(a, b)] stops at the shorter argument. *)
Definition zip {A B} (a : list A) (b : list B) : list (A * B) := combine a b.

(** [enumerate(l)]. *)
Definition enumerate {A} (l : list A) : list (Z * A) :=
  combine (range (Z.of_nat (length l))) l.

(** Normalisation of one bound of a slice [a:b] on a sequence of length
    [len]: negative bounds count from the end, everything is clamped. *)
Definition slice_bound (len i : Z) : Z :=
  if i <? 0 then Z.max 0 (i + len) else Z.min i len.

(** [l[a:b]]. *)
Definition slice {A} (l : list A) (a b : Z) : list A :=
  let len := Z.of_nat (length l) in
  let a' := slice_bound len a in
  let b' := slice_bound len b in
  take (Z.to_nat (b' - a')) (drop (Z.to_nat a') l).

(** [l.sort()] on integers.  Any algorithm returns the same list, the
    ascending rearrangement; stdpp's merge sort is used. *)
Definition sort (l : list Z) : list Z := merge_sort Z.le l.

(** [sorted(l, key=...)]/[l.sort(key=...)]: Python's sort is stable, so
    the result is the one of a stable insertion sort. *)
Section KeySort.
Context {A : Type} (le : A -> A -> bool).

Fixpoint insert_sorted (x : A) (l : list A) : list A :=
  match l with
  | [] => [x]
  | y :: l' => if le x y then x :: y :: l' else y :: insert_sorted x l'
  end.

Fixpoint stable_sort (l : list A) : list A :=
  match l with
  | [] => []
  | x :: l' => insert_sorted x (stable_sort l')
  end.
End KeySort.

(** Decimal digits of a non-negative integer, most significant first
    (what [format(n, "d")] prints).  A number below [2^k] has at most [k]
    digits, which bounds the recursion. *)
Fixpoint digits_upto (fuel : nat) (n : Z) (acc : list Z) : list Z :=
  match fuel with
  | O => acc
  | S fuel' =>
      let acc' := n mod 10 :: acc in
      if n / 10 =? 0 then acc' else digits_upto fuel' (n / 10) acc'
  end.

Definition digits (n : Z) : list Z :=
  digits_upto (S (Z.to_nat (Z.log2 n))) n [].

Definition ascii_of_digit (d : Z) : ascii := ascii_of_nat (48 + Z.to_nat d).

Definition digit_of_ascii (c : ascii) : option Z :=
  let n := Z.of_nat (nat_of_ascii c) in
  if (48 <=? n) && (n <=? 57) then Some (n - 48) else None.

Fixpoint string_of_digits (l : list Z) : string :=
  match l with
  | [] => EmptyString
  | d :: l' => String (ascii_of_digit d) (string_of_digits l')
  end.

(** [s.zfill(width)] for a string of digits: zeros on the left up to
    [width] characters, nothing when [s] is already that long. *)
Definition zfill (width : nat) (l : list Z) : list Z :=
  replicate (width - length l) 0 ++ l.

(** [f"{n:03d}"]: at least three characters, the sign included. *)
Definition format_03d (n : Z) : string :=
  if n <? 0 then String "-"%char (string_of_digits (zfill 2 (digits (- n))))
  else string_of_digits (zfill 3 (digits n)).

Fixpoint parse_digits (s : string) (acc : Z) : result Z :=
  match s with
  | EmptyString => ret acc
  | String c s' =>
      match digit_of_ascii c with
      | Some d => parse_digits s' (10 * acc + d)
      | None => raise InvalidLiteral
      end
  end.

(** [int(s)] on the strings the formatting above produces: an optional
    minus sign, then at least one decimal digit, nothing else. *)
Definition int_of_string (s : string) : result Z :=
  match s with
  | EmptyString => raise InvalidLiteral
  | String c s' =>
      if Ascii.eqb c "-"%char then
        match s' with
        | EmptyString => raise InvalidLiteral
        | String _ _ => do v <- parse_digits s' 0; ret (- v)
        end
      else parse_digits s 0
  end.

(** A dictionary whose iteration order matters, as the list of its items
    in insertion order.  [d[k] = v] replaces the value of a key that is
    present and keeps its position, and appends a new key. *)
Fixpoint dict_set {V} (k : Z) (v : V) (d : list (Z * V)) : list (Z * V) :=
  match d with
  | [] => [(k, v)]
  | (k', v') :: d' =>
      if k =? k' then (k, v) :: d' else (k', v') :: dict_set k v d'
  end.

Fixpoint dict_get {V} (k : Z) (d : list (Z * V)) : option V :=
  match d with
  | [] => None
  | (k', v') :: d' => if k =? k' then Some v' else dict_get k d'
  end.

End Py.

(** ** Analyzer.py: the tracking state *)

Module Patterns.

(** [class Patterns]: the three index lists and the [saved] dictionary. *)
Record t : Type := mk {
  tracked : list Z;
  dropped_zero : list Z;
  dropped_many : list Z;
  saved : gmap Z (list Z)
}.

(** [Patterns.__init__(n_patterns)]. *)
Definition init (n_patterns : Z) : t :=
  {| tracked := Py.range n_patterns;
     dropped_zero := [];
     dropped_many := [];
     saved := list_to_map (map (fun i => (i, [])) (Py.range n_patterns)) |}.

(** [self.tracked.remove(idx)], the bare removal used by the orchestrator
    when the region extraction of [idx] raises. *)
Definition tracked_remove (idx : Z) (p : t) : result t :=
  do tr <- Py.remove idx (tracked p);
  ret {| tracked := tr;
         dropped_zero := dropped_zero p;
         dropped_many := dropped_many p;
         saved := saved p |}.

(** [Patterns.drop_zero(idx)]. *)
Definition drop_zero (idx : Z) (p : t) : result t :=
  if Py.mem idx (tracked p) then
    do tr <- Py.remove idx (tracked p);
    ret {| tracked := tr;
           dropped_zero := dropped_zero p ++ [idx];
           dropped_many := dropped_many p;
           saved := saved p |}
  else ret p.

(** [Patterns.drop_many(idx)]. *)
Definition drop_many (idx : Z) (p : t) : result t :=
  if Py.mem idx (tracked p) then
    do tr <- Py.remove idx (tracked p);
    ret {| tracked := tr;
           dropped_zero := dropped_zero p;
           dropped_many := dropped_many p ++ [idx];
           saved := saved p |}
  else ret p.

(** [Patterns.save_frame(idx, frame_idx)]: [self.saved[idx]] raises
    [KeyError] on a missing key. *)
Definition save_frame (idx frame_idx : Z) (p : t) : result t :=
  match saved p !! idx with
  | None => raise KeyError
  | Some frames =>
      ret {| tracked := tracked p;
             dropped_zero := dropped_zero p;
             dropped_many := dropped_many p;
             saved := <[idx := frames ++ [frame_idx]]> (saved p) |}
  end.

(** [Patterns.get_tracked_indices()], a copy of the list. *)
Definition get_tracked_indices (p : t) : list Z := tracked p.

(** [Patterns.get_valid_patterns()]: the entries with a non-empty list. *)
Definition get_valid_patterns (p : t) : gmap Z (list Z) :=
  filter (fun kv => kv.2 <> []) (saved p).

End Patterns.

(** ** Analyzer.py: the orchestrator

    The generator and the counter are the collaborators of the [Analyzer].
    Each call that the orchestrator guards with [try] is a function that may
    raise; its outcome may depend on the view and the frame being processed.
    A region is whatever [extract_nuclei] returns. *)

Module Analyzer.

Section Orchestrator.
Context {region : Type}.

(** [generator.load_nuclei(frame_idx)] for the view being analysed. *)
Variable load_nuclei : Z -> result unit.
(** [generator.extract_nuclei(pattern_idx)] once frame [frame_idx] is
    loaded: arguments are the frame, then the pattern. *)
Variable extract_nuclei : Z -> Z -> result region.
(** [counter.count_nuclei(nuclei_list)] during frame [frame_idx]. *)
Variable count_nuclei : Z -> list region -> result (list Z).
(** [self.wanted]. *)
Variable wanted : Z.

(** Lines 230-239 of [_process_frame]: the loop over the copy
    [tracked_indices], appending a region or removing the index. *)
Fixpoint collect_nuclei (frame_idx : Z) (indices : list Z)
    (nuclei_list : list region) (p : Patterns.t)
    : result (list region * Patterns.t) :=
  match indices with
  | [] => ret (nuclei_list, p)
  | pattern_idx :: rest =>
      match extract_nuclei frame_idx pattern_idx with
      | inr nuclei =>
          collect_nuclei frame_idx rest (nuclei_list ++ [nuclei]) p
      | inl _ =>
          do p' <- Patterns.tracked_remove pattern_idx p;
          collect_nuclei frame_idx rest nuclei_list p'
      end
  end.

(** Lines 254-260: the body of the loop over [zip(tracked_indices, counts)]. *)
Definition update_tracking (frame_idx : Z) (p : Patterns.t)
    (obs : Z * Z) : result Patterns.t :=
  let '(pattern_idx, n_count) := obs in
  if n_count =? wanted then Patterns.save_frame pattern_idx frame_idx p
  else if n_count >? wanted then Patterns.drop_many pattern_idx p
  else if n_count =? 0 then Patterns.drop_zero pattern_idx p
  else ret p.

(** [Analyzer._process_frame(frame_idx)]. *)
Definition _process_frame (p : Patterns.t) (frame_idx : Z)
    : result Patterns.t :=
  reraise_as ProcessingFailed
    (do _u <- load_nuclei frame_idx;
     let tracked_indices := Patterns.get_tracked_indices p in
     do '(nuclei_list, p1) <- collect_nuclei frame_idx tracked_indices [] p;
     match nuclei_list with
     | [] => ret p1
     | _ :: _ =>
         match count_nuclei frame_idx nuclei_list with
         | inl _ => ret p1
         | inr counts =>
             for_each (update_tracking frame_idx)
                      (Py.zip tracked_indices counts) p1
         end
     end).

(** The frame loop of [analyze_time_series], over any list of frame
    indices. *)
Definition process_frames (frames : list Z) (p : Patterns.t)
    : result Patterns.t :=
  for_each _process_frame frames p.

End Orchestrator.

End Analyzer.

(** *** The multi-view driver *)

Module Driver.

(** The dictionary returned by [analyze_time_series] and dumped to
    [time_series_<view>.json]. *)
Record results (metadata : Type) : Type := mk_results {
  res_metadata : metadata;
  time_lapse : gmap Z (list Z)
}.
Arguments mk_results {metadata} _ _.
Arguments res_metadata {metadata} _.
Arguments time_lapse {metadata} _.

(** A member of the set [set(json.load(f))] read from
    [processed_views.json].  [Int n] is the integer [n], or a float or
    boolean equal to it: Python's [==], [hash], [in] and [sorted] do not
    tell [1], [1.0] and [True] apart.  [Other o] is any other hashable
    value a JSON file can hold: a string, [null], a float that is not an
    integer. *)
Inductive entry (other : Type) : Type :=
| Int (n : Z)
| Other (o : other).
Arguments Int {other} n.
Arguments Other {other} o.

(** The output folder.  [processed_views.json] is absent ([None]); or
    present while [set(json.load(f))] raises ([Some None]): the file cannot
    be read, is not JSON (an empty file is not), holds a value that cannot
    be iterated or an unhashable entry; or present with the values
    [set(json.load(f))] is made of.  [view_files] maps a view index to the
    content of its [time_series_<view>.json]. *)
Record folder (metadata other : Type) : Type := mk_folder {
  tracking_file : option (option (list (entry other)));
  view_files : gmap Z (results metadata)
}.
Arguments mk_folder {metadata other} _ _.
Arguments tracking_file {metadata other} _.
Arguments view_files {metadata other} _.

(** The Python set [processed_views]: its integers, and its other members
    in the order of the file. *)
Record view_set (other : Type) : Type := mk_set {
  members : gset Z;
  strangers : list other
}.
Arguments mk_set {other} _ _.
Arguments members {other} _.
Arguments strangers {other} _.

Section Views.
Context {region metadata other : Type}.

(** [self.metadata], [generator.n_views], [generator.n_frames],
    [self.wanted]. *)
Variable self_metadata : metadata.
Variable n_views n_frames wanted : Z.
(** [load_view(view_idx); load_patterns(); process_patterns()], read as
    the number of patterns found, [generator.n_patterns]. *)
Variable prepare_view : Z -> result Z.
(** The collaborators of [_process_frame], per view. *)
Variable load_nuclei : Z -> Z -> result unit.
Variable extract_nuclei : Z -> Z -> Z -> result region.
Variable count_nuclei : Z -> Z -> list region -> result (list Z).
(** Whether [open(..., 'w')] on the result file, then on the tracking
    file, succeeds while view [view_idx] is being saved. *)
Variable results_writable tracking_writable : Z -> bool.
(** [sorted(list(processed_views))] on a set that holds its integers
    [ints] (given in ascending order) and at least one other member:
    [None] when it raises [TypeError], as it does for a string or [null]
    next to an integer. *)
Variable sorted_mixed : list Z -> list other -> option (list (entry other)).

(** [Analyzer.analyze_time_series(view_idx)], with the final tracking
    state next to the returned dictionary. *)
Definition analyze_view (view_idx : Z) : result (Patterns.t * results metadata) :=
  reraise_as ProcessingFailed
    (do n_patterns <- prepare_view view_idx;
     let patterns := Patterns.init n_patterns in
     do patterns' <-
       Analyzer.process_frames (load_nuclei view_idx)
         (extract_nuclei view_idx) (count_nuclei view_idx) wanted
         (Py.range n_frames) patterns;
     ret (patterns',
          {| res_metadata := self_metadata;
             time_lapse := Patterns.get_valid_patterns patterns' |})).

Definition analyze_time_series (view_idx : Z) : result (results metadata) :=
  on_ok snd (analyze_view view_idx).

(** The integers and the other values of a list of entries. *)
Definition integers (entries : list (entry other)) : list Z :=
  flat_map (fun e => match e with Int n => [n] | Other _ => [] end) entries.

Definition others (entries : list (entry other)) : list other :=
  flat_map (fun e => match e with Int _ => [] | Other o => [o] end) entries.

(** Lines 334-341 of [process_views]: the set read back from the
    tracking file; a missing file, or one on which [set(json.load(f))]
    raises, leaves it empty. *)
Definition load_processed_views (out : folder metadata other) : view_set other :=
  match tracking_file out with
  | Some (Some entries) => mk_set (list_to_set (integers entries)) (others entries)
  | Some None => mk_set ∅ []
  | None => mk_set ∅ []
  end.

(** [sorted(list(processed_views))]: the ascending list of a set of
    integers; [None] when it raises. *)
Definition sorted_views (s : view_set other) : option (list (entry other)) :=
  match strangers s with
  | [] => Some (map Int (Py.sort (elements (members s))))
  | _ :: _ => sorted_mixed (Py.sort (elements (members s))) (strangers s)
  end.

(** The state of the loop of [process_views]: the folder, the set
    [processed_views], and (for the statements only) the views on which
    [analyze_time_series] was called, in order. *)
Record loop_state : Type := mk_loop {
  out_folder : folder metadata other;
  processed_views : view_set other;
  analysed : list Z
}.

(** Lines 345-369: one iteration of the loop over
    [range(start_view, end_view)].  Once the tracking file is open for
    writing it is empty; it stays empty when [sorted] raises, the
    exception being swallowed by the [except] of the loop like any
    other. *)
Definition process_view (st : loop_state) (view_idx : Z) : loop_state :=
  if bool_decide (view_idx ∈ members (processed_views st)) then st
  else
    let log := analysed st ++ [view_idx] in
    match analyze_time_series view_idx with
    | inl _ => mk_loop (out_folder st) (processed_views st) log
    | inr res =>
        if results_writable view_idx then
          let files := <[view_idx := res]> (view_files (out_folder st)) in
          let processed :=
            mk_set ({[view_idx]} ∪ members (processed_views st))
                   (strangers (processed_views st)) in
          if tracking_writable view_idx then
            match sorted_views processed with
            | Some views =>
                mk_loop (mk_folder (Some (Some views)) files) processed log
            | None =>
                mk_loop (mk_folder (Some None) files) processed log
            end
          else
            mk_loop (mk_folder (tracking_file (out_folder st)) files)
                    processed log
        else mk_loop (out_folder st) (processed_views st) log
    end.

(** [Analyzer.process_views(start_view, end_view)]: the folder it leaves
    and the views it analysed. *)
Definition process_views (start_view end_view : Z) (out : folder metadata other)
    : result (folder metadata other * list Z) :=
  if (start_view <? 0) || (end_view >? n_views) || (start_view >=? end_view)
  then raise InvalidViewRange
  else
    let st := fold_left process_view (Py.range2 start_view end_view)
                (mk_loop out (load_processed_views out) []) in
    ret (out_folder st, analysed st).

End Views.

End Driver.

(** ** CellGenerator.py *)

Module CellGenerator.

(** A two-dimensional 8-bit image, as its rows. *)
Definition image : Type := list (list Z).
(** [(x, y, w, h)]. *)
Definition bbox : Type := (Z * Z * Z * Z)%type.

(** What the module takes from OpenCV, NumPy and the ND2 readers.  Areas,
    their mean and their standard deviation are binary64 numbers.
    [cv_find_contours] is the blur, Otsu threshold and [findContours] of
    [_find_contours]; the two readers are
    [img_as_ubyte(reader.get_frame_2D(c, t, v))]. *)
Record externals (contour : Type) : Type := mk_externals {
  contourArea : contour -> float;
  boundingRect : contour -> bbox;
  np_mean : list float -> float;
  np_std : list float -> float;
  cv_find_contours : image -> list contour;
  patterns_get_frame_2D : Z -> Z -> Z -> result image;
  cells_get_frame_2D : Z -> Z -> Z -> result image
}.
Arguments mk_externals {contour} _ _ _ _ _ _ _.
Arguments contourArea {contour} _ _.
Arguments boundingRect {contour} _ _.
Arguments np_mean {contour} _ _.
Arguments np_std {contour} _ _.
Arguments cv_find_contours {contour} _ _.
Arguments patterns_get_frame_2D {contour} _ _ _ _.
Arguments cells_get_frame_2D {contour} _ _ _ _.

Definition AREA_STD_DEVIATIONS : float := 2%float.

(** The attributes of a [CellGenerator] that the methods below read or
    assign. *)
Record t (contour : Type) : Type := mk {
  n_views : Z;
  n_frames : Z;
  current_view : Z;
  patterns : option image;
  n_patterns : Z;
  contours : option (list contour);
  bounding_boxes : option (list bbox);
  centers : option (list (Z * Z));
  frame_nuclei : option image;
  frame_cyto : option image
}.
Arguments mk {contour} _ _ _ _ _ _ _ _ _ _.
Arguments n_views {contour} _.
Arguments n_frames {contour} _.
Arguments current_view {contour} _.
Arguments patterns {contour} _.
Arguments n_patterns {contour} _.
Arguments contours {contour} _.
Arguments bounding_boxes {contour} _.
Arguments centers {contour} _.
Arguments frame_nuclei {contour} _.
Arguments frame_cyto {contour} _.

Section Methods.
Context {contour : Type}.
Variable ext : externals contour.

(** [_validate_files] has set [n_views] and [n_frames]; [_init_memory]. *)
Definition _init_memory (views frames : Z) : t contour :=
  mk views frames 0 None 0 None None None None None.

(** [abs(area - mean_area) > AREA_STD_DEVIATIONS * std_area]. *)
Definition deviates (area mean_area std_area : float) : bool :=
  PrimFloat.ltb (PrimFloat.mul AREA_STD_DEVIATIONS std_area)
                (PrimFloat.abs (PrimFloat.sub area mean_area)).

(** An element of [contour_data]: [(center_y, center_x, contour, (x, y, w, h))]. *)
Definition entry : Type := (Z * Z * contour * bbox)%type.

(** The sort key [(x[0], x[1])], compared as Python compares tuples. *)
Definition key_le (a b : entry) : bool :=
  let '(ya, xa, _, _) := a in
  let '(yb, xb, _, _) := b in
  (ya <? yb) || ((ya =? yb) && (xa <=? xb)).

(** Lines 193-206 of [_refine_contours]: the loop that fills [contour_data]. *)
Fixpoint collect_contours (mean_area std_area : float)
    (todo : list contour) (contour_data : list entry) : list entry :=
  match todo with
  | [] => contour_data
  | c :: rest =>
      let area := contourArea ext c in
      let '(x, y, w, h) := boundingRect ext c in
      if deviates area mean_area std_area
      then collect_contours mean_area std_area rest contour_data
      else
        let center_x := x + w / 2 in
        let center_y := y + h / 2 in
        collect_contours mean_area std_area rest
          (contour_data ++ [(center_y, center_x, c, (x, y, w, h))])
  end.

(** [CellGenerator._refine_contours(contours)]. *)
Definition _refine_contours (cs : list contour) : result (list entry) :=
  match cs with
  | [] => raise EmptyContours
  | _ :: _ =>
      let areas := map (contourArea ext) cs in
      let mean_area := np_mean ext areas in
      let std_area := np_std ext areas in
      let contour_data := collect_contours mean_area std_area cs [] in
      ret (Py.stable_sort key_le contour_data)
  end.

(** [CellGenerator._find_contours(image)]; [image.size] is the number of
    pixels. *)
Definition _find_contours (img : option image) : result (list contour) :=
  match img with
  | None => raise NotLoaded
  | Some im =>
      if Z.of_nat (length (concat im)) =? 0 then raise NotLoaded
      else ret (cv_find_contours ext im)
  end.

(** [frame[y:y+h, x:x+w]]. *)
Definition crop (frame : image) (b : bbox) : image :=
  let '(x, y, w, h) := b in
  map (fun row => Py.slice row x (x + w)) (Py.slice frame y (y + h)).

(** [CellGenerator._extract_region(frame, pattern_idx)]. *)
Definition _extract_region (g : t contour) (frame : option image)
    (pattern_idx : Z) : result image :=
  match frame with
  | None => raise FrameNotProvided
  | Some fr =>
      if (pattern_idx >=? n_patterns g) || (pattern_idx <? 0)
      then raise PatternIndexOutOfRange
      else
        match bounding_boxes g with
        | None => raise NoBoundingBoxes
        | Some boxes =>
            match boxes !! Z.to_nat pattern_idx with
            | None => raise ExternalFailure
            | Some b => ret (crop fr b)
            end
        end
  end.

(** [CellGenerator.load_view(view_idx)]. *)
Definition load_view (view_idx : Z) (g : t contour) : result (t contour) :=
  if (view_idx >=? n_views g) || (view_idx <? 0)
  then raise ViewIndexOutOfRange
  else ret (mk (n_views g) (n_frames g) view_idx (patterns g)
               (n_patterns g) (contours g) (bounding_boxes g) (centers g)
               (frame_nuclei g) (frame_cyto g)).

(** [CellGenerator.load_patterns()]. *)
Definition load_patterns (g : t contour) : result (t contour) :=
  match patterns_get_frame_2D ext 0 0 (current_view g) with
  | inl _ => raise LoadingFailed
  | inr img =>
      ret (mk (n_views g) (n_frames g) (current_view g) (Some img)
              (n_patterns g) (contours g) (bounding_boxes g) (centers g)
              (frame_nuclei g) (frame_cyto g))
  end.

(** [CellGenerator.load_nuclei(frame_idx)]. *)
Definition load_nuclei (frame_idx : Z) (g : t contour) : result (t contour) :=
  if frame_idx >=? n_frames g then raise FrameIndexOutOfRange
  else
    match cells_get_frame_2D ext 0 frame_idx (current_view g) with
    | inl _ => raise LoadingFailed
    | inr img =>
        ret (mk (n_views g) (n_frames g) (current_view g) (patterns g)
                (n_patterns g) (contours g) (bounding_boxes g) (centers g)
                (Some img) (frame_cyto g))
    end.

(** [CellGenerator.load_cyto(frame_idx)]. *)
Definition load_cyto (frame_idx : Z) (g : t contour) : result (t contour) :=
  if frame_idx >=? n_frames g then raise FrameIndexOutOfRange
  else
    match cells_get_frame_2D ext 1 frame_idx (current_view g) with
    | inl _ => raise LoadingFailed
    | inr img =>
        ret (mk (n_views g) (n_frames g) (current_view g) (patterns g)
                (n_patterns g) (contours g) (bounding_boxes g) (centers g)
                (frame_nuclei g) (Some img))
    end.

(** [CellGenerator.process_patterns()]. *)
Definition process_patterns (g : t contour) : result (t contour) :=
  match patterns g with
  | None => raise NotLoaded
  | Some _ =>
      do cs <- _find_contours (patterns g);
      do contour_data <- _refine_contours cs;
      let cs' := map (fun e : entry => e.1.2) contour_data in
      ret (mk (n_views g) (n_frames g) (current_view g) (patterns g)
              (Z.of_nat (length cs'))
              (Some cs')
              (Some (map (fun e : entry => e.2) contour_data))
              (Some (map (fun e : entry => (e.1.1.1, e.1.1.2)) contour_data))
              (frame_nuclei g) (frame_cyto g))
  end.

(** [extract_nuclei], [extract_cyto], [extract_pattern]. *)
Definition extract_nuclei (g : t contour) (pattern_idx : Z) : result image :=
  match frame_nuclei g with
  | None => raise NotLoaded
  | Some _ => _extract_region g (frame_nuclei g) pattern_idx
  end.

Definition extract_cyto (g : t contour) (pattern_idx : Z) : result image :=
  match frame_cyto g with
  | None => raise NotLoaded
  | Some _ => _extract_region g (frame_cyto g) pattern_idx
  end.

Definition extract_pattern (g : t contour) (pattern_idx : Z) : result image :=
  match patterns g with
  | None => raise NotLoaded
  | Some _ => _extract_region g (patterns g) pattern_idx
  end.

End Methods.

End CellGenerator.

(** ** Extractor.py *)

Module Extractor.

Definition MAX_GAP : Z := 6.

(** A refined time lapse: composite key to [[start, end]], in insertion
    order. *)
Definition segments : Type := list (Z * (Z * Z)).

(** Lines 99-110 of [_refine_time_lapse]: the walk over [frames[1:]];
    [prev] is [frames[i-1]]. *)
Fixpoint walk_frames (prev : Z) (rest : list Z) (sequence_start current_end : Z)
    (sequences : list (Z * Z)) : list (Z * Z) :=
  match rest with
  | [] => sequences ++ [(sequence_start, current_end)]
  | frame :: rest' =>
      let gap := frame - prev in
      if gap >? MAX_GAP
      then walk_frames frame rest' frame frame
             (sequences ++ [(sequence_start, current_end)])
      else walk_frames frame rest' sequence_start frame sequences
  end.

(** Lines 91-110: [sequences] for one non-empty [frames]. *)
Definition find_sequences (frames : list Z) : list (Z * Z) :=
  match Py.sort frames with
  | [] => []
  | first :: rest => walk_frames first rest first first []
  end.

(** [int(f"{pattern_idx:03d}{i:03d}")]. *)
Definition new_pattern_idx (pattern_idx i : Z) : result Z :=
  Py.int_of_string (String.append (Py.format_03d pattern_idx) (Py.format_03d i)).

(** Lines 113-116: the loop over [enumerate(sequences)]. *)
Definition add_sequence (pattern_idx : Z) (refined : segments)
    (item : Z * (Z * Z)) : result segments :=
  let '(i, (start, end_)) := item in
  do key <- new_pattern_idx pattern_idx i;
  ret (Py.dict_set key (start, end_) refined).

(** The body of the loop over [time_lapse.items()]. *)
Definition refine_pattern (refined : segments) (item : Z * list Z)
    : result segments :=
  let '(pattern_idx, frames) := item in
  match frames with
  | [] => ret refined
  | _ :: _ =>
      for_each (add_sequence pattern_idx)
               (Py.enumerate (find_sequences frames)) refined
  end.

(** [Extractor._refine_time_lapse(time_lapse, view_idx)]. *)
Definition _refine_time_lapse (time_lapse : list (Z * list Z)) (view_idx : Z)
    : result segments :=
  for_each refine_pattern time_lapse [].

(** The body of the loop of [_add_head_tail]. *)
Definition extend (n_frames total_frames : Z) (extended : segments)
    (item : Z * (Z * Z)) : segments :=
  let '(pattern_idx, (start, end_)) := item in
  let new_start := Z.max 0 (start - n_frames) in
  let new_end := Z.min (total_frames - 1) (end_ + n_frames) in
  Py.dict_set pattern_idx (new_start, new_end) extended.

(** [Extractor._add_head_tail(time_lapse, n_frames)] with
    [total_frames = self.generator.n_frames]. *)
Definition _add_head_tail (total_frames : Z) (time_lapse : segments)
    (n_frames : Z) : segments :=
  fold_left (extend n_frames total_frames) time_lapse [].

(** What [_process_time_series_file] leaves in one time-lapse directory:
    the directory name [(view, original_pattern, sequence_num)], the red
    and green channels of the stack written to [frames.tif], the stack
    written to [pattern.tif], and [frames.json] as
    [(start_frame, end_frame, n_frames)].  The encoding of the files is
    left to scikit-image. *)
Record time_lapse_dir : Type := mk_dir {
  dir_name : Z * Z * Z;
  frames_tif : option (list CellGenerator.image * list CellGenerator.image);
  pattern_tif : option (list CellGenerator.image);
  frames_json : option (Z * Z * Z)
}.

Section Exporting.
Context {contour : Type}.
Variable ext : CellGenerator.externals contour.

(** Lines 207-220: one iteration of the loop over the frames of a
    segment; an exception anywhere skips the frame, the generator keeps
    what was loaded before it. *)
Definition extract_frame (pattern_idx : Z)
    (st : CellGenerator.t contour * list CellGenerator.image * list CellGenerator.image)
    (frame_idx : Z) :=
  let '(g, nuclei_stack, cyto_stack) := st in
  match CellGenerator.load_nuclei ext frame_idx g with
  | inl _ => (g, nuclei_stack, cyto_stack)
  | inr g1 =>
      match CellGenerator.load_cyto ext frame_idx g1 with
      | inl _ => (g1, nuclei_stack, cyto_stack)
      | inr g2 =>
          match CellGenerator.extract_nuclei g2 pattern_idx with
          | inl _ => (g2, nuclei_stack, cyto_stack)
          | inr nuclei =>
              match CellGenerator.extract_cyto g2 pattern_idx with
              | inl _ => (g2, nuclei_stack, cyto_stack)
              | inr cyto =>
                  (g2, nuclei_stack ++ [nuclei], cyto_stack ++ [cyto])
              end
          end
      end
  end.

(** [rgb_stack[..., k] = stack] with [rgb_stack] of [n_frames] frames:
    NumPy accepts a stack of [n_frames] frames, repeats a stack of one
    frame, and raises on any other length.  The frames of a view are taken
    to have one shape. *)
Definition assign_channel (n_frames : Z) (stack : list CellGenerator.image)
    : result (list CellGenerator.image) :=
  if Z.of_nat (length stack) =? n_frames then ret stack
  else
    match stack with
    | [frame] => ret (replicate (Z.to_nat n_frames) frame)
    | _ => raise ExternalFailure
    end.

(** Lines 189-261: one iteration of the loop over the padded segments. *)
Definition export_segment (view_idx min_frames : Z)
    (st : CellGenerator.t contour * list time_lapse_dir)
    (item : Z * (Z * Z))
    : result (CellGenerator.t contour * list time_lapse_dir) :=
  let '(g, dirs) := st in
  let '(pattern_idx, (start_frame, end_frame)) := item in
  let n_frames := end_frame - start_frame + 1 in
  if n_frames <? min_frames then ret (g, dirs)
  else
    let original_pattern := pattern_idx / 1000 in
    let sequence_num := pattern_idx mod 1000 in
    let name := (view_idx, original_pattern, sequence_num) in
    let '(g', nuclei_stack, cyto_stack) :=
      fold_left (extract_frame pattern_idx)
                (Py.range2 start_frame (end_frame + 1)) (g, [], []) in
    match nuclei_stack, cyto_stack with
    | [], _ | _, [] => ret (g', dirs ++ [mk_dir name None None None])
    | _ :: _, _ :: _ =>
        do red <- assign_channel n_frames nuclei_stack;
        do green <- assign_channel n_frames cyto_stack;
        let tif := Some (red, green) in
        match CellGenerator.extract_pattern g' pattern_idx with
        | inl _ => ret (g', dirs ++ [mk_dir name tif None None])
        | inr pattern =>
            ret (g', dirs ++ [mk_dir name tif
                                (Some (replicate (Z.to_nat n_frames) pattern))
                                (Some (start_frame, end_frame, n_frames))])
        end
    end.

(** [Extractor._process_time_series_file], from the loaded [time_lapse]
    and the view index read off the file name. *)
Definition _process_time_series_file (view_idx : Z)
    (time_lapse : list (Z * list Z)) (min_frames : Z)
    (g : CellGenerator.t contour)
    : result (CellGenerator.t contour * list time_lapse_dir) :=
  reraise_as ProcessingFailed
    (do refined <- _refine_time_lapse time_lapse view_idx;
     let padded := _add_head_tail (CellGenerator.n_frames g) refined 3 in
     do g1 <- CellGenerator.load_view view_idx g;
     do g2 <- CellGenerator.load_patterns ext g1;
     do g3 <- CellGenerator.process_patterns ext g2;
     for_each (export_segment view_idx min_frames) padded (g3, [])).

End Exporting.

(** The reading of "maximal runs": within a run adjacent frames are at
    most [MAX_GAP] apart, and a run ends where the next frame is further
    away than that. *)
Fixpoint gaps_within (run : list Z) : bool :=
  match run with
  | a :: (b :: _) as run' => (b - a <=? MAX_GAP) && gaps_within run'
  | _ => true
  end.

Fixpoint separated (runs : list (list Z)) : bool :=
  match runs with
  | r1 :: (r2 :: _) as runs' =>
      (hd 0 r2 - List.last r1 0 >? MAX_GAP) && separated runs'
  | _ => true
  end.

Definition is_run (run : list Z) : Prop :=
  run <> [] /\ gaps_within run = true.

(** The [[start, end]] pair recorded for a run. *)
Definition bounds (run : list Z) : Z * Z := (hd 0 run, List.last run 0).

End Extractor.

(** ** Concrete inputs *)

(** The two-pattern, five-frame view of the end-to-end scenario: pattern A
    is index 0, pattern B is index 1; a region is the pair (pattern, frame)
    it was cut from and the counter reads the count off the table. *)
Module Scenario.

Definition counts_A : list Z := [3; 3; 0; 3; 3].
Definition counts_B : list Z := [2; 3; 3; 3; 4].

Definition load (frame_idx : Z) : result unit := ret tt.

Definition extract (frame_idx pattern_idx : Z) : result (Z * Z) :=
  ret (pattern_idx, frame_idx).

Definition count_one (r : Z * Z) : Z :=
  nth (Z.to_nat r.2) (if r.1 =? 0 then counts_A else counts_B) 0.

Definition count (frame_idx : Z) (regions : list (Z * Z)) : result (list Z) :=
  ret (map count_one regions).

(** The tracking state after the first [n_frames] frames. *)
Definition after (n_frames : Z) : result Patterns.t :=
  Analyzer.process_frames load extract count 3 (Py.range n_frames) (Patterns.init 2).

(** The whole view through [analyze_time_series]. *)
Definition analysis : result (Driver.results unit) :=
  Driver.analyze_time_series tt 5 3 (fun _ => ret 2) (fun _ => load)
    (fun _ => extract) (fun _ => count) 0.

End Scenario.

(** A frame in which the region of pattern 0 cannot be extracted: two
    tracked patterns, the extraction of pattern 0 raises, the one of
    pattern 1 returns its region, and the counter finds three nuclei in the
    only region it is given. *)
Module FailedExtraction.

Definition load (frame_idx : Z) : result unit := ret tt.

Definition extract (frame_idx pattern_idx : Z) : result (Z * Z) :=
  if pattern_idx =? 0 then raise ExternalFailure
  else ret (pattern_idx, frame_idx).

(** Three nuclei in every region of pattern 1. *)
Definition count (frame_idx : Z) (regions : list (Z * Z)) : result (list Z) :=
  ret (map (fun r : Z * Z => if r.1 =? 1 then 3 else 0) regions).

Definition frame0 : result Patterns.t :=
  Analyzer._process_frame load extract count 3 (Patterns.init 2) 0.

(** One pattern only, whose extraction raises. *)
Definition single : result Patterns.t :=
  Analyzer._process_frame load extract count 3 (Patterns.init 1) 0.

End FailedExtraction.

(** Ten contours given by their area and bounding rectangle, with NumPy's
    mean and population standard deviation as binary64 computations.  On
    the areas below every intermediate sum is an integer below [2^53], so
    the order of summation does not matter. *)
Module TenContours.

Definition contour : Type := (float * CellGenerator.bbox)%type.

Definition float_of_nat (n : nat) : float :=
  PrimFloat.of_uint63 (Uint63.of_Z (Z.of_nat n)).

Definition mean (l : list float) : float :=
  PrimFloat.div (fold_left PrimFloat.add l 0%float) (float_of_nat (length l)).

Definition std (l : list float) : float :=
  let m := mean l in
  PrimFloat.sqrt
    (mean (map (fun x => let d := PrimFloat.sub x m in PrimFloat.mul d d) l)).

Definition ext : CellGenerator.externals contour :=
  CellGenerator.mk_externals
    (fun c => c.1) (fun c => c.2) mean std
    (fun _ => []) (fun _ _ _ => raise ExternalFailure)
    (fun _ _ _ => raise ExternalFailure).

(** Squares laid out on one row, [k]-th at [x = 20 k]. *)
Definition square (k : Z) (area : float) (side : Z) : contour :=
  (area, (20 * k, 0, side, side)).

Definition big : contour := square 8 190%float 14.
Definition small : contour := square 9 10%float 3.

Definition contours : list contour :=
  map (fun k => square k 100%float 10) (Py.range 8) ++ [big; small].

Definition areas : list float := map fst contours.

End TenContours.

(** Ten contours of which one is an extreme outlier: nine squares of area
    100 and one of area 200.  The mean is 110 and the standard deviation
    30, both exact in binary64. *)
Module OneOutlier.

Definition outlier : TenContours.contour := TenContours.square 9 200%float 14.

Definition regular : list TenContours.contour :=
  map (fun k => TenContours.square k 100%float 10) (Py.range 9).

Definition contours : list TenContours.contour := regular ++ [outlier].

Definition areas : list float := map fst contours.

End OneOutlier.

(** A view with two patterns side by side in 2 x 4 images.  The pixel of
    frame [t] is [t] in the left half (pattern 0) and [100 + t] in the right
    half (pattern 1); the cytoplasm channel adds 1000.  A contour is its
    bounding rectangle. *)
Module TwoPatterns.

Definition contour : Type := CellGenerator.bbox.

Definition left : CellGenerator.bbox := (0, 0, 2, 2).
Definition right : CellGenerator.bbox := (2, 0, 2, 2).

Definition cells_frame (c t v : Z) : result CellGenerator.image :=
  let px := 1000 * c + t in
  ret [[px; px; 100 + px; 100 + px]; [px; px; 100 + px; 100 + px]].

Definition mask : CellGenerator.image :=
  [[255; 255; 200; 200]; [255; 255; 200; 200]].

Definition ext : CellGenerator.externals contour :=
  CellGenerator.mk_externals
    (fun _ => 4%float) (fun c => c) TenContours.mean TenContours.std
    (fun _ => [left; right]) (fun _ _ _ => ret mask) cells_frame.

(** One view of sixty frames. *)
Definition generator : CellGenerator.t contour :=
  CellGenerator._init_memory 1 60.

(** Pattern 0 held the wanted count in frames 0-19 and 40-59, pattern 1
    in frames 10-39. *)
Definition time_lapse : list (Z * list Z) :=
  [(0, Py.range2 0 20 ++ Py.range2 40 60); (1, Py.range2 10 40)].

Definition exported : result (list Extractor.time_lapse_dir) :=
  on_ok snd (Extractor._process_time_series_file ext 0 time_lapse 20 generator).

(** The stack of crops of the nuclei channel to [b] over [[start, stop]]. *)
Definition nuclei_crops (b : CellGenerator.bbox) (start stop : Z)
    : list CellGenerator.image :=
  map (fun t => match cells_frame 0 t 0 with
                | inr im => CellGenerator.crop im b
                | inl _ => []
                end) (Py.range2 start (stop + 1)).

End TwoPatterns.

(** A pattern whose saved frames are 0, 7, 14, ..., 7000: every gap
    exceeds [MAX_GAP], so each frame is a segment of its own, 1001 in all. *)
Module ManySegments.

Definition frames : list Z := map (fun k => 7 * k) (Py.range 1001).

Definition time_lapse : list (Z * list Z) := [(0, frames); (1, [5])].

Definition refined : result Extractor.segments :=
  Extractor._refine_time_lapse time_lapse 0.

End ManySegments.

(** ** Vocabulary of the statements *)

(** The padded interval of one segment. *)
Definition padded (n_frames total_frames : Z) (item : Z * (Z * Z)) : Z * (Z * Z) :=
  (item.1, (Z.max 0 (item.2.1 - n_frames),
            Z.min (total_frames - 1) (item.2.2 + n_frames))).

(** The runs the walk of [_refine_time_lapse] is building: [current] is the
    run in progress, whose last frame is [prev]. *)
Fixpoint runs_from (prev : Z) (rest current : list Z) : list (list Z) :=
  match rest with
  | [] => [current]
  | frame :: rest' =>
      if frame - prev >? Extractor.MAX_GAP
      then current :: runs_from frame rest' [frame]
      else runs_from frame rest' (current ++ [frame])
  end.

Definition is_digit (d : Z) : Prop := 0 <= d <= 9.

(** [int] of a digit string, as a left fold. *)
Definition value_from (acc : Z) (l : list Z) : Z :=
  fold_left (fun a d => 10 * a + d) l acc.

(** The criterion in the words of the specification: the area deviates
    from the mean by more than 2 standard deviations, and the one-sided
    test of an extreme outlier, [area > mean + 2 std]; binary64 throughout. *)
Definition beyond_two_std (area mean_area std_area : float) : bool :=
  PrimFloat.ltb (PrimFloat.mul 2%float std_area)
                (PrimFloat.abs (PrimFloat.sub area mean_area)).

Definition above_two_std (area mean_area std_area : float) : bool :=
  PrimFloat.ltb (PrimFloat.add mean_area (PrimFloat.mul 2%float std_area)) area.

Section ContourVocabulary.
Context {contour : Type} (ext : CellGenerator.externals contour).

(** The tuple appended to [contour_data] for a contour that is kept. *)
Definition entry_of (c : contour) : @CellGenerator.entry contour :=
  let '(x, y, w, h) := CellGenerator.boundingRect ext c in
  (y + h / 2, x + w / 2, c, (x, y, w, h)).

(** The test of the filter on one contour, statistics taken over [cs]. *)
Definition rejected (cs : list contour) (c : contour) : bool :=
  let areas := map (CellGenerator.contourArea ext) cs in
  CellGenerator.deviates (CellGenerator.contourArea ext c)
    (CellGenerator.np_mean ext areas) (CellGenerator.np_std ext areas).

Definition center (e : @CellGenerator.entry contour) : Z * Z := (e.1.1.1, e.1.1.2).

(** Ascending order on (center-row, center-col). *)
Definition center_le (a b : @CellGenerator.entry contour) : Prop :=
  (center a).1 < (center b).1 \/
  ((center a).1 = (center b).1 /\ (center a).2 <= (center b).2).

End ContourVocabulary.

(** In how many of the three lists an index occurs. *)
Definition membership (p : Patterns.t) (idx : Z) : nat :=
  (if Py.mem idx (Patterns.tracked p) then 1 else 0)
  + (if Py.mem idx (Patterns.dropped_zero p) then 1 else 0)
  + (if Py.mem idx (Patterns.dropped_many p) then 1 else 0).

(** Where a run of [_process_frame] stands: after [k] iterations of the
    extraction loop, or after the whole extraction loop and [k] iterations
    of the update loop ([k] past the end of a loop is its end). *)
Inductive stage : Type :=
| Extracting (k : nat)
| Updating (k : nat).

(** The order in which a frame passes its stages. *)
Definition stage_le (s s' : stage) : Prop :=
  match s, s' with
  | Extracting k, Extracting k' => (k <= k')%nat
  | Extracting _, Updating _ => True
  | Updating _, Extracting _ => False
  | Updating k, Updating k' => (k <= k')%nat
  end.

(** Stage [s] of the [i]-th frame of a run comes no later than stage
    [s'] of its [i']-th frame. *)
Definition not_after (i : nat) (s : stage) (i' : nat) (s' : stage) : Prop :=
  (i < i')%nat \/ (i = i' /\ stage_le s s').

(** The index lies in one of the three lists. *)
Definition covered (p : Patterns.t) (idx : Z) : Prop :=
  idx ∈ Patterns.tracked p \/ idx ∈ Patterns.dropped_zero p \/
  idx ∈ Patterns.dropped_many p.

(** From an earlier state [q] to a later state [q'] nothing enters
    [tracked], nothing leaves a dropped list, a dropped list gains only
    what was tracked, and a saved list only grows at its end. *)
Definition evolves (idx : Z) (q q' : Patterns.t) : Prop :=
  (idx ∈ Patterns.tracked q' -> idx ∈ Patterns.tracked q) /\
  (idx ∈ Patterns.dropped_zero q -> idx ∈ Patterns.dropped_zero q') /\
  (idx ∈ Patterns.dropped_many q -> idx ∈ Patterns.dropped_many q') /\
  (idx ∈ Patterns.dropped_zero q' ->
   idx ∈ Patterns.dropped_zero q \/ idx ∈ Patterns.tracked q) /\
  (idx ∈ Patterns.dropped_many q' ->
   idx ∈ Patterns.dropped_many q \/ idx ∈ Patterns.tracked q) /\
  (forall l, Patterns.saved q !! idx = Some l ->
             exists l', Patterns.saved q' !! idx = Some (l ++ l')).

Section TrackingVocabulary.
Context {region : Type}.
Variable load_nuclei : Z -> result unit.
Variable extract_nuclei : Z -> Z -> result region.
Variable count_nuclei : Z -> list region -> result (list Z).
Variable wanted : Z.

(** The tracking state at stage [s] of [_process_frame(frame_idx)] run
    from state [p]: the extraction loop stopped after [k] of the indices
    of the copy of [tracked], or the update loop stopped after [k] of the
    pairs of [zip(tracked_indices, counts)]; where the code returns before
    the update loop, the state it returns with. *)
Definition at_stage (p : Patterns.t) (frame_idx : Z) (s : stage)
    : result Patterns.t :=
  do _u <- load_nuclei frame_idx;
  let tracked_indices := Patterns.get_tracked_indices p in
  match s with
  | Extracting k =>
      do '(_, q) <- Analyzer.collect_nuclei extract_nuclei frame_idx
                      (take k tracked_indices) [] p;
      ret q
  | Updating k =>
      do '(nuclei_list, p1) <- Analyzer.collect_nuclei extract_nuclei frame_idx
                                 tracked_indices [] p;
      match nuclei_list with
      | [] => ret p1
      | _ :: _ =>
          match count_nuclei frame_idx nuclei_list with
          | inl _ => ret p1
          | inr counts =>
              for_each (Analyzer.update_tracking wanted frame_idx)
                       (take k (Py.zip tracked_indices counts)) p1
          end
      end
  end.

(** State [q] is the one at stage [s] of the [i]-th frame of the frame
    loop run over [frames] from state [start]. *)
Definition visited (start : Patterns.t) (frames : list Z) (i : nat) (s : stage)
    (q : Patterns.t) : Prop :=
  exists frame_idx p,
    frames !! i = Some frame_idx /\
    Analyzer.process_frames load_nuclei extract_nuclei count_nuclei wanted
      (take i frames) start = inr p /\
    at_stage p frame_idx s = inr q.

(** In the [i]-th frame of the run the [k]-th iteration of the extraction
    loop (counted from 0) is for pattern [idx], and its region extraction
    raises: the iteration runs [self.patterns.tracked.remove(idx)]. *)
Definition removed (start : Patterns.t) (frames : list Z) (i k : nat) (idx : Z)
    : Prop :=
  exists frame_idx p,
    frames !! i = Some frame_idx /\
    Analyzer.process_frames load_nuclei extract_nuclei count_nuclei wanted
      (take i frames) start = inr p /\
    is_ok (load_nuclei frame_idx) = true /\
    Patterns.get_tracked_indices p !! k = Some idx /\
    is_ok (extract_nuclei frame_idx idx) = false.

(** The extraction of pattern [idx] raised in one of the frames [frames]. *)
Definition extraction_failed (frames : list Z) (idx : Z) : Prop :=
  exists frame_idx,
    (frame_idx ∈ frames) /\ is_ok (extract_nuclei frame_idx idx) = false.

(** The invariant carried through the loops; [failed] holds of the indices
    whose extraction has raised so far. *)
Record tracking_inv (n_patterns : Z) (failed : Z -> Prop) (p : Patterns.t) : Prop := {
  inv_nodup : NoDup (Patterns.tracked p);
  inv_range : forall idx, idx ∈ Patterns.tracked p -> 0 <= idx < n_patterns;
  inv_tracked : forall idx, idx ∈ Patterns.tracked p ->
                  (idx ∉ Patterns.dropped_zero p) /\ (idx ∉ Patterns.dropped_many p);
  inv_dropped : forall idx, idx ∈ Patterns.dropped_zero p ->
                  idx ∉ Patterns.dropped_many p;
  inv_saved : forall idx, 0 <= idx < n_patterns -> is_Some (Patterns.saved p !! idx);
  inv_cover : forall idx, 0 <= idx < n_patterns ->
                idx ∈ Patterns.tracked p \/ idx ∈ Patterns.dropped_zero p \/
                idx ∈ Patterns.dropped_many p \/ failed idx
}.

(** What a loop iteration may do to a state satisfying the invariant. *)
Definition step_ok (n_patterns : Z) (failed : Z -> Prop) (p p' : Patterns.t) : Prop :=
  tracking_inv n_patterns failed p' /\
  (forall idx, idx ∈ Patterns.tracked p' -> idx ∈ Patterns.tracked p).

(** What holds of a state reached from [p] inside or at the end of the frame. *)
Definition frame_ok (n_patterns : Z) (failed : Z -> Prop) (p q : Patterns.t) : Prop :=
  step_ok n_patterns failed p q /\
  forall j, j ∉ Patterns.tracked p -> Patterns.saved q !! j = Patterns.saved p !! j.

End TrackingVocabulary.

(** ** Further code and vocabulary *)

(** A saved dictionary that differs from [saved] at most by [frame_idx]
    appended to the list of [idx]. *)
Definition appended (idx frame_idx : Z) (saved saved' : gmap Z (list Z)) : Prop :=
  saved' = saved \/
  exists frames, saved !! idx = Some frames /\
                 saved' = <[idx := frames ++ [frame_idx]]> saved.

(** The batch handed to the counter in frame [frame_idx]: the regions of
    the patterns of [indices] whose extraction returns, in the order of
    [indices]. *)
Definition extracted {region : Type} (extract_nuclei : Z -> Z -> result region)
    (frame_idx : Z) (indices : list Z) : list region :=
  flat_map (fun idx => match extract_nuclei frame_idx idx with
                       | inr nuclei => [nuclei]
                       | inl _ => []
                       end) indices.

Section DriverVocabulary.
Context {region metadata : Type}.
Variable self_metadata : metadata.
Variable n_frames wanted : Z.
Variable prepare_view : Z -> result Z.
Variable load_nuclei : Z -> Z -> result unit.
Variable extract_nuclei : Z -> Z -> Z -> result region.
Variable count_nuclei : Z -> Z -> list region -> result (list Z).
Variable results_writable : Z -> bool.

(** What [process_views] writes to [time_series_<view>.json] when it
    analyses [view_idx]: the results, unless the analysis raises or the
    file cannot be opened. *)
Definition written_result (view_idx : Z) : option (Driver.results metadata) :=
  match Driver.analyze_time_series self_metadata n_frames wanted prepare_view
          load_nuclei extract_nuclei count_nuclei view_idx with
  | inl _ => None
  | inr res => if results_writable view_idx then Some res else None
  end.

End DriverVocabulary.

(** Lines 289-292 of [analyze_time_series]: the view is loaded and its
    patterns are loaded and processed; what the analysis goes on with is
    [generator.n_patterns]. *)
Module Preparation.

Definition prepare_view {contour : Type} (ext : CellGenerator.externals contour)
    (g : CellGenerator.t contour) (view_idx : Z) : result Z :=
  do g1 <- CellGenerator.load_view view_idx g;
  do g2 <- CellGenerator.load_patterns ext g1;
  do g3 <- CellGenerator.process_patterns ext g2;
  ret (CellGenerator.n_patterns g3).

End Preparation.

(** The views of the range that are not in the set read from the record. *)
Definition pending (loaded : gset Z) (start_view end_view : Z) : list Z :=
  List.filter (fun v => negb (bool_decide (v ∈ loaded)))
              (Py.range2 start_view end_view).


(** The order of Python tuples [(row, col)]. *)
Definition row_col_le (a b : Z * Z) : Prop :=
  a.1 < b.1 \/ (a.1 = b.1 /\ a.2 <= b.2).

(** An image all of whose rows have [width] pixels. *)
Definition rectangular (width : Z) (frame : CellGenerator.image) : Prop :=
  Forall (fun row => Z.of_nat (length row) = width) frame.


(** A sequence of a pattern under its composite key. *)
Definition keyed (pattern_idx : Z) (item : Z * (Z * Z)) : Z * (Z * Z) :=
  (pattern_idx * 1000 + item.1, item.2).

(** The sequences of every pattern of a time lapse, pattern after pattern
    in the order of the dictionary, each under its composite key. *)
Definition segments_of (time_lapse : list (Z * list Z)) : Extractor.segments :=
  flat_map (fun item : Z * list Z =>
              map (keyed item.1) (Py.enumerate (Extractor.find_sequences item.2)))
           time_lapse.

(** A time lapse as the analysis of a view of [total_frames] frames leaves
    it: pattern indices are not negative and the saved frames are frame
    indices of the view. *)
Definition from_view (total_frames : Z) (time_lapse : list (Z * list Z)) : Prop :=
  Forall (fun item : Z * list Z =>
            0 <= item.1 /\ Forall (fun f => 0 <= f < total_frames) item.2)
         time_lapse.

(** The name [view_<v>_pattern_<p>_<s>] of the directory of a segment, as
    the numbers in it. *)
Definition dir_of (view_idx : Z) (item : Z * (Z * Z)) : Z * Z * Z :=
  (view_idx, item.1 / 1000, item.1 mod 1000).

(** The test [n_frames < min_frames] of the export loop, negated. *)
Definition long_enough (min_frames : Z) (item : Z * (Z * Z)) : bool :=
  negb (item.2.2 - item.2.1 + 1 <? min_frames).

(** What the directory [d] made for the segment [item] holds: stacks of
    as many frames as the segment has, and [frames.json], written last,
    only next to [pattern.tif] and [frames.tif]. *)
Definition exports (view_idx : Z) (d : Extractor.time_lapse_dir)
    (item : Z * (Z * Z)) : Prop :=
  let n := item.2.2 - item.2.1 + 1 in
  Extractor.dir_name d = dir_of view_idx item /\
  (forall red green,
      Extractor.frames_tif d = Some (red, green) ->
      Z.of_nat (length red) = n /\ Z.of_nat (length green) = n) /\
  (forall stack,
      Extractor.pattern_tif d = Some stack ->
      (exists pattern, stack = replicate (Z.to_nat n) pattern) /\
      is_Some (Extractor.frames_tif d) /\
      Extractor.frames_json d = Some (item.2.1, item.2.2, n)) /\
  (Extractor.pattern_tif d = None -> Extractor.frames_json d = None).

(** The attributes of a generator that loading a frame leaves alone. *)
Definition same_view {contour : Type} (g g' : CellGenerator.t contour) : Prop :=
  CellGenerator.n_views g' = CellGenerator.n_views g /\
  CellGenerator.n_frames g' = CellGenerator.n_frames g /\
  CellGenerator.current_view g' = CellGenerator.current_view g /\
  CellGenerator.patterns g' = CellGenerator.patterns g /\
  CellGenerator.n_patterns g' = CellGenerator.n_patterns g /\
  CellGenerator.contours g' = CellGenerator.contours g /\
  CellGenerator.bounding_boxes g' = CellGenerator.bounding_boxes g /\
  CellGenerator.centers g' = CellGenerator.centers g.

(** The names of the result files: [Analyzer.process_views] writes
    [time_series_<view>.json], [Extractor._process_time_series_file] reads
    the view index back from the name, and the pattern indices back from
    the keys of the JSON object. *)
Module Files.

(** [str(n)]: what [f"{n}"] prints, and what [json.dump] writes for an
    integer key. *)
Definition str (n : Z) : string :=
  if n <? 0 then String "-"%char (Py.string_of_digits (Py.digits (- n)))
  else Py.string_of_digits (Py.digits n).

(** [s.rfind(c)], [-1] when [c] does not occur. *)
Fixpoint rfind (c : ascii) (s : string) : Z :=
  match s with
  | EmptyString => -1
  | String a s' =>
      let i := rfind c s' in
      if 0 <=? i then i + 1 else if Ascii.eqb a c then 0 else -1
  end.

(** [PurePath.stem] of a file name: the name up to its last dot, unless
    that dot is the first or the last character. *)
Definition stem (name : string) : string :=
  let i := rfind "."%char name in
  if (0 <? i) && (i <? Z.of_nat (String.length name) - 1)
  then substring 0 (Z.to_nat i) name
  else name.

(** [s.split(sep)]; the result is never empty. *)
Fixpoint split (sep : ascii) (s : string) : list string :=
  match s with
  | EmptyString => [EmptyString]
  | String c s' =>
      if Ascii.eqb c sep then EmptyString :: split sep s'
      else
        match split sep s' with
        | piece :: pieces => String c piece :: pieces
        | [] => [String c EmptyString]
        end
  end.

(** [f"time_series_{view_idx}.json"], line 354 of [Analyzer.py]. *)
Definition time_series_name (view_idx : Z) : string :=
  String.append (String.append "time_series_" (str view_idx)) ".json".

(** [int(json_file.stem.split('_')[-1])], line 174 of [Extractor.py]. *)
Definition view_of_name (name : string) : result Z :=
  Py.int_of_string (List.last (split "_"%char (stem name)) EmptyString).

(** Lines 169-171 of [Extractor.py]: the dictionary with [int(key)] for
    every key of the JSON object [time_lapse]. *)
Definition keys_of_json (time_lapse : list (string * list Z))
    : result (list (Z * list Z)) :=
  for_each (fun acc (item : string * list Z) =>
              do key <- Py.int_of_string item.1;
              ret (Py.dict_set key item.2 acc))
           time_lapse [].

(** The JSON object [json.dump] writes for a dictionary with integer
    keys. *)
Definition json_of_keys (time_lapse : list (Z * list Z)) : list (string * list Z) :=
  map (fun item : Z * list Z => (str item.1, item.2)) time_lapse.

End Files.

(** [c in s]. *)
Fixpoint occurs (c : ascii) (s : string) : bool :=
  match s with
  | EmptyString => false
  | String a s' => Ascii.eqb a c || occurs c s'
  end.

(** The value a computation returned, [default] if it raised. *)
Definition returned {A : Type} (default : A) (m : result A) : A :=
  match m with
  | inr a => a
  | inl _ => default
  end.

(** Concrete runs of the pipeline on the inputs above. *)
Module Runs.

(** The tracking state of the two-pattern scenario after three frames. *)
Definition after_three : Patterns.t :=
  returned (Patterns.init 2) (Scenario.after 3).

(** The results of the two-pattern scenario. *)
Definition scenario_results : Driver.results unit :=
  returned (Driver.mk_results tt ∅) Scenario.analysis.

(** Python's [sorted] on integers next to strings: it raises. *)
Definition sorted_text (ints : list Z) (texts : list string)
    : option (list (Driver.entry string)) :=
  None.

(** A folder without a record and without results, and a folder whose
    record is the JSON array of one string. *)
Definition empty_folder : Driver.folder unit string := Driver.mk_folder None ∅.

Definition text_folder : Driver.folder unit string :=
  Driver.mk_folder (Some (Some [Driver.Other "x"%string])) ∅.

(** A run of the driver over the three views of a folder, each view as in
    the scenario. *)
Definition run_on (out : Driver.folder unit string)
    : result (Driver.folder unit string * list Z) :=
  Driver.process_views tt 3 5 3 (fun _ => ret 2) (fun _ => Scenario.load)
    (fun _ => Scenario.extract) (fun _ => Scenario.count)
    (fun _ => true) (fun _ => true) sorted_text 0 3 out.

Definition first_run : result (Driver.folder unit string * list Z) :=
  run_on empty_folder.

Definition text_run : result (Driver.folder unit string * list Z) :=
  run_on text_folder.

(** A folder whose record is the JSON array of a string and the view 1. *)
Definition mixed_folder : Driver.folder unit string :=
  Driver.mk_folder (Some (Some [Driver.Other "x"%string; Driver.Int 1])) ∅.

Definition mixed_run : result (Driver.folder unit string * list Z) :=
  run_on mixed_folder.

(** The generator of the two-pattern view with its patterns loaded, and
    with its patterns processed. *)
Definition loaded : CellGenerator.t TwoPatterns.contour :=
  returned TwoPatterns.generator
    (do g1 <- CellGenerator.load_view 0 TwoPatterns.generator;
     CellGenerator.load_patterns TwoPatterns.ext g1).

Definition processed : CellGenerator.t TwoPatterns.contour :=
  returned loaded (CellGenerator.process_patterns TwoPatterns.ext loaded).

Definition with_frame : CellGenerator.t TwoPatterns.contour :=
  returned processed (CellGenerator.load_nuclei TwoPatterns.ext 7 processed).

(** The export of the two-pattern view. *)
Definition export :
    result (CellGenerator.t TwoPatterns.contour * list Extractor.time_lapse_dir) :=
  Extractor._process_time_series_file TwoPatterns.ext 0 TwoPatterns.time_lapse 20
    TwoPatterns.generator.

(** A counter that raises on the batch of frame 0 of the failed-extraction
    view, the one region of pattern 1, and counts every other batch. *)
Definition failing_count (frame_idx : Z) (regions : list (Z * Z))
    : result (list Z) :=
  match regions with
  | [(1, 0)] => raise ExternalFailure
  | _ => FailedExtraction.count frame_idx regions
  end.

(** Readers and an OpenCV that find no contour in the one-pixel pattern
    image of every view. *)
Definition blank_ext : CellGenerator.externals TenContours.contour :=
  CellGenerator.mk_externals
    (fun c => c.1) (fun c => c.2) TenContours.mean TenContours.std
    (fun _ => []) (fun _ _ _ => ret [[0]]) (fun _ _ _ => raise ExternalFailure).

(** The generator of a file of one view and five frames, before any view
    is loaded. *)
Definition blank_generator : CellGenerator.t TenContours.contour :=
  CellGenerator._init_memory 1 5.

(** A generator whose pattern image has no contour. *)
Definition blank : CellGenerator.t TenContours.contour :=
  CellGenerator.mk 1 1 0 (Some [[0]]) 0 None None None None None.

End Runs.

(** The branch of the [if]/[elif] chain of [_process_frame] that a count
    takes, the tests in the order of the code. *)
Definition saves (wanted n_count : Z) : bool := n_count =? wanted.

Definition drops_many (wanted n_count : Z) : bool :=
  negb (n_count =? wanted) && (n_count >? wanted).

Definition drops_zero (wanted n_count : Z) : bool :=
  negb (n_count =? wanted) && negb (n_count >? wanted) && (n_count =? 0).

(** * Properties *)

(** ** The end-to-end scenario *)

(** C5. A view with two patterns, five frames and wanted = 3, pattern A
    (index 0) counting [3,3,0,3,3] and pattern B (index 1) counting
    [2,3,3,3,4]: both are tracked up to frame 1, A is in [dropped_zero] from
    frame 2 on, B is tracked through frame 3 and in [dropped_many] after
    frame 4, and the saved-frame mapping returned by [analyze_time_series]
    is exactly {A: [0,1], B: [1,2,3]}. *)
Theorem C5_end_to_end_scenario :
  Scenario.after 2 = inr (Patterns.mk [0; 1] [] [] {[0 := [0; 1]; 1 := [1]]}) /\
  Scenario.after 3 = inr (Patterns.mk [1] [0] [] {[0 := [0; 1]; 1 := [1; 2]]}) /\
  Scenario.after 4 = inr (Patterns.mk [1] [0] [] {[0 := [0; 1]; 1 := [1; 2; 3]]}) /\
  Scenario.after 5 = inr (Patterns.mk [] [0] [1] {[0 := [0; 1]; 1 := [1; 2; 3]]}) /\
  Scenario.analysis =
    inr (Driver.mk_results tt {[0 := [0; 1]; 1 := [1; 2; 3]]}).
Proof. repeat split; vm_compute; reflexivity. Qed.

(** ** Counts and regions within a frame *)

(** C1. In a frame where the region of tracked pattern 0 cannot be
    extracted and pattern 1 yields a region holding three nuclei
    (wanted = 3), [_process_frame] pairs the only count with the first
    entry of the stale copy of the tracked list: frame 0 is saved under
    pattern 0, which has just been removed from [tracked], and pattern 1,
    whose region produced the count, receives nothing. *)
Theorem C1_count_attributed_to_failed_pattern :
  FailedExtraction.frame0 =
    inr (Patterns.mk [1] [] [] {[0 := [0]; 1 := []]}).
Proof. vm_compute. reflexivity. Qed.

(** ** Frame index validation *)

(** C9. [load_nuclei] and [load_cyto] raise the invalid-index error exactly
    when [frame_idx >= n_frames]; a negative index is not rejected: on the
    sixty-frame generator, index -1 goes to the reader and the frame it
    returns is stored. *)
Theorem C9_negative_frame_index_reaches_reader :
  (forall (contour : Type) (ext : CellGenerator.externals contour)
          (g : CellGenerator.t contour) (frame_idx : Z),
      (CellGenerator.load_nuclei ext frame_idx g = inl FrameIndexOutOfRange
       <-> CellGenerator.n_frames g <= frame_idx) /\
      (CellGenerator.load_cyto ext frame_idx g = inl FrameIndexOutOfRange
       <-> CellGenerator.n_frames g <= frame_idx)) /\
  on_ok CellGenerator.frame_nuclei
    (CellGenerator.load_nuclei TwoPatterns.ext (-1) TwoPatterns.generator)
    = inr (Some [[-1; -1; 99; 99]; [-1; -1; 99; 99]]) /\
  on_ok CellGenerator.frame_cyto
    (CellGenerator.load_cyto TwoPatterns.ext (-1) TwoPatterns.generator)
    = inr (Some [[999; 999; 1099; 1099]; [999; 999; 1099; 1099]]).
Proof.
  split; [| split; vm_compute; reflexivity].
  intros contour ext g frame_idx.
  unfold CellGenerator.load_nuclei, CellGenerator.load_cyto.
  destruct (Z.geb_spec frame_idx (CellGenerator.n_frames g)) as [Hge | Hlt].
  - split; split; intros _; try reflexivity; lia.
  - split; split; intros H; try lia.
    + destruct (CellGenerator.cells_get_frame_2D ext 0 frame_idx _); discriminate H.
    + destruct (CellGenerator.cells_get_frame_2D ext 1 frame_idx _); discriminate H.
Qed.

(** ** Which pattern a segment is cropped to *)

(** C3. On the view with two patterns, pattern 0 yields the segments
    (0, 0) and (0, 1) and pattern 1 the segment (1, 0).  The stacks of
    segment (0, 1), composite key 1, are cropped to the bounding box of
    pattern 1, not of pattern 0; segment (1, 0), composite key 1000, is
    out of the pattern range, every frame fails and nothing is written to
    its directory. *)
Theorem C3_segment_cropped_by_composite_key :
  exists d0 d1 d2,
    TwoPatterns.exported = inr [d0; d1; d2] /\
    Extractor.dir_name d0 = (0, 0, 0) /\
    fst <$> Extractor.frames_tif d0
      = Some (TwoPatterns.nuclei_crops TwoPatterns.left 0 22) /\
    Extractor.dir_name d1 = (0, 0, 1) /\
    fst <$> Extractor.frames_tif d1
      = Some (TwoPatterns.nuclei_crops TwoPatterns.right 37 59) /\
    fst <$> Extractor.frames_tif d1
      <> Some (TwoPatterns.nuclei_crops TwoPatterns.left 37 59) /\
    Extractor.pattern_tif d1 = Some (replicate 23 [[200; 200]; [200; 200]]) /\
    Extractor.dir_name d2 = (0, 1, 0) /\
    Extractor.frames_tif d2 = None /\
    Extractor.pattern_tif d2 = None.
Proof.
  eexists _, _, _. split; [vm_compute; reflexivity |].
  repeat split; try (vm_compute; reflexivity).
  vm_compute. discriminate.
Qed.

(** ** Dictionaries kept in insertion order *)

Section DictFacts.
Context {V : Type}.
Implicit Types (d : list (Z * V)) (k : Z) (v : V).

Lemma dict_set_fresh k v d :
  k ∉ map fst d -> Py.dict_set k v d = d ++ [(k, v)].
Proof.
  induction d as [| [k' v'] d IH]; simpl; intros Hk; [reflexivity |].
  destruct (Z.eqb_spec k k') as [-> | Hne].
  - exfalso. apply Hk. left.
  - f_equal. apply IH. intros Hin. apply Hk. right. exact Hin.
Qed.

Lemma dict_get_app_fresh k d d' :
  k ∉ map fst d -> Py.dict_get k (d ++ d') = Py.dict_get k d'.
Proof.
  induction d as [| [k' v'] d IH]; simpl; intros Hk; [reflexivity |].
  destruct (Z.eqb_spec k k') as [-> | Hne].
  - exfalso. apply Hk. left.
  - apply IH. intros Hin. apply Hk. right. exact Hin.
Qed.

Lemma dict_get_elem_of k v d :
  NoDup (map fst d) -> (k, v) ∈ d -> Py.dict_get k d = Some v.
Proof.
  induction d as [| [k' v'] d IH]; simpl; intros Hnd Hin.
  - inversion Hin.
  - apply NoDup_cons in Hnd as [Hk' Hnd].
    apply elem_of_cons in Hin as [Heq | Hin].
    + inversion Heq; subst. rewrite Z.eqb_refl. reflexivity.
    + destruct (Z.eqb_spec k k') as [-> | Hne].
      * exfalso. apply Hk'. apply (list_elem_of_fmap_2 fst _ _ Hin).
      * apply IH; assumption.
Qed.

Lemma dict_get_Some_elem_of k v d :
  Py.dict_get k d = Some v -> (k, v) ∈ d.
Proof.
  induction d as [| [k' v'] d IH]; simpl; intros H; [discriminate |].
  destruct (Z.eqb_spec k k') as [-> | Hne].
  - injection H as ->. left.
  - right. apply IH, H.
Qed.
End DictFacts.

(** ** Head and tail padding *)

Lemma add_head_tail_from n_frames total_frames (time_lapse acc : Extractor.segments) :
  NoDup (map fst acc ++ map fst time_lapse) ->
  fold_left (Extractor.extend n_frames total_frames) time_lapse acc
  = acc ++ map (padded n_frames total_frames) time_lapse.
Proof.
  revert acc. induction time_lapse as [| [k [s e]] tl IH]; intros acc Hnd; simpl.
  - symmetry. apply app_nil_r.
  - rewrite dict_set_fresh.
    + rewrite IH.
      * rewrite <- app_assoc. reflexivity.
      * rewrite map_app. simpl. rewrite <- app_assoc. exact Hnd.
    + apply NoDup_app in Hnd as (_ & Hdisj & _).
      intros Hin. apply (Hdisj _ Hin). left.
Qed.

Lemma add_head_tail_map total_frames n_frames (time_lapse : Extractor.segments) :
  NoDup (map fst time_lapse) ->
  Extractor._add_head_tail total_frames time_lapse n_frames
  = map (padded n_frames total_frames) time_lapse.
Proof.
  intros Hnd. unfold Extractor._add_head_tail.
  rewrite add_head_tail_from; [reflexivity | exact Hnd].
Qed.

(** C7. For a refined time lapse (a dictionary, so with distinct keys), a
    margin [n >= 0] and [total_frames >= 1], [_add_head_tail] keeps the
    keys in order and maps the segment [[start, end]] of every key to
    [[max(0, start - n), min(total_frames - 1, end + n)]], whose start is
    never negative; with margin 3 and 100 frames, [10,12] becomes [7,15]
    and [0,2] becomes [0,5]. *)
Theorem C7_head_tail_padding
    (total_frames n : Z) (time_lapse : Extractor.segments) :
  0 <= n -> 1 <= total_frames -> NoDup (map fst time_lapse) ->
  map fst (Extractor._add_head_tail total_frames time_lapse n)
    = map fst time_lapse /\
  (forall key start end_,
      Py.dict_get key time_lapse = Some (start, end_) ->
      Py.dict_get key (Extractor._add_head_tail total_frames time_lapse n)
        = Some (Z.max 0 (start - n), Z.min (total_frames - 1) (end_ + n)) /\
      0 <= Z.max 0 (start - n)) /\
  Extractor._add_head_tail 100 [(0, (10, 12)); (1, (0, 2))] 3
    = [(0, (7, 15)); (1, (0, 5))].
Proof.
  intros Hn Htotal Hnd.
  rewrite (add_head_tail_map _ _ _ Hnd).
  split; [| split; [| reflexivity]].
  - rewrite map_map. apply map_ext. intros [k [s e]]. reflexivity.
  - intros key start end_ Hget. split; [| lia].
    apply dict_get_elem_of.
    + rewrite map_map. rewrite (map_ext _ fst); [exact Hnd |].
      intros [k [s e]]. reflexivity.
    + apply dict_get_Some_elem_of in Hget.
      apply (list_elem_of_fmap_2 (padded n total_frames)) in Hget. exact Hget.
Qed.

Lemma C7_head_tail_padding_witness :
  Py.dict_get 1000 (Extractor._add_head_tail 100 [(0, (10, 12)); (1000, (0, 2))] 3)
    = Some (0, 5).
Proof.
  assert (Hnd : NoDup (map fst [(0, (10, 12)); (1000, (0, 2))])).
  { simpl. apply NoDup_cons. split; [| apply NoDup_singleton].
    intros H. apply list_elem_of_singleton in H. discriminate H. }
  exact (proj1 (proj1 (proj2 (C7_head_tail_padding 100 3
           [(0, (10, 12)); (1000, (0, 2))]
           ltac:(lia) ltac:(lia) Hnd)) 1000 0 2 eq_refl)).
Defined.

(** ** Splitting saved frames into segments *)

Lemma last_snoc (l : list Z) (x d : Z) : List.last (l ++ [x]) d = x.
Proof. apply last_last. Qed.

Lemma hd_snoc (l : list Z) (x d : Z) : l <> [] -> hd d (l ++ [x]) = hd d l.
Proof. destruct l; [congruence | reflexivity]. Qed.

Lemma gaps_within_cons (a b : Z) (l : list Z) :
  Extractor.gaps_within (a :: b :: l)
  = (b - a <=? Extractor.MAX_GAP) && Extractor.gaps_within (b :: l).
Proof. reflexivity. Qed.

Lemma gaps_within_snoc (l : list Z) (x : Z) :
  l <> [] -> Extractor.gaps_within l = true ->
  x - List.last l 0 <= Extractor.MAX_GAP ->
  Extractor.gaps_within (l ++ [x]) = true.
Proof.
  induction l as [| a l IH]; [congruence |]. intros _ Hg Hx.
  destruct l as [| b l].
  - simpl in *. rewrite andb_true_r. apply Z.leb_le. exact Hx.
  - rewrite gaps_within_cons in Hg. apply andb_true_iff in Hg as [Hab Hg].
    rewrite <- !app_comm_cons, gaps_within_cons, Hab. simpl andb.
    apply (IH ltac:(discriminate) Hg Hx).
Qed.

Lemma runs_from_concat prev rest current :
  concat (runs_from prev rest current) = current ++ rest.
Proof.
  revert prev current. induction rest as [| x rest IH]; intros prev current; simpl.
  - reflexivity.
  - destruct (x - prev >? Extractor.MAX_GAP); simpl; rewrite IH.
    + reflexivity.
    + rewrite <- app_assoc. reflexivity.
Qed.

Lemma runs_from_head prev rest current :
  current <> [] ->
  exists r rs, runs_from prev rest current = r :: rs /\ hd 0 r = hd 0 current.
Proof.
  revert prev current. induction rest as [| x rest IH]; intros prev current Hne; simpl.
  - eauto.
  - destruct (x - prev >? Extractor.MAX_GAP); [eauto |].
    destruct (IH x (current ++ [x])) as (r & rs & -> & Hhd).
    + destruct current; discriminate.
    + exists r, rs. rewrite Hhd. split; [reflexivity | apply hd_snoc, Hne].
Qed.

Lemma runs_from_is_run prev rest current :
  Extractor.is_run current -> List.last current 0 = prev ->
  Forall Extractor.is_run (runs_from prev rest current).
Proof.
  revert prev current.
  induction rest as [| x rest IH]; intros prev current [Hne Hg] Hlast; simpl.
  - repeat constructor; assumption.
  - destruct (Z.gtb_spec (x - prev) Extractor.MAX_GAP) as [Hgap | Hgap].
    + constructor; [split; assumption |].
      apply IH; [split; [discriminate | reflexivity] | reflexivity].
    + apply IH; [| apply last_snoc]. split.
      * destruct current; discriminate.
      * apply gaps_within_snoc; [assumption | assumption | lia].
Qed.

Lemma runs_from_separated prev rest current :
  current <> [] -> List.last current 0 = prev ->
  Extractor.separated (runs_from prev rest current) = true.
Proof.
  revert prev current.
  induction rest as [| x rest IH]; intros prev current Hne Hlast; simpl.
  - reflexivity.
  - destruct (Z.gtb_spec (x - prev) Extractor.MAX_GAP) as [Hgap | Hgap].
    + destruct (runs_from_head x rest [x]) as (r & rs & Heq & Hhd); [discriminate |].
      pose proof (IH x [x] ltac:(discriminate) eq_refl) as Hsep.
      rewrite Heq in *. simpl in Hhd.
      change (Extractor.separated (current :: r :: rs))
        with ((hd 0 r - List.last current 0 >? Extractor.MAX_GAP)
              && Extractor.separated (r :: rs)).
      rewrite Hsep, Hhd, Hlast, andb_true_r.
      apply Z.gtb_lt. lia.
    + apply IH; [destruct current; discriminate | apply last_snoc].
Qed.

Lemma walk_frames_runs prev rest current sequences :
  current <> [] ->
  Extractor.walk_frames prev rest (hd 0 current) (List.last current 0) sequences
  = sequences ++ map Extractor.bounds (runs_from prev rest current).
Proof.
  revert prev current sequences.
  induction rest as [| x rest IH]; intros prev current sequences Hne; simpl.
  - reflexivity.
  - destruct (x - prev >? Extractor.MAX_GAP).
    + specialize (IH x [x] (sequences ++ [(hd 0 current, List.last current 0)])
                     ltac:(discriminate)).
      simpl in IH. rewrite IH. rewrite <- app_assoc. reflexivity.
    + specialize (IH x (current ++ [x]) sequences).
      rewrite hd_snoc, last_snoc in IH by exact Hne.
      apply IH. destruct current; discriminate.
Qed.

#[local] Instance Z_le_total : Total Z.le.
Proof. intros x y. lia. Qed.

(** C6. [find_sequences] sorts the saved frames ascending and cuts the
    sorted list into consecutive runs: inside a run adjacent frames are at
    most 6 apart, between a run and the next the gap exceeds 6, and the
    result lists the [[start, end]] pair of each run in order.  The list
    [1,2,3,10,11,12] gives the segments [1,3] and [10,12], stored by
    [_refine_time_lapse] under the keys of sequence 0 and 1, and
    [1,2,3,8,9] gives the single segment [1,9]. *)
Theorem C6_segments_are_maximal_runs :
  (forall frames : list Z,
      Sorted Z.le (Py.sort frames) /\ Py.sort frames ≡ₚ frames /\
      exists runs : list (list Z),
        concat runs = Py.sort frames /\
        Forall Extractor.is_run runs /\
        Extractor.separated runs = true /\
        Extractor.find_sequences frames = map Extractor.bounds runs) /\
  Extractor.find_sequences [1; 2; 3; 10; 11; 12] = [(1, 3); (10, 12)] /\
  Extractor.find_sequences [1; 2; 3; 8; 9] = [(1, 9)] /\
  Extractor.find_sequences [11; 3; 12; 1; 10; 2] = [(1, 3); (10, 12)] /\
  Extractor._refine_time_lapse [(0, [1; 2; 3; 10; 11; 12])] 0
    = inr [(0, (1, 3)); (1, (10, 12))] /\
  Extractor._refine_time_lapse [(4, [1; 2; 3; 8; 9]); (5, [])] 0
    = inr [(4000, (1, 9))].
Proof.
  split; [| repeat split; vm_compute; reflexivity].
  intros frames. split; [apply Sorted_merge_sort, _ |].
  split; [apply merge_sort_Permutation |].
  unfold Extractor.find_sequences, Py.sort.
  destruct (merge_sort Z.le frames) as [| first rest].
  - exists []. repeat split; constructor.
  - exists (runs_from first rest [first]). split; [apply runs_from_concat |].
    split; [apply runs_from_is_run; [split; [discriminate | reflexivity] | reflexivity] |].
    split; [apply runs_from_separated; [discriminate | reflexivity] |].
    apply (walk_frames_runs first rest [first] []). discriminate.
Qed.

(** ** Decimal formatting and the composite key *)

Lemma elem_of_range (n x : Z) : 0 <= x <= n - 1 -> x ∈ Py.range n.
Proof.
  intros Hx. unfold Py.range, Py.range2. apply list_elem_of_fmap.
  exists (Z.to_nat x). split; [lia |]. apply elem_of_seq. lia.
Qed.

Lemma digit_roundtrip d :
  is_digit d ->
  Py.digit_of_ascii (Py.ascii_of_digit d) = Some d /\
  Ascii.eqb (Py.ascii_of_digit d) "-"%char = false.
Proof.
  intros Hd.
  assert (Hall : forallb (fun d => match Py.digit_of_ascii (Py.ascii_of_digit d) with
                                  | Some d' => d' =? d
                                  | None => false
                                  end
                                  && negb (Ascii.eqb (Py.ascii_of_digit d) "-"%char))
                         (Py.range 10) = true) by (vm_compute; reflexivity).
  rewrite forallb_forall in Hall.
  specialize (Hall d). rewrite <- list_elem_of_In in Hall.
  specialize (Hall (elem_of_range 10 d Hd)).
  apply andb_true_iff in Hall as [Hdig Hminus].
  destruct (Py.digit_of_ascii (Py.ascii_of_digit d)) as [d' |]; [| discriminate].
  apply Z.eqb_eq in Hdig as ->. split; [reflexivity |].
  apply negb_true_iff, Hminus.
Qed.

Lemma parse_string_of_digits (l : list Z) (acc : Z) :
  Forall is_digit l ->
  Py.parse_digits (Py.string_of_digits l) acc = inr (value_from acc l).
Proof.
  revert acc. induction l as [| d l IH]; intros acc Hl;
    cbn [Py.string_of_digits Py.parse_digits]; [reflexivity |].
  apply Forall_cons in Hl as [Hd Hl].
  destruct (digit_roundtrip d Hd) as [-> _]. apply IH, Hl.
Qed.

Lemma int_of_digit_string (l : list Z) :
  l <> [] -> Forall is_digit l ->
  Py.int_of_string (Py.string_of_digits l) = inr (value_from 0 l).
Proof.
  intros Hne Hl. destruct l as [| d l]; [congruence |].
  pose proof (parse_string_of_digits (d :: l) 0 Hl) as Hparse.
  apply Forall_cons in Hl as [Hd Hl].
  destruct (digit_roundtrip d Hd) as [_ Hminus].
  cbn [Py.string_of_digits Py.int_of_string] in *. rewrite Hminus. exact Hparse.
Qed.

Lemma string_of_digits_app (l1 l2 : list Z) :
  Py.string_of_digits (l1 ++ l2)
  = String.append (Py.string_of_digits l1) (Py.string_of_digits l2).
Proof.
  induction l1 as [| d l1 IH]; cbn [Py.string_of_digits app String.append];
    [reflexivity | rewrite IH; reflexivity].
Qed.

Lemma value_from_shift (l : list Z) (acc : Z) :
  value_from acc l = acc * 10 ^ Z.of_nat (length l) + value_from 0 l.
Proof.
  revert acc. induction l as [| d l IH]; intros acc.
  - simpl. lia.
  - change (value_from acc (d :: l)) with (value_from (10 * acc + d) l).
    change (value_from 0 (d :: l)) with (value_from (10 * 0 + d) l).
    rewrite (IH (10 * acc + d)), (IH (10 * 0 + d)).
    rewrite length_cons, Nat2Z.inj_succ, Z.pow_succ_r by lia. ring.
Qed.

Lemma value_from_zeros (k : nat) (l : list Z) :
  value_from 0 (replicate k 0 ++ l) = value_from 0 l.
Proof. induction k as [| k IH]; [reflexivity | exact IH]. Qed.

Lemma digits_upto_spec (fuel : nat) (n : Z) (acc : list Z) :
  0 <= n < 2 ^ Z.of_nat fuel ->
  Forall is_digit acc ->
  value_from 0 (Py.digits_upto fuel n acc) = value_from n acc /\
  Forall is_digit (Py.digits_upto fuel n acc).
Proof.
  revert n acc. induction fuel as [| fuel IH]; intros n acc Hn Hacc.
  - simpl in *. assert (n = 0) as -> by lia. split; [reflexivity | exact Hacc].
  - assert (Hmod : is_digit (n mod 10)).
    { unfold is_digit. pose proof (Z.mod_pos_bound n 10). lia. }
    assert (Hsplit : n = 10 * (n / 10) + n mod 10) by (apply Z.div_mod; lia).
    simpl. destruct (Z.eqb_spec (n / 10) 0) as [Hq | Hq].
    + split; [| constructor; assumption].
      change (value_from 0 (n mod 10 :: acc)) with (value_from (10 * 0 + n mod 10) acc).
      f_equal. lia.
    + destruct (IH (n / 10) (n mod 10 :: acc)) as [Hv Hd].
      * rewrite Nat2Z.inj_succ, Z.pow_succ_r in Hn by lia.
        split; [apply Z.div_pos; lia |].
        apply Z.div_lt_upper_bound; lia.
      * constructor; assumption.
      * split; [| exact Hd]. rewrite Hv.
        change (value_from (n / 10) (n mod 10 :: acc))
          with (value_from (10 * (n / 10) + n mod 10) acc).
        f_equal. lia.
Qed.

Lemma digits_upto_nonempty (fuel : nat) (n : Z) (acc : list Z) :
  acc <> [] \/ fuel <> O -> Py.digits_upto fuel n acc <> [].
Proof.
  revert n acc. induction fuel as [| fuel IH]; intros n acc Hne.
  - destruct Hne as [Hacc | Hfuel]; [exact Hacc | congruence].
  - cbn [Py.digits_upto]. destruct (n / 10 =? 0); [discriminate |].
    apply IH. left. discriminate.
Qed.

Lemma digits_spec (n : Z) :
  0 <= n ->
  value_from 0 (Py.digits n) = n /\ Forall is_digit (Py.digits n) /\ Py.digits n <> [].
Proof.
  intros Hn. unfold Py.digits.
  destruct (digits_upto_spec (S (Z.to_nat (Z.log2 n))) n []) as [Hv Hd].
  - split; [exact Hn |].
    rewrite Nat2Z.inj_succ, Z2Nat.id by apply Z.log2_nonneg.
    destruct (Z.eq_dec n 0) as [-> | Hnz]; [reflexivity |].
    apply Z.log2_spec. lia.
  - constructor.
  - split; [exact Hv | split; [exact Hd |]].
    apply digits_upto_nonempty. right. discriminate.
Qed.

Lemma zfill_spec (width : nat) (l : list Z) :
  Forall is_digit l ->
  value_from 0 (Py.zfill width l) = value_from 0 l /\
  Forall is_digit (Py.zfill width l) /\
  (width <= length (Py.zfill width l))%nat /\
  ((length l <= width)%nat -> length (Py.zfill width l) = width).
Proof.
  intros Hl. unfold Py.zfill. split; [apply value_from_zeros |].
  split.
  - apply Forall_app. split; [| exact Hl].
    apply Forall_replicate. unfold is_digit. lia.
  - rewrite length_app, length_replicate. lia.
Qed.

Lemma digits_below_1000 (s : Z) :
  0 <= s < 1000 -> (length (Py.digits s) <= 3)%nat.
Proof.
  intros Hs.
  assert (Hall : forallb (fun s => (length (Py.digits s) <=? 3)%nat) (Py.range 1000)
                 = true) by (vm_compute; reflexivity).
  rewrite forallb_forall in Hall. apply Nat.leb_le, Hall.
  apply list_elem_of_In, elem_of_range. lia.
Qed.

(** The key of a pattern index and a sequence number, whatever their size:
    the digits of the pattern index, at least three, followed by the digits
    of the sequence number, at least three. *)
Lemma new_pattern_idx_value (p s : Z) :
  0 <= p -> 0 <= s ->
  Extractor.new_pattern_idx p s
  = inr (p * 10 ^ Z.of_nat (length (Py.zfill 3 (Py.digits s))) + s).
Proof.
  intros Hp Hs. unfold Extractor.new_pattern_idx, Py.format_03d.
  destruct (Z.ltb_spec p 0) as [? | _]; [lia |].
  destruct (Z.ltb_spec s 0) as [? | _]; [lia |].
  destruct (digits_spec p Hp) as (Hvp & Hdp & _).
  destruct (digits_spec s Hs) as (Hvs & Hds & _).
  destruct (zfill_spec 3 _ Hdp) as (Hzp & Hzdp & Hlenp & _).
  destruct (zfill_spec 3 _ Hds) as (Hzs & Hzds & _ & _).
  rewrite <- string_of_digits_app, int_of_digit_string.
  - f_equal. unfold value_from. rewrite fold_left_app. fold (value_from 0 (Py.zfill 3 (Py.digits p))).
    fold (value_from (value_from 0 (Py.zfill 3 (Py.digits p))) (Py.zfill 3 (Py.digits s))).
    rewrite value_from_shift, Hzp, Hvp, Hzs, Hvs. reflexivity.
  - intros Heq. apply (f_equal length) in Heq. rewrite length_app in Heq.
    simpl in Heq. lia.
  - apply Forall_app. split; assumption.
Qed.

(** C4 (as amended). For a pattern index [p >= 0] and a sequence number
    [0 <= s < 1000], the key [int(f"{p:03d}{s:03d}")] is [p * 1000 + s];
    integer division and remainder by 1000 give back [p] and [s]; two such
    keys are equal only for equal pairs and are ordered as the pairs are
    ordered lexicographically. *)
Theorem C4_composite_key_below_1000 (p s p' s' : Z) :
  0 <= p -> 0 <= s < 1000 -> 0 <= p' -> 0 <= s' < 1000 ->
  exists key key' : Z,
    Extractor.new_pattern_idx p s = inr key /\
    Extractor.new_pattern_idx p' s' = inr key' /\
    key = p * 1000 + s /\
    key / 1000 = p /\ key mod 1000 = s /\
    (key = key' <-> p = p' /\ s = s') /\
    (key < key' <-> p < p' \/ (p = p' /\ s < s')).
Proof.
  intros Hp Hs Hp' Hs'.
  assert (Hkey : forall q t, 0 <= q -> 0 <= t < 1000 ->
                   Extractor.new_pattern_idx q t = inr (q * 1000 + t)).
  { intros q t Hq Ht. rewrite new_pattern_idx_value by lia.
    destruct (digits_spec t ltac:(lia)) as (_ & Hd & _).
    destruct (zfill_spec 3 _ Hd) as (_ & _ & _ & Hlen).
    rewrite Hlen by (apply digits_below_1000, Ht). reflexivity. }
  exists (p * 1000 + s), (p' * 1000 + s').
  split; [apply Hkey; assumption |]. split; [apply Hkey; assumption |].
  split; [reflexivity |].
  split; [rewrite Z.div_add_l by lia; rewrite Z.div_small by lia; lia |].
  split; [rewrite Z.add_comm, Z.mod_add by lia; apply Z.mod_small; lia |].
  split; lia.
Qed.

Lemma C4_composite_key_below_1000_witness :
  exists key key' : Z,
    Extractor.new_pattern_idx 12 7 = inr key /\
    Extractor.new_pattern_idx 3 999 = inr key' /\
    key = 12 * 1000 + 7 /\
    key / 1000 = 12 /\ key mod 1000 = 7 /\
    (key = key' <-> 12 = 3 /\ 7 = 999) /\
    (key < key' <-> 12 < 3 \/ (12 = 3 /\ 7 < 999)).
Proof.
  apply (C4_composite_key_below_1000 12 7 3 999); lia.
Defined.

(** C4, the claim as stated fails at sequence number 1000, which arises for
    a pattern saved at frames 0, 7, ..., 7000 (1001 segments): the key of
    (0, 1000) is the key of (1, 0), so division by 1000 does not give back
    (0, 1000); the key of (1, 1000) is 11000, not 1 * 1000 + 1000; and in
    the refined dictionary the segment of pattern 1 overwrites segment 1000
    of pattern 0. *)
Lemma C4_key_collision_at_sequence_1000 :
  Extractor.find_sequences ManySegments.frames !! 1000%nat = Some (7000, 7000) /\
  Extractor.new_pattern_idx 0 1000 = inr 1000 /\
  Extractor.new_pattern_idx 1 0 = inr 1000 /\
  (1000 / 1000, 1000 mod 1000) <> (0, 1000) /\
  Extractor.new_pattern_idx 1 1000 = inr 11000 /\
  11000 <> 1 * 1000 + 1000 /\
  on_ok (fun refined => (length refined, Py.dict_get 1000 refined))
        ManySegments.refined
    = inr (1001%nat, Some (5, 5)).
Proof.
  split; [vm_compute; reflexivity |].
  split; [vm_compute; reflexivity |].
  split; [vm_compute; reflexivity |].
  split; [vm_compute; discriminate |].
  split; [vm_compute; reflexivity |].
  split; [discriminate |].
  vm_compute; reflexivity.
Qed.

(** ** Statistical filtering of contours *)

Section RefineContours.
Context {contour : Type} (ext : CellGenerator.externals contour).

Local Abbreviation entry_of := (entry_of ext).

Lemma key_le_center_le a b : (@CellGenerator.key_le contour) a b = true <-> center_le a b.
Proof.
  destruct a as [[[ya xa] ca] ba], b as [[[yb xb] cb] bb].
  unfold CellGenerator.key_le, center_le, center. simpl.
  rewrite orb_true_iff, andb_true_iff, Z.ltb_lt, Z.eqb_eq, Z.leb_le. reflexivity.
Qed.

Lemma key_le_total a b :
  (@CellGenerator.key_le contour) a b = false -> center_le b a.
Proof.
  destruct a as [[[ya xa] ca] ba], b as [[[yb xb] cb] bb].
  unfold CellGenerator.key_le, center_le, center. simpl.
  rewrite orb_false_iff, andb_false_iff, Z.ltb_ge, Z.eqb_neq, Z.leb_gt. lia.
Qed.

Lemma collect_contours_filter mean_area std_area todo contour_data :
  CellGenerator.collect_contours ext mean_area std_area todo contour_data
  = contour_data ++
    map entry_of
      (List.filter
         (fun c => negb (CellGenerator.deviates (CellGenerator.contourArea ext c)
                                                mean_area std_area)) todo).
Proof.
  revert contour_data. induction todo as [| c todo IH]; intros contour_data; simpl.
  - symmetry. apply app_nil_r.
  - assert (He : entry_of c = entry_of c) by reflexivity.
    unfold entry_of in He at 2.
    destruct (CellGenerator.boundingRect ext c) as [[[x y] w] h].
    destruct (CellGenerator.deviates _ _ _); simpl.
    + apply IH.
    + rewrite IH, <- app_assoc, He. reflexivity.
Qed.

Lemma insert_sorted_perm (x : (@CellGenerator.entry contour)) l :
  Py.insert_sorted (@CellGenerator.key_le contour) x l ≡ₚ x :: l.
Proof.
  induction l as [| y l IH]; simpl; [reflexivity |].
  destruct ((@CellGenerator.key_le contour) x y); [reflexivity |].
  rewrite IH. apply Permutation_swap.
Qed.

Lemma stable_sort_perm (l : list (@CellGenerator.entry contour)) :
  Py.stable_sort (@CellGenerator.key_le contour) l ≡ₚ l.
Proof.
  induction l as [| x l IH]; simpl; [reflexivity |].
  rewrite insert_sorted_perm, IH. reflexivity.
Qed.

Lemma insert_sorted_hd (y x : (@CellGenerator.entry contour)) l :
  center_le y x -> HdRel center_le y l ->
  HdRel center_le y (Py.insert_sorted (@CellGenerator.key_le contour) x l).
Proof.
  intros Hyx Hhd. destruct l as [| z l]; simpl; [constructor; exact Hyx |].
  destruct ((@CellGenerator.key_le contour) x z); constructor; [exact Hyx |].
  inversion Hhd; assumption.
Qed.

Lemma insert_sorted_sorted (x : (@CellGenerator.entry contour)) l :
  Sorted center_le l -> Sorted center_le (Py.insert_sorted (@CellGenerator.key_le contour) x l).
Proof.
  induction l as [| y l IH]; intros Hs; simpl.
  - repeat constructor.
  - destruct ((@CellGenerator.key_le contour) x y) eqn:Hle.
    + constructor; [exact Hs |]. constructor. apply key_le_center_le, Hle.
    + inversion Hs as [| ? ? Hs' Hhd]; subst. constructor; [apply IH, Hs' |].
      apply insert_sorted_hd; [apply key_le_total, Hle | exact Hhd].
Qed.

Lemma stable_sort_sorted (l : list (@CellGenerator.entry contour)) :
  Sorted center_le (Py.stable_sort (@CellGenerator.key_le contour) l).
Proof.
  induction l as [| x l IH]; simpl; [constructor | apply insert_sorted_sorted, IH].
Qed.

Lemma entry_of_contour c : (entry_of c).1.2 = c.
Proof.
  unfold entry_of. destruct (CellGenerator.boundingRect ext c) as [[[x y] w] h].
  reflexivity.
Qed.

Lemma filter_single_out (f : contour -> bool) l1 c l2 :
  f c = false -> Forall (fun c' => f c' = true) (l1 ++ l2) ->
  List.filter f (l1 ++ c :: l2) = l1 ++ l2.
Proof.
  intros Hc Hall. apply Forall_app in Hall as [H1 H2].
  rewrite List.filter_app. simpl. rewrite Hc.
  f_equal; apply forallb_filter_id, forallb_forall; intros x Hx.
  - rewrite Forall_forall in H1. apply H1, list_elem_of_In, Hx.
  - rewrite Forall_forall in H2. apply H2, list_elem_of_In, Hx.
Qed.

End RefineContours.

(** C8. On a non-empty contour set [_refine_contours] computes the mean
    and the standard deviation of all areas once, rejects exactly the
    contours whose area deviates from that mean by more than 2 of those
    standard deviations, records each of the others with the centre and
    bounding rectangle derived from it, and returns them sorted ascending
    by (center-row, center-col).  On a set with one outlier, a contour
    that deviates by more than 2 standard deviations while no other does,
    the outlier is excluded and the K - 1 others are all returned. *)
Theorem C8_refine_contours_two_sided
    {contour : Type} (ext : CellGenerator.externals contour) (cs : list contour) :
  cs <> [] ->
  exists contour_data,
    CellGenerator._refine_contours ext cs = inr contour_data /\
    (forall c,
        rejected ext cs c
        = beyond_two_std (CellGenerator.contourArea ext c)
            (CellGenerator.np_mean ext (map (CellGenerator.contourArea ext) cs))
            (CellGenerator.np_std ext (map (CellGenerator.contourArea ext) cs))) /\
    map (fun e => e.1.2) contour_data
      ≡ₚ List.filter (fun c => negb (rejected ext cs c)) cs /\
    Forall (fun e => e = entry_of ext e.1.2) contour_data /\
    Sorted center_le contour_data /\
    (forall l1 outlier l2,
        cs = l1 ++ outlier :: l2 ->
        rejected ext cs outlier = true ->
        Forall (fun c => rejected ext cs c = false) (l1 ++ l2) ->
        map (fun e => e.1.2) contour_data ≡ₚ l1 ++ l2 /\
        (outlier ∉ map (fun e => e.1.2) contour_data) /\
        length contour_data = (length cs - 1)%nat).
Proof.
  intros Hne. destruct cs as [| c0 cs0] eqn:Hcs; [congruence |]. rewrite <- Hcs.
  assert (Hrun : CellGenerator._refine_contours ext cs
                 = inr (Py.stable_sort (@CellGenerator.key_le contour)
                          (map (entry_of ext)
                             (List.filter (fun c => negb (rejected ext cs c)) cs)))).
  { rewrite Hcs at 1. unfold CellGenerator._refine_contours. rewrite <- Hcs.
    rewrite collect_contours_filter. reflexivity. }
  eexists. split; [exact Hrun |].
  split; [intros c; reflexivity |].
  set (kept := List.filter (fun c => negb (rejected ext cs c)) cs).
  assert (Hperm : map (fun e : CellGenerator.entry => e.1.2)
                    (Py.stable_sort (@CellGenerator.key_le contour) (map (entry_of ext) kept))
                  ≡ₚ kept).
  { rewrite stable_sort_perm, map_map.
    rewrite (map_ext _ id); [rewrite map_id; reflexivity |].
    intros c. apply entry_of_contour. }
  split; [exact Hperm |].
  split.
  - apply Forall_forall. intros e He.
    rewrite stable_sort_perm in He.
    apply list_elem_of_fmap in He as (c & -> & _).
    rewrite entry_of_contour. reflexivity.
  - split; [apply stable_sort_sorted |].
    intros l1 outlier l2 Hsplit Hout Hrest.
    assert (Hkept : kept = l1 ++ l2).
    { assert (Hgen : forall (f : contour -> bool) l,
                 l = l1 ++ outlier :: l2 -> f outlier = false ->
                 Forall (fun c => f c = true) (l1 ++ l2) ->
                 List.filter f l = l1 ++ l2).
      { intros f l -> Hf Hall. apply filter_single_out; assumption. }
      unfold kept. apply Hgen; [exact Hsplit | |].
      - rewrite Hout. reflexivity.
      - eapply Forall_impl; [exact Hrest |]. intros c Hc. simpl in Hc.
        rewrite Hc. reflexivity. }
    rewrite <- Hkept. split; [exact Hperm |]. split.
    + rewrite Hperm, Hkept. intros Hin.
      rewrite Forall_forall in Hrest. rewrite (Hrest outlier Hin) in Hout.
      discriminate Hout.
    + rewrite <- (length_map (fun e : CellGenerator.entry => e.1.2)), Hperm, Hkept.
      rewrite Hsplit, !length_app. simpl. lia.
Qed.

Lemma C8_refine_contours_two_sided_witness :
  above_two_std 200%float (TenContours.mean OneOutlier.areas)
    (TenContours.std OneOutlier.areas) = true /\
  exists contour_data,
    CellGenerator._refine_contours TenContours.ext OneOutlier.contours
      = inr contour_data /\
    map (fun e : CellGenerator.entry => e.1.2) contour_data
      ≡ₚ OneOutlier.regular ++ [] /\
    length contour_data = (length OneOutlier.contours - 1)%nat.
Proof.
  split; [vm_compute; reflexivity |].
  destruct (C8_refine_contours_two_sided TenContours.ext OneOutlier.contours)
    as (contour_data & Hrun & _ & _ & _ & _ & Hone).
  - discriminate.
  - destruct (Hone OneOutlier.regular OneOutlier.outlier []) as (Hkept & _ & Hlen).
    + reflexivity.
    + vm_compute. reflexivity.
    + rewrite app_nil_r. apply Forall_forall. intros c Hc.
      apply list_elem_of_fmap in Hc as (k & -> & _). vm_compute. reflexivity.
    + exists contour_data. split; [exact Hrun |]. split; assumption.
Defined.

(** The rejection is two-sided: of ten contours of areas 100 (eight
    times), 190 and 10, whose mean is 100, the contour of area 190 and the
    contour of area 10 both deviate by more than 2 standard deviations,
    and [_refine_contours] returns the eight contours of area 100. *)
Example refine_contours_rejects_on_both_sides :
  TenContours.mean TenContours.areas = 100%float /\
  map (rejected TenContours.ext TenContours.contours) TenContours.contours
    = [false; false; false; false; false; false; false; false; true; true] /\
  on_ok (map (fun e : CellGenerator.entry => e.1.2))
        (CellGenerator._refine_contours TenContours.ext TenContours.contours)
    = inr (map (fun k => TenContours.square k 100%float 10) (Py.range 8)).
Proof.
  split; [vm_compute; reflexivity |].
  split; vm_compute; reflexivity.
Qed.

(** ** Re-running the multi-view driver *)

Section Rerun.
Context {region metadata other : Type}.
Variable self_metadata : metadata.
Variable n_views n_frames wanted : Z.
Variable prepare_view : Z -> result Z.
Variable load_nuclei : Z -> Z -> result unit.
Variable extract_nuclei : Z -> Z -> Z -> result region.
Variable count_nuclei : Z -> Z -> list region -> result (list Z).
Variable results_writable tracking_writable : Z -> bool.
Variable sorted_mixed : list Z -> list other -> option (list (Driver.entry other)).

Local Abbreviation analyze_time_series :=
  (Driver.analyze_time_series self_metadata n_frames wanted prepare_view
     load_nuclei extract_nuclei count_nuclei).
Local Abbreviation process_view :=
  (Driver.process_view self_metadata n_frames wanted prepare_view
     load_nuclei extract_nuclei count_nuclei results_writable tracking_writable
     sorted_mixed).
Local Abbreviation loop_state := (@Driver.loop_state metadata other).
Local Abbreviation process_views :=
  (Driver.process_views self_metadata n_views n_frames wanted prepare_view
     load_nuclei extract_nuclei count_nuclei results_writable tracking_writable
     sorted_mixed).
Local Abbreviation recorded :=
  (fun out : Driver.folder metadata other =>
     Driver.members (Driver.load_processed_views out)).

Lemma elem_of_range2 (a b v : Z) : v ∈ Py.range2 a b <-> a <= v < b.
Proof.
  unfold Py.range2. rewrite list_elem_of_fmap. split.
  - intros (k & -> & Hk). apply elem_of_seq in Hk. lia.
  - intros Hv. exists (Z.to_nat (v - a)). split; [lia |]. apply elem_of_seq. lia.
Qed.

Lemma skip_processed (views : list Z) (st : loop_state) :
  (forall v, v ∈ views -> v ∈ Driver.members (Driver.processed_views st)) ->
  fold_left process_view views st = st.
Proof.
  induction views as [| v views IH]; intros Hall; simpl; [reflexivity |].
  unfold Driver.process_view at 2.
  rewrite bool_decide_eq_true_2 by (apply Hall; left).
  apply IH. intros w Hw. apply Hall. right. exact Hw.
Qed.

(** A view of the set is passed over: it is not analysed and its result
    file is not touched. *)
Lemma recorded_view_skipped (views : list Z) (st : loop_state) (v : Z) :
  v ∈ Driver.members (Driver.processed_views st) ->
  let st' := fold_left process_view views st in
  v ∈ Driver.members (Driver.processed_views st') /\
  (v ∈ Driver.analysed st' -> v ∈ Driver.analysed st) /\
  Driver.view_files (Driver.out_folder st') !! v
  = Driver.view_files (Driver.out_folder st) !! v.
Proof.
  revert st. induction views as [| w views IH]; intros st Hv; cbn [fold_left].
  - auto.
  - assert (Hstep :
      v ∈ Driver.members (Driver.processed_views (process_view st w)) /\
      (v ∈ Driver.analysed (process_view st w) -> v ∈ Driver.analysed st) /\
      Driver.view_files (Driver.out_folder (process_view st w)) !! v
      = Driver.view_files (Driver.out_folder st) !! v).
    { unfold Driver.process_view.
      destruct (decide (w ∈ Driver.members (Driver.processed_views st))) as [Hw | Hw].
      - rewrite bool_decide_eq_true_2 by exact Hw. auto.
      - rewrite bool_decide_eq_false_2 by exact Hw.
        assert (Hne : v <> w) by (intros ->; contradiction).
        assert (Hlog : v ∈ Driver.analysed st ++ [w] -> v ∈ Driver.analysed st).
        { rewrite elem_of_app, list_elem_of_singleton. tauto. }
        destruct (analyze_time_series w) as [e | res];
          cbn [Driver.processed_views Driver.analysed Driver.out_folder]; [auto |].
        destruct (results_writable w);
          cbn [Driver.processed_views Driver.analysed Driver.out_folder]; [| auto].
        assert (Hin : v ∈ {[w]} ∪ Driver.members (Driver.processed_views st))
          by (apply elem_of_union_r, Hv).
        assert (Hfile : <[w := res]> (Driver.view_files (Driver.out_folder st)) !! v
                        = Driver.view_files (Driver.out_folder st) !! v)
          by (apply lookup_insert_ne; congruence).
        destruct (tracking_writable w); [destruct (Driver.sorted_views _ _) |];
          cbn [Driver.processed_views Driver.analysed Driver.out_folder
                 Driver.view_files Driver.members]; auto. }
    destruct Hstep as (Hv1 & Hlog1 & Hfile1).
    destruct (IH (process_view st w) Hv1) as (Hv' & Hlog' & Hfile').
    split; [exact Hv' |]. split; [auto |]. rewrite Hfile', Hfile1. reflexivity.
Qed.

(** The file written for a set of integers is read back as that set. *)
Lemma reload_sorted_views (s : Driver.view_set other) (files : gmap Z (Driver.results metadata)) :
  Driver.strangers s = [] ->
  exists views,
    Driver.sorted_views sorted_mixed s = Some views /\
    Driver.load_processed_views (Driver.mk_folder (Some (Some views)) files) = s.
Proof.
  intros Hnone. unfold Driver.sorted_views. rewrite Hnone.
  eexists. split; [reflexivity |].
  unfold Driver.load_processed_views. cbn [Driver.tracking_file].
  assert (Hints : forall l : list Z, Driver.integers (map (@Driver.Int other) l) = l).
  { induction l as [| x l IHl]; [reflexivity |]. cbn. f_equal. exact IHl. }
  assert (Hothers : forall l : list Z, Driver.others (map (@Driver.Int other) l) = []).
  { induction l as [| x l IHl]; [reflexivity |]. cbn. exact IHl. }
  rewrite Hints, Hothers. destruct s as [m strange]. cbn in Hnone. subst strange.
  f_equal. apply set_eq. intros x. rewrite elem_of_list_to_set. unfold Py.sort.
  rewrite merge_sort_Permutation. apply elem_of_elements.
Qed.

Lemma process_view_completed (st : loop_state) (v : Z) :
  Driver.processed_views st = Driver.load_processed_views (Driver.out_folder st) ->
  Driver.strangers (Driver.processed_views st) = [] ->
  v ∈ Driver.members (Driver.processed_views st) \/
  (is_ok (analyze_time_series v) = true /\
   results_writable v = true /\ tracking_writable v = true) ->
  let st' := process_view st v in
  Driver.processed_views st' = Driver.load_processed_views (Driver.out_folder st') /\
  Driver.strangers (Driver.processed_views st') = [] /\
  Driver.members (Driver.processed_views st)
    ⊆ Driver.members (Driver.processed_views st') /\
  v ∈ Driver.members (Driver.processed_views st').
Proof.
  intros Hinv Hnone Hdone. unfold Driver.process_view.
  destruct (decide (v ∈ Driver.members (Driver.processed_views st))) as [Hin | Hnin].
  - rewrite bool_decide_eq_true_2 by exact Hin. cbn zeta. auto.
  - rewrite bool_decide_eq_false_2 by exact Hnin.
    destruct Hdone as [? | (Hok & Hres & Htrack)]; [contradiction |].
    destruct (analyze_time_series v) as [e | res]; [discriminate Hok |].
    rewrite Hres, Htrack. cbn zeta.
    destruct (reload_sorted_views
                (Driver.mk_set ({[v]} ∪ Driver.members (Driver.processed_views st))
                               (Driver.strangers (Driver.processed_views st)))
                (<[v := res]> (Driver.view_files (Driver.out_folder st))) Hnone)
      as (views & -> & Hreload).
    cbn [Driver.processed_views Driver.out_folder Driver.members Driver.strangers].
    split; [symmetry; exact Hreload |]. split; [exact Hnone |].
    split; [apply union_subseteq_r | apply elem_of_union_l, elem_of_singleton; reflexivity].
Qed.

Lemma process_all_completed (views : list Z) (st : loop_state) :
  Driver.processed_views st = Driver.load_processed_views (Driver.out_folder st) ->
  Driver.strangers (Driver.processed_views st) = [] ->
  (forall v, v ∈ views ->
     v ∈ Driver.members (Driver.processed_views st) \/
     (is_ok (analyze_time_series v) = true /\
      results_writable v = true /\ tracking_writable v = true)) ->
  let st' := fold_left process_view views st in
  Driver.processed_views st' = Driver.load_processed_views (Driver.out_folder st') /\
  Driver.members (Driver.processed_views st)
    ⊆ Driver.members (Driver.processed_views st') /\
  (forall v, v ∈ views -> v ∈ Driver.members (Driver.processed_views st')).
Proof.
  revert st. induction views as [| v views IH]; intros st Hinv Hnone Hall; simpl.
  - split; [exact Hinv |]. split; [reflexivity |]. intros v Hv. inversion Hv.
  - destruct (process_view_completed st v Hinv Hnone) as (Hinv' & Hnone' & Hsub & Hv).
    { apply Hall. left. }
    destruct (IH (process_view st v) Hinv' Hnone') as (Hinv'' & Hsub' & Hall').
    { intros w Hw. destruct (Hall w) as [Hin | Hok]; [right; exact Hw | |].
      - left. apply Hsub, Hin.
      - right. exact Hok. }
    split; [exact Hinv'' |]. split; [intros w Hw; apply Hsub', Hsub, Hw |].
    intros w Hw. apply elem_of_cons in Hw as [-> | Hw]; [apply Hsub', Hv | apply Hall', Hw].
Qed.

(** C10. When every view index of the range is in the processed-views
    record of the output folder, [process_views] analyses no view and
    returns the folder as it found it: no result file is written or
    changed and the record is not rewritten (an invalid range raises before
    anything is touched).  In every run the views of the record are
    passed over: they are not analysed and their result files are left as
    they were.  Hence a second run over a range whose views were all
    completed by a first run that started from a record of integers, or
    from none, leaves the folder of the first run unchanged. *)
Theorem C10_rerun_skips_processed_views (start_view end_view : Z) :
  (forall out : Driver.folder metadata other,
      (forall v, start_view <= v < end_view -> v ∈ recorded out) ->
      process_views start_view end_view out
      = if (start_view <? 0) || (end_view >? n_views) || (start_view >=? end_view)
        then inl InvalidViewRange
        else inr (out, [])) /\
  (forall (out out' : Driver.folder metadata other) (analysed : list Z),
      process_views start_view end_view out = inr (out', analysed) ->
      forall v, v ∈ recorded out ->
                (v ∉ analysed) /\
                Driver.view_files out' !! v = Driver.view_files out !! v) /\
  (forall (out out' : Driver.folder metadata other) (analysed : list Z),
      process_views start_view end_view out = inr (out', analysed) ->
      Driver.strangers (Driver.load_processed_views out) = [] ->
      (forall v, start_view <= v < end_view ->
                 v ∈ recorded out \/
                 (is_ok (analyze_time_series v) = true /\
                  results_writable v = true /\ tracking_writable v = true)) ->
      process_views start_view end_view out' = inr (out', [])).
Proof.
  assert (Hskip : forall out : Driver.folder metadata other,
      (forall v, start_view <= v < end_view -> v ∈ recorded out) ->
      process_views start_view end_view out
      = if (start_view <? 0) || (end_view >? n_views) || (start_view >=? end_view)
        then inl InvalidViewRange
        else inr (out, [])).
  { intros out Hall. unfold Driver.process_views.
    destruct ((start_view <? 0) || (end_view >? n_views) || (start_view >=? end_view));
      [reflexivity |].
    rewrite skip_processed; [reflexivity |].
    intros v Hv. apply elem_of_range2 in Hv. simpl. apply Hall, Hv. }
  split; [exact Hskip |]. split.
  - intros out out' analysed Hrun v Hv. unfold Driver.process_views in Hrun.
    destruct ((start_view <? 0) || (end_view >? n_views) || (start_view >=? end_view));
      [discriminate Hrun |].
    injection Hrun as <- <-.
    destruct (recorded_view_skipped (Py.range2 start_view end_view)
                (Driver.mk_loop out (Driver.load_processed_views out) []) v Hv)
      as (_ & Hlog & Hfile).
    split; [| exact Hfile]. intros Hin. apply Hlog in Hin. inversion Hin.
  - intros out out' analysed Hrun Hnone Hall.
    rewrite Hskip.
    + unfold Driver.process_views in Hrun.
      destruct ((start_view <? 0) || (end_view >? n_views) || (start_view >=? end_view));
        [discriminate Hrun | reflexivity].
    + intros v Hv. unfold Driver.process_views in Hrun.
      destruct ((start_view <? 0) || (end_view >? n_views) || (start_view >=? end_view));
        [discriminate Hrun |].
      injection Hrun as <- _.
      destruct (process_all_completed (Py.range2 start_view end_view)
                  (Driver.mk_loop out (Driver.load_processed_views out) []))
        as (Hinv & _ & Hdone).
      * reflexivity.
      * exact Hnone.
      * intros w Hw. apply elem_of_range2 in Hw. simpl. apply Hall, Hw.
      * rewrite <- Hinv. apply Hdone, elem_of_range2, Hv.
Qed.

End Rerun.

Lemma C10_rerun_skips_processed_views_witness :
  Driver.process_views tt 3 5 3 (fun _ => ret 2) (fun _ => Scenario.load)
    (fun _ => Scenario.extract) (fun _ => Scenario.count)
    (fun _ => true) (fun _ => true) Runs.sorted_text 0 3
    (returned (Runs.empty_folder, []) Runs.first_run).1
  = inr ((returned (Runs.empty_folder, []) Runs.first_run).1, []).
Proof.
  apply (proj2 (proj2 (C10_rerun_skips_processed_views tt 3 5 3 (fun _ => ret 2)
                         (fun _ => Scenario.load) (fun _ => Scenario.extract)
                         (fun _ => Scenario.count) (fun _ => true) (fun _ => true)
                         Runs.sorted_text 0 3))
               Runs.empty_folder
               (returned (Runs.empty_folder, []) Runs.first_run).1
               (returned (Runs.empty_folder, []) Runs.first_run).2).
  - vm_compute. reflexivity.
  - reflexivity.
  - intros v _. right. split; [| split; reflexivity].
    unfold Driver.analyze_time_series, Driver.analyze_view. cbn [bind ret reraise_as].
    destruct (Analyzer.process_frames _ _ _ _ _ _) eqn:Hrun; [| reflexivity].
    exfalso. revert Hrun. vm_compute. discriminate.
Defined.

(** ** The tracking invariant *)

Lemma remove_sublist (x : Z) (l l' : list Z) :
  Py.remove x l = inr l' -> l' `sublist_of` l.
Proof.
  revert l'. induction l as [| y l IH]; intros l' Hrm; simpl in Hrm; [discriminate |].
  destruct (bool_decide (x = y)).
  - injection Hrm as <-. apply sublist_cons. reflexivity.
  - destruct (Py.remove x l) as [e | r]; simpl in Hrm; [discriminate |].
    injection Hrm as <-. apply sublist_skip, IH. reflexivity.
Qed.

Lemma sublist_elem (l1 l2 : list Z) (x : Z) :
  l1 `sublist_of` l2 -> x ∈ l1 -> x ∈ l2.
Proof.
  induction 1 as [| y l1 l2 _ IH | y l1 l2 _ IH]; intros Hx.
  - exact Hx.
  - apply elem_of_cons in Hx as [-> | Hx]; [left | right; apply IH, Hx].
  - right. apply IH, Hx.
Qed.

Lemma sublist_snoc (l1 l2 : list Z) (x : Z) :
  l1 `sublist_of` l2 -> l1 ++ [x] `sublist_of` l2 ++ [x].
Proof. intros H. apply sublist_app; [exact H | reflexivity]. Qed.

Lemma zip_fst_sublist (a b : list Z) : map fst (Py.zip a b) `sublist_of` a.
Proof.
  revert b. induction a as [| x a IH]; intros b; simpl; [reflexivity |].
  destruct b as [| y b]; simpl; [apply sublist_nil_l | apply sublist_skip, IH].
Qed.

Section Tracking.
Context {region : Type}.
Variable load_nuclei : Z -> result unit.
Variable extract_nuclei : Z -> Z -> result region.
Variable count_nuclei : Z -> list region -> result (list Z).
Variable wanted : Z.

Local Abbreviation collect_nuclei := (Analyzer.collect_nuclei extract_nuclei).
Local Abbreviation update_tracking := (Analyzer.update_tracking wanted).
Local Abbreviation _process_frame :=
  (Analyzer._process_frame load_nuclei extract_nuclei count_nuclei wanted).
Local Abbreviation process_frames :=
  (Analyzer.process_frames load_nuclei extract_nuclei count_nuclei wanted).
Local Abbreviation at_stage :=
  (at_stage load_nuclei extract_nuclei count_nuclei wanted).
Local Abbreviation visited :=
  (visited load_nuclei extract_nuclei count_nuclei wanted).
Local Abbreviation removed :=
  (removed load_nuclei extract_nuclei count_nuclei wanted).
Local Abbreviation extraction_failed := (extraction_failed extract_nuclei).

Lemma tracking_inv_weaken n (failed failed' : Z -> Prop) p :
  (forall idx, failed idx -> failed' idx) ->
  tracking_inv n failed p -> tracking_inv n failed' p.
Proof.
  intros Himp [H1 H2 H3 H4 H5 H6]. split; try assumption.
  intros idx Hidx. destruct (H6 idx Hidx) as [? | [? | [? | ?]]]; auto.
Qed.

Lemma remove_subset (x : Z) (l l' : list Z) :
  Py.remove x l = inr l' -> forall y, y ∈ l' -> y ∈ l.
Proof.
  revert l'. induction l as [| z l IH]; intros l' Hrm y Hy; simpl in Hrm.
  - discriminate.
  - destruct (bool_decide (x = z)).
    + injection Hrm as <-. right. exact Hy.
    + destruct (Py.remove x l) as [e | r]; simpl in Hrm; [discriminate |].
      injection Hrm as <-. apply elem_of_cons in Hy as [-> | Hy]; [left |].
      right. apply (IH r eq_refl y Hy).
Qed.

Lemma remove_present (x : Z) (l : list Z) :
  x ∈ l -> NoDup l ->
  exists l', Py.remove x l = inr l' /\ NoDup l' /\
             forall y, y ∈ l' <-> (y ∈ l /\ y <> x).
Proof.
  induction l as [| z l IH]; intros Hx Hnd; [inversion Hx |].
  apply NoDup_cons in Hnd as [Hz Hnd]. simpl.
  destruct (decide (x = z)) as [-> | Hne].
  - rewrite bool_decide_eq_true_2 by reflexivity.
    exists l. split; [reflexivity |]. split; [exact Hnd |].
    intros y. rewrite elem_of_cons. split.
    + intros Hy. split; [right; exact Hy |]. intros ->. contradiction.
    + intros [[-> | Hy] Hyz]; [congruence | exact Hy].
  - rewrite bool_decide_eq_false_2 by exact Hne.
    apply elem_of_cons in Hx as [-> | Hx]; [congruence |].
    destruct (IH Hx Hnd) as (r & -> & Hndr & Hr).
    exists (z :: r). split; [reflexivity |]. split.
    + apply NoDup_cons. split; [| exact Hndr]. rewrite Hr. tauto.
    + intros y. rewrite !elem_of_cons, Hr. split.
      * intros [-> | [Hy Hyx]]; [split; [left; reflexivity | congruence] | tauto].
      * intros [[-> | Hy] Hyx]; [left; reflexivity | right; tauto].
Qed.

Section Invariant.
Variable n_patterns : Z.
Variable failed : Z -> Prop.

Local Abbreviation step_ok := (step_ok n_patterns failed).

Lemma tracked_remove_ok (idx : Z) (p : Patterns.t) :
  tracking_inv n_patterns failed p -> idx ∈ Patterns.tracked p -> failed idx ->
  exists p', Patterns.tracked_remove idx p = inr p' /\ step_ok p p' /\
             Patterns.saved p' = Patterns.saved p /\
             (forall y, y ∈ Patterns.tracked p' <-> (y ∈ Patterns.tracked p /\ y <> idx)).
Proof.
  intros [H1 H2 H3 H4 H5 H6] Hin Hfailed. unfold Patterns.tracked_remove.
  destruct (remove_present idx _ Hin H1) as (tr & -> & Hnd & Htr).
  eexists. split; [reflexivity |]. simpl.
  split; [| split; [reflexivity | exact Htr]].
  split; [| intros y Hy; apply Htr in Hy; tauto].
  split; simpl; try assumption.
  - intros y Hy. apply H2, Htr, Hy.
  - intros y Hy. apply H3, Htr, Hy.
  - intros y Hy. destruct (decide (y = idx)) as [-> | Hne]; [auto |].
    destruct (H6 y Hy) as [? | ?]; [| tauto]. left. apply Htr. tauto.
Qed.

Lemma drop_zero_ok (idx : Z) (p : Patterns.t) :
  tracking_inv n_patterns failed p ->
  exists p', Patterns.drop_zero idx p = inr p' /\ step_ok p p' /\
             Patterns.saved p' = Patterns.saved p.
Proof.
  intros Hinv. unfold Patterns.drop_zero, Py.mem.
  destruct (decide (idx ∈ Patterns.tracked p)) as [Hin | Hnin].
  - rewrite bool_decide_eq_true_2 by exact Hin.
    destruct Hinv as [H1 H2 H3 H4 H5 H6].
    destruct (remove_present idx _ Hin H1) as (tr & -> & Hnd & Htr).
    eexists. split; [reflexivity |]. simpl. split; [| reflexivity].
    split; [| intros y Hy; apply Htr in Hy; tauto].
    split; simpl; try assumption.
    + intros y Hy. apply H2, Htr, Hy.
    + intros y Hy. apply Htr in Hy as [Hy Hne].
      rewrite elem_of_app, list_elem_of_singleton.
      destruct (H3 y Hy). tauto.
    + intros y Hy. apply elem_of_app in Hy as [Hy | Hy]; [apply H4, Hy |].
      apply list_elem_of_singleton in Hy as ->. apply (H3 idx Hin).
    + intros y Hy. rewrite elem_of_app, list_elem_of_singleton.
      destruct (decide (y = idx)) as [-> | Hne]; [tauto |].
      destruct (H6 y Hy) as [? | ?]; [| tauto]. left. apply Htr. tauto.
  - rewrite bool_decide_eq_false_2 by exact Hnin.
    exists p. split; [reflexivity |]. split; [| reflexivity]. split; [exact Hinv | auto].
Qed.

Lemma drop_many_ok (idx : Z) (p : Patterns.t) :
  tracking_inv n_patterns failed p ->
  exists p', Patterns.drop_many idx p = inr p' /\ step_ok p p' /\
             Patterns.saved p' = Patterns.saved p.
Proof.
  intros Hinv. unfold Patterns.drop_many, Py.mem.
  destruct (decide (idx ∈ Patterns.tracked p)) as [Hin | Hnin].
  - rewrite bool_decide_eq_true_2 by exact Hin.
    destruct Hinv as [H1 H2 H3 H4 H5 H6].
    destruct (remove_present idx _ Hin H1) as (tr & -> & Hnd & Htr).
    eexists. split; [reflexivity |]. simpl. split; [| reflexivity].
    split; [| intros y Hy; apply Htr in Hy; tauto].
    split; simpl; try assumption.
    + intros y Hy. apply H2, Htr, Hy.
    + intros y Hy. apply Htr in Hy as [Hy Hne].
      rewrite elem_of_app, list_elem_of_singleton.
      destruct (H3 y Hy). tauto.
    + intros y Hy. rewrite elem_of_app, list_elem_of_singleton.
      intros [Hdm | ->]; [apply (H4 y Hy Hdm) |].
      destruct (H3 idx Hin) as [Hz _]. contradiction.
    + intros y Hy. rewrite elem_of_app, list_elem_of_singleton.
      destruct (decide (y = idx)) as [-> | Hne]; [tauto |].
      destruct (H6 y Hy) as [? | ?]; [| tauto]. left. apply Htr. tauto.
  - rewrite bool_decide_eq_false_2 by exact Hnin.
    exists p. split; [reflexivity |]. split; [| reflexivity]. split; [exact Hinv | auto].
Qed.

Lemma save_frame_ok (idx frame_idx : Z) (p : Patterns.t) :
  tracking_inv n_patterns failed p -> 0 <= idx < n_patterns ->
  exists p', Patterns.save_frame idx frame_idx p = inr p' /\ step_ok p p' /\
             forall j, j <> idx -> Patterns.saved p' !! j = Patterns.saved p !! j.
Proof.
  intros [H1 H2 H3 H4 H5 H6] Hidx. unfold Patterns.save_frame.
  destruct (H5 idx Hidx) as [frames ->].
  eexists. split; [reflexivity |]. simpl. split.
  - split; [| auto]. split; simpl; try assumption.
    intros j Hj. destruct (decide (j = idx)) as [-> | Hne].
    + rewrite lookup_insert_eq. eauto.
    + rewrite lookup_insert_ne by congruence. apply H5, Hj.
  - intros j Hne. apply lookup_insert_ne. congruence.
Qed.

Lemma update_tracking_ok (frame_idx : Z) (p : Patterns.t) (obs : Z * Z) :
  tracking_inv n_patterns failed p -> 0 <= obs.1 < n_patterns ->
  exists p', update_tracking frame_idx p obs = inr p' /\ step_ok p p' /\
             forall j, j <> obs.1 -> Patterns.saved p' !! j = Patterns.saved p !! j.
Proof.
  intros Hinv Hidx. destruct obs as [pattern_idx n_count]. simpl in *.
  destruct (n_count =? wanted).
  { apply save_frame_ok; assumption. }
  destruct (n_count >? wanted).
  { destruct (drop_many_ok pattern_idx p Hinv) as (p' & Hrun & Hok & Hsaved).
    exists p'. rewrite Hsaved. auto. }
  destruct (n_count =? 0).
  { destruct (drop_zero_ok pattern_idx p Hinv) as (p' & Hrun & Hok & Hsaved).
    exists p'. rewrite Hsaved. auto. }
  exists p. split; [reflexivity |]. split; [| auto]. split; [exact Hinv | auto].
Qed.

Lemma collect_nuclei_ok (frame_idx : Z) (indices : list Z)
    (nuclei_list : list region) (p : Patterns.t) :
  (forall idx, is_ok (extract_nuclei frame_idx idx) = false -> failed idx) ->
  tracking_inv n_patterns failed p -> NoDup indices ->
  (forall idx, idx ∈ indices -> idx ∈ Patterns.tracked p) ->
  exists nuclei_list' p',
    collect_nuclei frame_idx indices nuclei_list p = inr (nuclei_list', p') /\
    step_ok p p' /\ Patterns.saved p' = Patterns.saved p.
Proof.
  intros Hfail. revert nuclei_list p.
  induction indices as [| idx rest IH]; intros nuclei_list p Hinv Hnd Hsub; simpl.
  - exists nuclei_list, p. split; [reflexivity |]. split; [| reflexivity].
    split; [exact Hinv | auto].
  - apply NoDup_cons in Hnd as [Hidx Hnd].
    destruct (extract_nuclei frame_idx idx) as [e | nuclei] eqn:Hext.
    + destruct (tracked_remove_ok idx p Hinv) as (p1 & -> & [Hinv1 Hsub1] & Hsaved1 & Htr1).
      { apply Hsub. left. }
      { apply Hfail. rewrite Hext. reflexivity. }
      simpl. destruct (IH nuclei_list p1 Hinv1 Hnd) as (nl & p' & -> & [Hinv' Hsub'] & Hsaved').
      { intros y Hy. apply Htr1. split; [apply Hsub; right; exact Hy |].
        intros ->. contradiction. }
      exists nl, p'. split; [reflexivity |]. split; [| congruence].
      split; [exact Hinv' | auto].
    + apply IH; [exact Hinv | exact Hnd |]. intros y Hy. apply Hsub. right. exact Hy.
Qed.

Lemma update_loop_ok (frame_idx : Z) (observations : list (Z * Z)) (p : Patterns.t) :
  tracking_inv n_patterns failed p ->
  (forall obs, obs ∈ observations -> 0 <= obs.1 < n_patterns) ->
  exists p', for_each (update_tracking frame_idx) observations p = inr p' /\
             step_ok p p' /\
             forall j, j ∉ map fst observations ->
                       Patterns.saved p' !! j = Patterns.saved p !! j.
Proof.
  revert p. induction observations as [| obs rest IH]; intros p Hinv Hrange; simpl.
  - exists p. split; [reflexivity |]. split; [| auto]. split; [exact Hinv | auto].
  - destruct (update_tracking_ok frame_idx p obs Hinv) as (p1 & -> & [Hinv1 Hsub1] & Hsaved1).
    { apply Hrange. left. }
    simpl. destruct (IH p1 Hinv1) as (p' & -> & [Hinv' Hsub'] & Hsaved').
    { intros o Ho. apply Hrange. right. exact Ho. }
    exists p'. split; [reflexivity |]. split; [split; [exact Hinv' | auto] |].
    intros j Hj. rewrite Hsaved', Hsaved1; [reflexivity | |].
    + intros ->. apply Hj. left.
    + intros Hin. apply Hj. right. exact Hin.
Qed.

End Invariant.

(** Without an extraction failure the [i]-th region is the one of the
    [i]-th tracked pattern, and the [i]-th count is applied to it. *)
Lemma collect_nuclei_all_extracted (frame_idx : Z) (indices : list Z)
    (regions nuclei_list : list region) (p : Patterns.t) :
  Forall2 (fun idx r => extract_nuclei frame_idx idx = inr r) indices regions ->
  collect_nuclei frame_idx indices nuclei_list p = inr (nuclei_list ++ regions, p).
Proof.
  intros Hall. revert nuclei_list.
  induction Hall as [| idx r indices regions Hext _ IH]; intros nuclei_list; simpl.
  - rewrite app_nil_r. reflexivity.
  - rewrite Hext, IH, <- app_assoc. reflexivity.
Qed.

Lemma process_frame_all_extracted (frame_idx : Z) (p : Patterns.t)
    (regions : list region) (counts : list Z) :
  is_ok (load_nuclei frame_idx) = true ->
  Forall2 (fun idx r => extract_nuclei frame_idx idx = inr r)
          (Patterns.tracked p) regions ->
  regions <> [] ->
  count_nuclei frame_idx regions = inr counts ->
  _process_frame p frame_idx
  = reraise_as ProcessingFailed
      (for_each (update_tracking frame_idx) (Py.zip (Patterns.tracked p) counts) p).
Proof.
  intros Hload Hall Hne Hcount. unfold Analyzer._process_frame.
  destruct (load_nuclei frame_idx) as [e | u]; [discriminate Hload |]. simpl.
  unfold Patterns.get_tracked_indices.
  rewrite (collect_nuclei_all_extracted _ _ regions [] p Hall). simpl.
  destruct regions as [| r regions]; [congruence |].
  rewrite Hcount. reflexivity.
Qed.

Lemma zip_take_fst (k : nat) (a b : list Z) (obs : Z * Z) :
  obs ∈ take k (Py.zip a b) -> obs.1 ∈ a.
Proof.
  intros Hobs. apply subseteq_take in Hobs. destruct obs as [x y].
  apply list_elem_of_In in Hobs. apply in_combine_l in Hobs.
  apply list_elem_of_In. exact Hobs.
Qed.

Lemma zip_fst (a b : list Z) (obs : Z * Z) : obs ∈ Py.zip a b -> obs.1 ∈ a.
Proof. intros Hobs. apply (zip_take_fst (length (Py.zip a b)) a b). rewrite firstn_all. exact Hobs. Qed.

Section Frame.
Variable n_patterns : Z.
Variable failed : Z -> Prop.
Variable frame_idx : Z.
Hypothesis failed_here :
  forall idx, is_ok (extract_nuclei frame_idx idx) = false -> failed idx.

Local Abbreviation frame_ok := (frame_ok n_patterns failed).

Lemma updates_from_collected (p p1 : Patterns.t) (observations : list (Z * Z)) :
  tracking_inv n_patterns failed p ->
  step_ok n_patterns failed p p1 -> Patterns.saved p1 = Patterns.saved p ->
  (forall obs, obs ∈ observations -> obs.1 ∈ Patterns.tracked p) ->
  exists q, for_each (update_tracking frame_idx) observations p1 = inr q /\ frame_ok p q.
Proof.
  intros Hinv [Hinv1 Hsub1] Hsaved1 Hobs.
  destruct (update_loop_ok n_patterns failed frame_idx observations p1 Hinv1)
    as (q & Hrun & [Hinvq Hsubq] & Hsavedq).
  { intros obs Ho. apply (inv_range _ _ _ Hinv), Hobs, Ho. }
  exists q. split; [exact Hrun |]. split; [split; [exact Hinvq | auto] |].
  intros j Hj. rewrite Hsavedq, Hsaved1; [reflexivity |].
  intros Hin. apply list_elem_of_fmap in Hin as (obs & -> & Ho). apply Hj, Hobs, Ho.
Qed.

Lemma process_frame_ok (p : Patterns.t) :
  tracking_inv n_patterns failed p -> is_ok (load_nuclei frame_idx) = true ->
  exists q, _process_frame p frame_idx = inr q /\ frame_ok p q.
Proof.
  intros Hinv Hload. unfold Analyzer._process_frame.
  destruct (load_nuclei frame_idx) as [e | u]; [discriminate Hload |]. simpl.
  destruct (collect_nuclei_ok n_patterns failed frame_idx
              (Patterns.get_tracked_indices p) [] p failed_here Hinv)
    as (nuclei_list & p1 & -> & Hstep1 & Hsaved1).
  { apply (inv_nodup _ _ _ Hinv). }
  { auto. }
  simpl.
  assert (Hsame : frame_ok p p1).
  { split; [exact Hstep1 |]. intros j _. rewrite Hsaved1. reflexivity. }
  destruct nuclei_list as [| nuclei rest]; [exists p1; split; [reflexivity | exact Hsame] |].
  destruct (count_nuclei frame_idx (nuclei :: rest)) as [e | counts];
    [exists p1; split; [reflexivity | exact Hsame] |].
  destruct (updates_from_collected p p1
              (Py.zip (Patterns.get_tracked_indices p) counts) Hinv Hstep1 Hsaved1)
    as (q & -> & Hq).
  { intros obs Ho. apply (zip_fst _ _ _ Ho). }
  exists q. split; [reflexivity | exact Hq].
Qed.

Lemma at_stage_ok (p q : Patterns.t) (s : stage) :
  tracking_inv n_patterns failed p -> at_stage p frame_idx s = inr q -> frame_ok p q.
Proof.
  intros Hinv Hq. unfold at_stage in Hq.
  destruct (load_nuclei frame_idx) as [e | u]; [discriminate Hq |]. simpl in Hq.
  destruct s as [k | k].
  - destruct (collect_nuclei_ok n_patterns failed frame_idx
                (take k (Patterns.get_tracked_indices p)) [] p failed_here Hinv)
      as (nl & q' & Hrun' & Hstep & Hsaved).
    { apply (sublist_NoDup _ _ (inv_nodup _ _ _ Hinv)), sublist_take. }
    { intros idx Hidx. apply subseteq_take in Hidx. exact Hidx. }
    rewrite Hrun' in Hq. simpl in Hq. injection Hq as <-.
    split; [exact Hstep |]. intros j _. rewrite Hsaved. reflexivity.
  - destruct (collect_nuclei_ok n_patterns failed frame_idx
                (Patterns.get_tracked_indices p) [] p failed_here Hinv)
      as (nl & p1 & Hrun' & Hstep1 & Hsaved1).
    { apply (inv_nodup _ _ _ Hinv). }
    { auto. }
    rewrite Hrun' in Hq. simpl in Hq.
    assert (Hsame : frame_ok p p1).
    { split; [exact Hstep1 |]. intros j _. rewrite Hsaved1. reflexivity. }
    destruct nl as [| nuclei rest]; [injection Hq as <-; exact Hsame |].
    destruct (count_nuclei frame_idx (nuclei :: rest)) as [e | counts];
      [injection Hq as <-; exact Hsame |].
    destruct (updates_from_collected p p1
                (take k (Py.zip (Patterns.get_tracked_indices p) counts))
                Hinv Hstep1 Hsaved1) as (q' & Hupd' & Hq').
    { intros obs Ho. apply (zip_take_fst _ _ _ _ Ho). }
    rewrite Hq in Hupd'. injection Hupd' as <-. exact Hq'.
Qed.

End Frame.

Lemma process_frame_loaded (p q : Patterns.t) (frame_idx : Z) :
  _process_frame p frame_idx = inr q -> is_ok (load_nuclei frame_idx) = true.
Proof.
  unfold Analyzer._process_frame.
  destruct (load_nuclei frame_idx); [discriminate | reflexivity].
Qed.

Lemma init_inv (n_patterns : Z) :
  tracking_inv n_patterns (extraction_failed []) (Patterns.init n_patterns).
Proof.
  assert (Hnd : NoDup (Py.range n_patterns)).
  { unfold Py.range, Py.range2. apply NoDup_fmap_2; [| apply NoDup_seq].
    intros a b Hab. lia. }
  assert (Hin : forall idx, idx ∈ Py.range n_patterns <-> 0 <= idx < n_patterns).
  { intros idx. unfold Py.range. rewrite elem_of_range2. lia. }
  split; simpl.
  - exact Hnd.
  - intros idx Hidx. apply Hin, Hidx.
  - intros idx _. split; apply not_elem_of_nil.
  - intros idx Hidx. inversion Hidx.
  - intros idx Hidx. exists [].
    apply elem_of_list_to_map_1.
    + assert (Hkeys : forall l : list Z, (map (fun i : Z => (i, @nil Z)) l).*1 = l).
      { induction l as [| a l IHl]; simpl; [reflexivity | f_equal; exact IHl]. }
      rewrite Hkeys. exact Hnd.
    + apply list_elem_of_fmap. exists idx. split; [reflexivity | apply Hin, Hidx].
  - intros idx Hidx. left. apply Hin, Hidx.
Qed.

Lemma process_frames_returns (n_patterns : Z) (failed : Z -> Prop)
    (frames : list Z) (p : Patterns.t) :
  (forall g idx, g ∈ frames -> is_ok (extract_nuclei g idx) = false -> failed idx) ->
  tracking_inv n_patterns failed p ->
  (forall g, g ∈ frames -> is_ok (load_nuclei g) = true) ->
  exists r, process_frames frames p = inr r.
Proof.
  intros Hfail. revert p. induction frames as [| f frames IH]; intros p Hinv Hload.
  - exists p. reflexivity.
  - destruct (process_frame_ok n_patterns failed f) with (p := p)
      as (p1 & Hframe & [[Hinv1 _] _]).
    + intros idx. apply Hfail. left.
    + exact Hinv.
    + apply Hload. left.
    + destruct (IH ltac:(intros g idx Hg; apply Hfail; right; exact Hg) p1 Hinv1)
        as (r & Hr).
      { intros g Hg. apply Hload. right. exact Hg. }
      exists r. unfold Analyzer.process_frames in *. simpl. rewrite Hframe. exact Hr.
Qed.

Lemma membership_inv (n_patterns : Z) (failed : Z -> Prop) (p : Patterns.t) (idx : Z) :
  tracking_inv n_patterns failed p ->
  (membership p idx <= 1)%nat /\
  (0 <= idx < n_patterns -> membership p idx = 0%nat -> failed idx).
Proof.
  intros [H1 H2 H3 H4 H5 H6]. unfold membership, Py.mem.
  destruct (decide (idx ∈ Patterns.tracked p)) as [Ht | Ht];
  destruct (decide (idx ∈ Patterns.dropped_zero p)) as [Hz | Hz];
  destruct (decide (idx ∈ Patterns.dropped_many p)) as [Hm | Hm];
  rewrite ?(bool_decide_eq_true_2 _ Ht), ?(bool_decide_eq_false_2 _ Ht),
          ?(bool_decide_eq_true_2 _ Hz), ?(bool_decide_eq_false_2 _ Hz),
          ?(bool_decide_eq_true_2 _ Hm), ?(bool_decide_eq_false_2 _ Hm);
  simpl; try (split; [lia | intros; lia]).
  - destruct (H3 idx Ht). contradiction.
  - destruct (H3 idx Ht). contradiction.
  - destruct (H3 idx Ht). contradiction.
  - exfalso. apply (H4 idx Hz Hm).
  - split; [lia |]. intros Hidx _. destruct (H6 idx Hidx) as [? | [? | [? | ?]]]; tauto.
Qed.

Lemma reraise_inr {A : Type} (e : exn) (m : result A) (a : A) :
  reraise_as e m = inr a -> m = inr a.
Proof. destruct m; [discriminate | auto]. Qed.

Lemma for_each_app {A S : Type} (body : S -> A -> result S) (a b : list A) (s : S) :
  for_each body (a ++ b) s = bind (for_each body a s) (for_each body b).
Proof.
  revert s. induction a as [| x a IH]; intros s; simpl; [reflexivity |].
  destruct (body s x) as [e | s']; simpl; [reflexivity | apply IH].
Qed.

Lemma take_le_split {A : Type} (l : list A) (k k' : nat) :
  (k <= k')%nat -> take k' l = take k l ++ take (k' - k) (drop k l).
Proof.
  revert l k'. induction k as [| k IH]; intros l k' Hle.
  - rewrite Nat.sub_0_r. reflexivity.
  - destruct k' as [| k']; [lia |].
    destruct l as [| x l]; [rewrite drop_nil, !take_nil; reflexivity |].
    simpl. f_equal. apply IH. lia.
Qed.

Lemma remove_other (x y : Z) (l l' : list Z) :
  Py.remove x l = inr l' -> y ∈ l -> y <> x -> y ∈ l'.
Proof.
  revert l'. induction l as [| z l IH]; intros l' Hrm Hy Hne; simpl in Hrm.
  - discriminate.
  - destruct (bool_decide (x = z)) eqn:Hxz.
    + apply bool_decide_eq_true in Hxz as <-. injection Hrm as <-.
      apply elem_of_cons in Hy as [-> | Hy]; [congruence | exact Hy].
    + destruct (Py.remove x l) as [e | r]; simpl in Hrm; [discriminate |].
      injection Hrm as <-. apply elem_of_cons in Hy as [-> | Hy]; [left |].
      right. apply (IH r eq_refl Hy Hne).
Qed.

Lemma remove_NoDup_absent (x : Z) (l l' : list Z) :
  NoDup l -> Py.remove x l = inr l' -> x ∉ l'.
Proof.
  revert l'. induction l as [| z l IH]; intros l' Hnd Hrm; simpl in Hrm.
  - discriminate.
  - apply NoDup_cons in Hnd as [Hz Hnd].
    destruct (bool_decide (x = z)) eqn:Hxz.
    + apply bool_decide_eq_true in Hxz as <-. injection Hrm as <-. exact Hz.
    + apply bool_decide_eq_false in Hxz.
      destruct (Py.remove x l) as [e | r]; simpl in Hrm; [discriminate |].
      injection Hrm as <-. intros Hin.
      apply elem_of_cons in Hin as [-> | Hin]; [congruence |].
      apply (IH r Hnd eq_refl Hin).
Qed.

(** ** The tracking state from one stage of a run to a later one *)

Lemma evolves_refl (idx : Z) (p : Patterns.t) : evolves idx p p.
Proof.
  unfold evolves. split_and!; auto.
  intros l Hl. exists []. rewrite app_nil_r. exact Hl.
Qed.

Lemma evolves_trans (idx : Z) (p q r : Patterns.t) :
  evolves idx p q -> evolves idx q r -> evolves idx p r.
Proof.
  intros (A1 & A2 & A3 & A4 & A5 & A6) (B1 & B2 & B3 & B4 & B5 & B6).
  unfold evolves. split_and!.
  - auto.
  - auto.
  - auto.
  - intros H. destruct (B4 H) as [H' | H']; [apply A4, H' | right; apply A1, H'].
  - intros H. destruct (B5 H) as [H' | H']; [apply A5, H' | right; apply A1, H'].
  - intros l Hl. destruct (A6 l Hl) as (l1 & Hl1). destruct (B6 _ Hl1) as (l2 & Hl2).
    exists (l1 ++ l2). rewrite app_assoc. exact Hl2.
Qed.

Lemma evolves_uncovered (idx : Z) (p q : Patterns.t) :
  evolves idx p q -> ~ covered p idx -> ~ covered q idx.
Proof.
  intros (A1 & _ & _ & A4 & A5 & _) Hp [H | [H | H]]; apply Hp; unfold covered.
  - auto.
  - destruct (A4 H); auto.
  - destruct (A5 H); auto.
Qed.

Lemma membership_covered (p : Patterns.t) (idx : Z) :
  membership p idx = 0%nat <-> ~ covered p idx.
Proof.
  unfold membership, covered, Py.mem.
  destruct (decide (idx ∈ Patterns.tracked p)) as [Ht | Ht];
  destruct (decide (idx ∈ Patterns.dropped_zero p)) as [Hz | Hz];
  destruct (decide (idx ∈ Patterns.dropped_many p)) as [Hm | Hm];
  rewrite ?(bool_decide_eq_true_2 _ Ht), ?(bool_decide_eq_false_2 _ Ht),
          ?(bool_decide_eq_true_2 _ Hz), ?(bool_decide_eq_false_2 _ Hz),
          ?(bool_decide_eq_true_2 _ Hm), ?(bool_decide_eq_false_2 _ Hm);
  simpl; split; try discriminate; try tauto; intros; reflexivity.
Qed.

Lemma tracked_remove_evolves (idx i : Z) (p q : Patterns.t) :
  Patterns.tracked_remove i p = inr q ->
  evolves idx p q /\
  Patterns.dropped_zero q = Patterns.dropped_zero p /\
  Patterns.dropped_many q = Patterns.dropped_many p /\
  Patterns.saved q = Patterns.saved p.
Proof.
  unfold Patterns.tracked_remove.
  destruct (Py.remove i (Patterns.tracked p)) as [e | tr] eqn:Hrm; simpl; [discriminate |].
  intros H. injection H as <-. simpl. split; [| auto].
  unfold evolves; simpl. split_and!; auto.
  - apply (remove_subset _ _ _ Hrm).
  - intros l Hl. exists []. rewrite app_nil_r. exact Hl.
Qed.

Lemma drop_zero_evolves (idx i : Z) (p q : Patterns.t) :
  Patterns.drop_zero i p = inr q ->
  evolves idx p q /\
  Patterns.saved q = Patterns.saved p /\
  (idx ∈ Patterns.dropped_zero q \/ idx ∈ Patterns.dropped_many q ->
   idx ∈ Patterns.dropped_zero p \/ idx ∈ Patterns.dropped_many p \/ idx = i) /\
  (covered p idx -> covered q idx).
Proof.
  unfold Patterns.drop_zero, Py.mem.
  destruct (bool_decide (i ∈ Patterns.tracked p)) eqn:Hmem.
  - apply bool_decide_eq_true in Hmem.
    destruct (Py.remove i (Patterns.tracked p)) as [e | tr] eqn:Hrm; simpl; [discriminate |].
    intros H. injection H as <-. unfold evolves, covered; simpl. split_and!.
    + apply (remove_subset _ _ _ Hrm).
    + intros H. apply elem_of_app. auto.
    + auto.
    + intros H. apply elem_of_app in H as [H | H]; [auto |].
      apply list_elem_of_singleton in H as ->. auto.
    + auto.
    + intros l Hl. exists []. rewrite app_nil_r. exact Hl.
    + reflexivity.
    + intros [H | H]; [| auto]. apply elem_of_app in H as [H | H]; [auto |].
      apply list_elem_of_singleton in H. auto.
    + intros [H | [H | H]].
      * destruct (decide (idx = i)) as [-> | Hne].
        -- right. left. apply elem_of_app. right. apply list_elem_of_singleton. reflexivity.
        -- left. apply (remove_other _ _ _ _ Hrm H Hne).
      * right. left. apply elem_of_app. auto.
      * auto.
  - intros H. injection H as <-.
    split_and!; [apply evolves_refl | reflexivity | tauto | auto].
Qed.

Lemma drop_many_evolves (idx i : Z) (p q : Patterns.t) :
  Patterns.drop_many i p = inr q ->
  evolves idx p q /\
  Patterns.saved q = Patterns.saved p /\
  (idx ∈ Patterns.dropped_zero q \/ idx ∈ Patterns.dropped_many q ->
   idx ∈ Patterns.dropped_zero p \/ idx ∈ Patterns.dropped_many p \/ idx = i) /\
  (covered p idx -> covered q idx).
Proof.
  unfold Patterns.drop_many, Py.mem.
  destruct (bool_decide (i ∈ Patterns.tracked p)) eqn:Hmem.
  - apply bool_decide_eq_true in Hmem.
    destruct (Py.remove i (Patterns.tracked p)) as [e | tr] eqn:Hrm; simpl; [discriminate |].
    intros H. injection H as <-. unfold evolves, covered; simpl. split_and!.
    + apply (remove_subset _ _ _ Hrm).
    + auto.
    + intros H. apply elem_of_app. auto.
    + auto.
    + intros H. apply elem_of_app in H as [H | H]; [auto |].
      apply list_elem_of_singleton in H as ->. auto.
    + intros l Hl. exists []. rewrite app_nil_r. exact Hl.
    + reflexivity.
    + intros [H | H]; [auto |]. apply elem_of_app in H as [H | H]; [auto |].
      apply list_elem_of_singleton in H. auto.
    + intros [H | [H | H]].
      * destruct (decide (idx = i)) as [-> | Hne].
        -- right. right. apply elem_of_app. right. apply list_elem_of_singleton. reflexivity.
        -- left. apply (remove_other _ _ _ _ Hrm H Hne).
      * auto.
      * right. right. apply elem_of_app. auto.
  - intros H. injection H as <-.
    split_and!; [apply evolves_refl | reflexivity | tauto | auto].
Qed.

Lemma save_frame_evolves (idx i frame_idx : Z) (p q : Patterns.t) :
  Patterns.save_frame i frame_idx p = inr q ->
  evolves idx p q /\
  (idx <> i -> Patterns.saved q !! idx = Patterns.saved p !! idx) /\
  Patterns.tracked q = Patterns.tracked p /\
  Patterns.dropped_zero q = Patterns.dropped_zero p /\
  Patterns.dropped_many q = Patterns.dropped_many p.
Proof.
  unfold Patterns.save_frame.
  destruct (Patterns.saved p !! i) as [frames |] eqn:Hs; [| discriminate].
  intros H. injection H as <-. simpl. split_and!; try reflexivity.
  - unfold evolves; simpl. split_and!; auto.
    intros l Hl. destruct (decide (idx = i)) as [-> | Hne].
    + rewrite lookup_insert_eq. exists [frame_idx]. congruence.
    + rewrite lookup_insert_ne by congruence. exists []. rewrite app_nil_r. exact Hl.
  - intros Hne. apply lookup_insert_ne. congruence.
Qed.

(** One iteration of the update loop. *)
Lemma update_tracking_step (idx frame_idx : Z) (p q : Patterns.t) (obs : Z * Z) :
  update_tracking frame_idx p obs = inr q ->
  evolves idx p q /\
  (idx <> obs.1 -> Patterns.saved q !! idx = Patterns.saved p !! idx) /\
  (idx ∈ Patterns.dropped_zero q \/ idx ∈ Patterns.dropped_many q ->
   idx ∈ Patterns.dropped_zero p \/ idx ∈ Patterns.dropped_many p \/ idx = obs.1) /\
  (covered p idx -> covered q idx).
Proof.
  destruct obs as [i c]. unfold Analyzer.update_tracking. simpl.
  destruct (c =? wanted).
  { intros H. destruct (save_frame_evolves idx i frame_idx p q H) as (He & Hs & Ht & Hz & Hm).
    split_and!; [exact He | exact Hs | rewrite Hz, Hm; tauto |].
    unfold covered. rewrite Ht, Hz, Hm. tauto. }
  destruct (c >? wanted).
  { intros H. destruct (drop_many_evolves idx i p q H) as (He & Hs & Hd & Hc).
    split_and!; [exact He | intros _; rewrite Hs; reflexivity | exact Hd | exact Hc]. }
  destruct (c =? 0).
  { intros H. destruct (drop_zero_evolves idx i p q H) as (He & Hs & Hd & Hc).
    split_and!; [exact He | intros _; rewrite Hs; reflexivity | exact Hd | exact Hc]. }
  intros H. injection H as <-.
  split_and!; [apply evolves_refl | reflexivity | tauto | auto].
Qed.

(** Any number of iterations of the update loop. *)
Lemma update_loop_step (idx frame_idx : Z) (obs : list (Z * Z)) (p q : Patterns.t) :
  for_each (update_tracking frame_idx) obs p = inr q ->
  evolves idx p q /\
  (idx ∉ map fst obs -> Patterns.saved q !! idx = Patterns.saved p !! idx) /\
  (idx ∈ Patterns.dropped_zero q \/ idx ∈ Patterns.dropped_many q ->
   idx ∈ Patterns.dropped_zero p \/ idx ∈ Patterns.dropped_many p \/
   idx ∈ map fst obs) /\
  (covered p idx -> covered q idx).
Proof.
  revert p. induction obs as [| o obs IH]; intros p Hrun; simpl in Hrun.
  - injection Hrun as <-. split_and!; [apply evolves_refl | auto | tauto | auto].
  - destruct (update_tracking frame_idx p o) as [e | p1] eqn:Hstep; [discriminate Hrun |].
    simpl in Hrun.
    destruct (update_tracking_step idx frame_idx p p1 o Hstep) as (He & Hs & Hd & Hc).
    destruct (IH p1 Hrun) as (He' & Hs' & Hd' & Hc').
    split_and!.
    + eapply evolves_trans; eassumption.
    + intros Hn. simpl in Hn. rewrite Hs', Hs; [reflexivity | |].
      * intros Heq. apply Hn. rewrite Heq. left.
      * intros Hin. apply Hn. right. exact Hin.
    + intros H. simpl. destruct (Hd' H) as [H1 | [H1 | H1]].
      * destruct (Hd (or_introl H1)) as [? | [? | Heq]]; [auto | auto |].
        right. right. rewrite Heq. left.
      * destruct (Hd (or_intror H1)) as [? | [? | Heq]]; [auto | auto |].
        right. right. rewrite Heq. left.
      * right. right. right. exact H1.
    + auto.
Qed.

Lemma collect_nuclei_app (frame_idx : Z) (a b : list Z)
    (nuclei_list : list region) (p : Patterns.t) :
  collect_nuclei frame_idx (a ++ b) nuclei_list p
  = bind (collect_nuclei frame_idx a nuclei_list p)
         (fun x => collect_nuclei frame_idx b x.1 x.2).
Proof.
  revert nuclei_list p. induction a as [| idx a IH]; intros nuclei_list p; simpl;
    [reflexivity |].
  destruct (extract_nuclei frame_idx idx) as [e | nuclei]; [| apply IH].
  destruct (Patterns.tracked_remove idx p) as [e' | p']; simpl; [reflexivity | apply IH].
Qed.

(** Any number of iterations of the extraction loop: a pattern leaves
    [tracked] exactly when an iteration for it finds its extraction
    raising, and nothing else changes. *)
Lemma collect_nuclei_step (idx frame_idx : Z) (indices : list Z)
    (nuclei_list nuclei_list' : list region) (p q : Patterns.t) :
  collect_nuclei frame_idx indices nuclei_list p = inr (nuclei_list', q) ->
  evolves idx p q /\
  Patterns.dropped_zero q = Patterns.dropped_zero p /\
  Patterns.dropped_many q = Patterns.dropped_many p /\
  Patterns.saved q = Patterns.saved p /\
  (NoDup (Patterns.tracked p) -> NoDup (Patterns.tracked q)) /\
  (idx ∈ Patterns.tracked p ->
   idx ∈ Patterns.tracked q \/
   exists k, indices !! k = Some idx /\ is_ok (extract_nuclei frame_idx idx) = false) /\
  (NoDup (Patterns.tracked p) ->
   forall k, indices !! k = Some idx ->
             is_ok (extract_nuclei frame_idx idx) = false ->
             idx ∉ Patterns.tracked q).
Proof.
  revert nuclei_list p. induction indices as [| i rest IH]; intros nuclei_list p Hrun;
    simpl in Hrun.
  - injection Hrun as _ <-. split_and!; auto using evolves_refl.
    intros _ k Hk. rewrite lookup_nil in Hk. discriminate Hk.
  - destruct (extract_nuclei frame_idx i) as [e | nuclei] eqn:Hext.
    + destruct (Patterns.tracked_remove i p) as [e' | p1] eqn:Hrm; [discriminate Hrun |].
      simpl in Hrun.
      destruct (tracked_remove_evolves idx i p p1 Hrm) as (He & Hz & Hm & Hs).
      destruct (IH nuclei_list p1 Hrun) as (He' & Hz' & Hm' & Hs' & Hnd' & Hc' & Hr').
      assert (Htr : exists tr, Py.remove i (Patterns.tracked p) = inr tr /\
                               Patterns.tracked p1 = tr).
      { unfold Patterns.tracked_remove in Hrm.
        destruct (Py.remove i (Patterns.tracked p)) as [e1 | tr]; [discriminate Hrm |].
        simpl in Hrm. injection Hrm as <-. exists tr. auto. }
      destruct Htr as (tr & Hremove & Htr).
      assert (Hnd1 : NoDup (Patterns.tracked p) -> NoDup (Patterns.tracked p1)).
      { intros Hnd. rewrite Htr. apply (sublist_NoDup _ _ Hnd), (remove_sublist _ _ _ Hremove). }
      split_and!.
      * eapply evolves_trans; eassumption.
      * congruence.
      * congruence.
      * congruence.
      * auto.
      * intros Hin. destruct (decide (idx = i)) as [-> | Hne].
        -- right. exists 0%nat. split; [reflexivity |]. rewrite Hext. reflexivity.
        -- destruct Hc' as [? | (k & Hk & Hfail)].
           ++ rewrite Htr. apply (remove_other _ _ _ _ Hremove Hin Hne).
           ++ auto.
           ++ right. exists (S k). auto.
      * intros Hnd k Hk Hfail. destruct k as [| k].
        -- simpl in Hk. injection Hk as ->.
           intros Hin. destruct He' as (Hsub & _). apply Hsub in Hin.
           rewrite Htr in Hin. apply (remove_NoDup_absent _ _ _ Hnd Hremove Hin).
        -- apply (Hr' (Hnd1 Hnd) k Hk Hfail).
    + destruct (IH (nuclei_list ++ [nuclei]) p Hrun) as (He' & Hz' & Hm' & Hs' & Hnd' & Hc' & Hr').
      split_and!; auto.
      * intros Hin. destruct (Hc' Hin) as [? | (k & Hk & Hfail)]; [auto |].
        right. exists (S k). auto.
      * intros Hnd k Hk Hfail. destruct k as [| k].
        -- simpl in Hk. injection Hk as ->. rewrite Hext in Hfail. discriminate Hfail.
        -- apply (Hr' Hnd k Hk Hfail).
Qed.

Lemma at_stage_loaded (p q : Patterns.t) (frame_idx : Z) (s : stage) :
  at_stage p frame_idx s = inr q -> is_ok (load_nuclei frame_idx) = true.
Proof.
  unfold at_stage. destruct (load_nuclei frame_idx); [discriminate | reflexivity].
Qed.

Lemma at_stage_start (p : Patterns.t) (frame_idx : Z) :
  is_ok (load_nuclei frame_idx) = true -> at_stage p frame_idx (Extracting 0) = inr p.
Proof.
  intros H. unfold at_stage. destruct (load_nuclei frame_idx); [discriminate H | reflexivity].
Qed.

(** The state with which [_process_frame] returns is the one at the end
    of the update loop. *)
Lemma at_stage_end (p r : Patterns.t) (frame_idx : Z) (k : nat) :
  _process_frame p frame_idx = inr r -> (length (Patterns.tracked p) <= k)%nat ->
  at_stage p frame_idx (Updating k) = inr r.
Proof.
  intros Hrun Hk. apply reraise_inr in Hrun. revert Hrun.
  unfold at_stage, Patterns.get_tracked_indices.
  destruct (load_nuclei frame_idx) as [e | u]; [discriminate |]. simpl.
  destruct (collect_nuclei frame_idx (Patterns.tracked p) [] p) as [e | [nl p1]];
    [discriminate |]. simpl.
  destruct nl as [| nuclei rest]; [auto |].
  destruct (count_nuclei frame_idx (nuclei :: rest)) as [e | counts]; [auto |].
  rewrite take_ge; [auto |]. unfold Py.zip. rewrite length_combine. lia.
Qed.

(** Two stages of one frame. *)
Lemma within_frame (n_patterns idx : Z) (p q q' : Patterns.t) (frame_idx : Z)
    (s s' : stage) :
  tracking_inv n_patterns (fun _ => True) p ->
  stage_le s s' ->
  at_stage p frame_idx s = inr q -> at_stage p frame_idx s' = inr q' ->
  evolves idx q q' /\
  (idx ∈ Patterns.dropped_zero q \/ idx ∈ Patterns.dropped_many q ->
   Patterns.saved q' !! idx = Patterns.saved q !! idx).
Proof.
  intros Hinv Hle Hq Hq'.
  assert (Hout : idx ∈ Patterns.dropped_zero p \/ idx ∈ Patterns.dropped_many p ->
                 idx ∉ Patterns.tracked p).
  { intros Hd Ht. destruct (inv_tracked _ _ _ Hinv idx Ht). tauto. }
  unfold at_stage, Patterns.get_tracked_indices in Hq, Hq'.
  destruct (load_nuclei frame_idx) as [e | u]; [discriminate Hq |]. simpl in Hq, Hq'.
  destruct s as [k | k], s' as [k' | k']; simpl in Hle.
  - rewrite (take_le_split (Patterns.tracked p) k k' Hle), collect_nuclei_app in Hq'.
    destruct (collect_nuclei frame_idx (take k (Patterns.tracked p)) [] p)
      as [e | [nl p1]]; [discriminate Hq |].
    simpl in Hq, Hq'. injection Hq as ->.
    destruct (collect_nuclei frame_idx (take (k' - k) (drop k (Patterns.tracked p))) nl q)
      as [e | [nl' p2]] eqn:Hseg; [discriminate Hq' |].
    simpl in Hq'. injection Hq' as ->.
    destruct (collect_nuclei_step idx _ _ _ _ _ _ Hseg) as (He & _ & _ & Hs & _).
    split; [exact He | intros _; rewrite Hs; reflexivity].
  - assert (Hsplit :
      collect_nuclei frame_idx (Patterns.tracked p) [] p
      = bind (collect_nuclei frame_idx (take k (Patterns.tracked p)) [] p)
             (fun x => collect_nuclei frame_idx (drop k (Patterns.tracked p)) x.1 x.2)).
    { rewrite <- collect_nuclei_app, take_drop. reflexivity. }
    rewrite Hsplit in Hq'.
    destruct (collect_nuclei frame_idx (take k (Patterns.tracked p)) [] p)
      as [e | [nl p1]] eqn:Hfirst; [discriminate Hq |].
    simpl in Hq, Hq'. injection Hq as ->.
    destruct (collect_nuclei frame_idx (drop k (Patterns.tracked p)) nl q)
      as [e | [nl2 p2]] eqn:Hseg; [discriminate Hq' |].
    simpl in Hq'.
    destruct (collect_nuclei_step idx _ _ _ _ _ _ Hfirst) as (_ & Hz1 & Hm1 & _).
    destruct (collect_nuclei_step idx _ _ _ _ _ _ Hseg) as (He & Hz & Hm & Hs & _).
    assert (Hdone : evolves idx p2 q' /\
                    (idx ∉ Patterns.tracked p ->
                     Patterns.saved q' !! idx = Patterns.saved p2 !! idx)).
    { destruct nl2 as [| nuclei rest];
        [injection Hq' as ->; split; [apply evolves_refl | auto] |].
      destruct (count_nuclei frame_idx (nuclei :: rest)) as [e | counts];
        [injection Hq' as ->; split; [apply evolves_refl | auto] |].
      destruct (update_loop_step idx _ _ _ _ Hq') as (He' & Hs' & _).
      split; [exact He' |]. intros Hn. apply Hs'. intros Hin. apply Hn.
      apply list_elem_of_fmap in Hin as (o & -> & Ho). apply (zip_take_fst _ _ _ _ Ho). }
    destruct Hdone as [He' Hs'].
    split; [eapply evolves_trans; eassumption |].
    intros Hd. rewrite Hs', Hs; [reflexivity |]. apply Hout. rewrite <- Hz1, <- Hm1. exact Hd.
  - contradiction.
  - destruct (collect_nuclei frame_idx (Patterns.tracked p) [] p)
      as [e | [nl p1]] eqn:Hcol; [discriminate Hq |].
    simpl in Hq, Hq'.
    destruct (collect_nuclei_step idx _ _ _ _ _ _ Hcol) as (_ & Hz1 & Hm1 & _).
    destruct nl as [| nuclei rest].
    { injection Hq as ->. injection Hq' as ->. split; [apply evolves_refl | reflexivity]. }
    destruct (count_nuclei frame_idx (nuclei :: rest)) as [e | counts].
    { injection Hq as ->. injection Hq' as ->. split; [apply evolves_refl | reflexivity]. }
    rewrite (take_le_split _ k k' Hle), for_each_app, Hq in Hq'. simpl in Hq'.
    destruct (update_loop_step idx _ _ _ _ Hq') as (He & Hs & _).
    destruct (update_loop_step idx _ _ _ _ Hq) as (_ & _ & Hd & _).
    split; [exact He |]. intros Hdrop. apply Hs.
    assert (Hnd : NoDup (map fst (Py.zip (Patterns.tracked p) counts))).
    { apply (sublist_NoDup _ _ (inv_nodup _ _ _ Hinv)), zip_fst_sublist. }
    rewrite <- (take_drop k (Py.zip (Patterns.tracked p) counts)), map_app in Hnd.
    apply NoDup_app in Hnd as (_ & Hdisj & _).
    intros Hin.
    assert (Hrest : idx ∈ map fst (drop k (Py.zip (Patterns.tracked p) counts))).
    { apply list_elem_of_fmap in Hin as (o & -> & Ho).
      apply list_elem_of_fmap. exists o. split; [reflexivity |].
      apply subseteq_take in Ho. exact Ho. }
    assert (Htracked : idx ∈ Patterns.tracked p).
    { apply list_elem_of_fmap in Hrest as (o & -> & Ho).
      apply subseteq_drop in Ho. apply (zip_fst _ _ _ Ho). }
    destruct (Hd Hdrop) as [H | [H | H]].
    + apply Hout; [left; rewrite <- Hz1; exact H | exact Htracked].
    + apply Hout; [right; rewrite <- Hm1; exact H | exact Htracked].
    + apply (Hdisj idx H Hrest).
Qed.

(** In one frame, a pattern in one of the lists stays in one unless an
    iteration of the extraction loop removes it. *)
Lemma within_frame_cover (idx : Z) (p q : Patterns.t) (frame_idx : Z) (s : stage) :
  covered p idx -> at_stage p frame_idx s = inr q ->
  covered q idx \/
  exists k, Patterns.tracked p !! k = Some idx /\
            is_ok (extract_nuclei frame_idx idx) = false /\
            stage_le (Extracting (S k)) s.
Proof.
  intros Hc Hq. unfold at_stage, Patterns.get_tracked_indices in Hq.
  destruct (load_nuclei frame_idx) as [e | u]; [discriminate Hq |]. simpl in Hq.
  destruct s as [k' | k'].
  - destruct (collect_nuclei frame_idx (take k' (Patterns.tracked p)) [] p)
      as [e | [nl p1]] eqn:Hcol; [discriminate Hq |].
    simpl in Hq. injection Hq as ->.
    destruct (collect_nuclei_step idx _ _ _ _ _ _ Hcol) as (_ & Hz & Hm & _ & _ & Hcov & _).
    destruct Hc as [Ht | Hd].
    + destruct (Hcov Ht) as [Hin | (k & Hk & Hfail)]; [left; left; exact Hin |].
      right. exists k. apply lookup_take_Some in Hk as [Hk Hlt].
      split; [exact Hk |]. split; [exact Hfail | simpl; lia].
    + left. right. rewrite Hz, Hm. exact Hd.
  - destruct (collect_nuclei frame_idx (Patterns.tracked p) [] p)
      as [e | [nl p1]] eqn:Hcol; [discriminate Hq |].
    simpl in Hq.
    destruct (collect_nuclei_step idx _ _ _ _ _ _ Hcol) as (_ & Hz & Hm & _ & _ & Hcov & _).
    assert (Hp1 : covered p1 idx \/
                  exists k, Patterns.tracked p !! k = Some idx /\
                            is_ok (extract_nuclei frame_idx idx) = false).
    { destruct Hc as [Ht | Hd].
      - destruct (Hcov Ht) as [Hin | Hrem]; [left; left; exact Hin | right; exact Hrem].
      - left. right. rewrite Hz, Hm. exact Hd. }
    destruct Hp1 as [Hp1 | (k & Hk & Hfail)];
      [| right; exists k; split; [exact Hk | split; [exact Hfail | exact I]]].
    left. destruct nl as [| nuclei rest]; [injection Hq as <-; exact Hp1 |].
    destruct (count_nuclei frame_idx (nuclei :: rest)) as [e | counts];
      [injection Hq as <-; exact Hp1 |].
    destruct (update_loop_step idx _ _ _ _ Hq) as (_ & _ & _ & Hkeep). apply Hkeep, Hp1.
Qed.

(** In one frame, a pattern whose extraction raises in the iteration for
    it is in none of the lists from that iteration on. *)
Lemma within_frame_removed (n_patterns idx : Z) (p q : Patterns.t) (frame_idx : Z)
    (s : stage) (k : nat) :
  tracking_inv n_patterns (fun _ => True) p ->
  Patterns.tracked p !! k = Some idx ->
  is_ok (extract_nuclei frame_idx idx) = false ->
  stage_le (Extracting (S k)) s ->
  at_stage p frame_idx s = inr q ->
  ~ covered q idx.
Proof.
  intros Hinv Hk Hfail Hle Hq.
  assert (Hin : idx ∈ Patterns.tracked p) by (apply (list_elem_of_lookup_2 _ _ _ Hk)).
  destruct (inv_tracked _ _ _ Hinv idx Hin) as [Hnz Hnm].
  pose proof (inv_nodup _ _ _ Hinv) as Hnd.
  unfold at_stage, Patterns.get_tracked_indices in Hq.
  destruct (load_nuclei frame_idx) as [e | u]; [discriminate Hq |]. simpl in Hq.
  destruct s as [k' | k']; simpl in Hle.
  - destruct (collect_nuclei frame_idx (take k' (Patterns.tracked p)) [] p)
      as [e | [nl p1]] eqn:Hcol; [discriminate Hq |].
    simpl in Hq. injection Hq as ->.
    destruct (collect_nuclei_step idx _ _ _ _ _ _ Hcol) as (_ & Hz & Hm & _ & _ & _ & Hrem).
    intros [Ht | [Hd | Hd]].
    + apply (Hrem Hnd k); [apply lookup_take_Some; split; [exact Hk | lia] | exact Hfail | exact Ht].
    + apply Hnz. rewrite <- Hz. exact Hd.
    + apply Hnm. rewrite <- Hm. exact Hd.
  - destruct (collect_nuclei frame_idx (Patterns.tracked p) [] p)
      as [e | [nl p1]] eqn:Hcol; [discriminate Hq |].
    simpl in Hq.
    destruct (collect_nuclei_step idx _ _ _ _ _ _ Hcol) as (_ & Hz & Hm & _ & _ & _ & Hrem).
    assert (Hp1 : ~ covered p1 idx).
    { intros [Ht | [Hd | Hd]].
      - apply (Hrem Hnd k Hk Hfail Ht).
      - apply Hnz. rewrite <- Hz. exact Hd.
      - apply Hnm. rewrite <- Hm. exact Hd. }
    destruct nl as [| nuclei rest]; [injection Hq as <-; exact Hp1 |].
    destruct (count_nuclei frame_idx (nuclei :: rest)) as [e | counts];
      [injection Hq as <-; exact Hp1 |].
    destruct (update_loop_step idx _ _ _ _ Hq) as (He & _).
    apply (evolves_uncovered _ _ _ He Hp1).
Qed.

(** ** The stages of a run, frame after frame *)

Lemma visited_nil (p0 q : Patterns.t) (i : nat) (s : stage) : ~ visited p0 [] i s q.
Proof. intros (f & p & Hf & _). rewrite lookup_nil in Hf. discriminate Hf. Qed.

Lemma visited_head (p0 q : Patterns.t) (frame_idx : Z) (frames : list Z) (s : stage) :
  visited p0 (frame_idx :: frames) 0 s q <-> at_stage p0 frame_idx s = inr q.
Proof.
  unfold visited. split.
  - intros (f & p & Hf & Hp & Hq). simpl in Hf. injection Hf as <-.
    unfold Analyzer.process_frames in Hp. simpl in Hp. injection Hp as <-. exact Hq.
  - intros Hq. exists frame_idx, p0. split; [reflexivity |]. split; [reflexivity | exact Hq].
Qed.

Lemma visited_tail (p0 q : Patterns.t) (frame_idx : Z) (frames : list Z)
    (i : nat) (s : stage) :
  visited p0 (frame_idx :: frames) (S i) s q <->
  exists r, _process_frame p0 frame_idx = inr r /\ visited r frames i s q.
Proof.
  unfold visited. split.
  - intros (f & p & Hf & Hp & Hq). simpl in Hf.
    unfold Analyzer.process_frames in Hp. simpl in Hp.
    destruct (_process_frame p0 frame_idx) as [e | r]; [discriminate Hp |]. simpl in Hp.
    exists r. split; [reflexivity |]. exists f, p. auto.
  - intros (r & Hr & f & p & Hf & Hp & Hq). exists f, p. split; [exact Hf |].
    split; [| exact Hq]. unfold Analyzer.process_frames in *. simpl. rewrite Hr. exact Hp.
Qed.

Lemma removed_head (p0 : Patterns.t) (frame_idx : Z) (frames : list Z) (k : nat) (idx : Z) :
  removed p0 (frame_idx :: frames) 0 k idx <->
  is_ok (load_nuclei frame_idx) = true /\ Patterns.tracked p0 !! k = Some idx /\
  is_ok (extract_nuclei frame_idx idx) = false.
Proof.
  unfold removed. split.
  - intros (f & p & Hf & Hp & Hrest). simpl in Hf. injection Hf as <-.
    unfold Analyzer.process_frames in Hp. simpl in Hp. injection Hp as <-. exact Hrest.
  - intros Hrest. exists frame_idx, p0. split; [reflexivity |]. split; [reflexivity | exact Hrest].
Qed.

Lemma removed_tail (p0 : Patterns.t) (frame_idx : Z) (frames : list Z)
    (i k : nat) (idx : Z) :
  removed p0 (frame_idx :: frames) (S i) k idx <->
  exists r, _process_frame p0 frame_idx = inr r /\ removed r frames i k idx.
Proof.
  unfold removed. split.
  - intros (f & p & Hf & Hp & Hrest). simpl in Hf.
    unfold Analyzer.process_frames in Hp. simpl in Hp.
    destruct (_process_frame p0 frame_idx) as [e | r]; [discriminate Hp |]. simpl in Hp.
    exists r. split; [reflexivity |]. exists f, p. auto.
  - intros (r & Hr & f & p & Hf & Hp & Hrest). exists f, p. split; [exact Hf |].
    split; [| exact Hrest]. unfold Analyzer.process_frames in *. simpl. rewrite Hr. exact Hp.
Qed.

Lemma frame_step (n_patterns : Z) (p r : Patterns.t) (frame_idx : Z) :
  tracking_inv n_patterns (fun _ => True) p -> _process_frame p frame_idx = inr r ->
  tracking_inv n_patterns (fun _ => True) r /\
  is_ok (load_nuclei frame_idx) = true /\
  forall k, (length (Patterns.tracked p) <= k)%nat ->
            at_stage p frame_idx (Updating k) = inr r.
Proof.
  intros Hinv Hr.
  assert (Hend : forall k, (length (Patterns.tracked p) <= k)%nat ->
                           at_stage p frame_idx (Updating k) = inr r).
  { intros k. apply at_stage_end, Hr. }
  split; [| split; [apply (at_stage_loaded _ _ _ _ (Hend _ (le_n _))) | exact Hend]].
  destruct (at_stage_ok n_patterns (fun _ => True) frame_idx (fun _ _ => I) p r
              (Updating (length (Patterns.tracked p))) Hinv (Hend _ (le_n _)))
    as [[H _] _].
  exact H.
Qed.

(** From the state in which a run starts to any stage of it. *)
Lemma visited_from_start (n_patterns idx : Z) (frames : list Z) :
  forall (p0 : Patterns.t) (i : nat) (s : stage) (q : Patterns.t),
    tracking_inv n_patterns (fun _ => True) p0 ->
    visited p0 frames i s q ->
    tracking_inv n_patterns (fun _ => True) q /\
    evolves idx p0 q /\
    (idx ∉ Patterns.tracked p0 ->
     Patterns.saved q !! idx = Patterns.saved p0 !! idx).
Proof.
  induction frames as [| f frames IH]; intros p0 i s q Hinv Hq.
  - destruct (visited_nil _ _ _ _ Hq).
  - destruct i as [| i].
    + apply visited_head in Hq.
      destruct (at_stage_ok n_patterns (fun _ => True) f (fun _ _ => I) p0 q s Hinv Hq)
        as [[Hinvq _] Hsaved].
      split; [exact Hinvq |]. split; [| apply Hsaved].
      assert (Hle : stage_le (Extracting 0) s) by (destruct s; simpl; [lia | exact I]).
      apply (within_frame n_patterns idx p0 p0 q f (Extracting 0) s Hinv Hle);
        [apply at_stage_start, (at_stage_loaded _ _ _ _ Hq) | exact Hq].
    + apply visited_tail in Hq as (r & Hr & Hq).
      destruct (frame_step n_patterns p0 r f Hinv Hr) as (Hinvr & Hload & Hend).
      destruct (IH r i s q Hinvr Hq) as (Hinvq & He & Hs).
      specialize (Hend _ (le_n _)).
      destruct (at_stage_ok n_patterns (fun _ => True) f (fun _ _ => I) p0 r _ Hinv Hend)
        as [_ Hsaved].
      destruct (within_frame n_patterns idx p0 p0 r f (Extracting 0)
                  (Updating (length (Patterns.tracked p0))) Hinv I
                  (at_stage_start p0 f Hload) Hend) as [He0 _].
      split; [exact Hinvq |]. split; [eapply evolves_trans; eassumption |].
      intros Hn. rewrite Hs, Hsaved; [reflexivity | exact Hn |].
      intros Ht. apply Hn. destruct He0 as (Hsub & _). apply Hsub, Ht.
Qed.

(** From one stage of a run to a later one. *)
Lemma visited_later (n_patterns idx : Z) (frames : list Z) :
  forall (p0 : Patterns.t) (i i' : nat) (s s' : stage) (q q' : Patterns.t),
    tracking_inv n_patterns (fun _ => True) p0 ->
    visited p0 frames i s q -> visited p0 frames i' s' q' ->
    not_after i s i' s' ->
    evolves idx q q' /\
    (idx ∈ Patterns.dropped_zero q \/ idx ∈ Patterns.dropped_many q ->
     Patterns.saved q' !! idx = Patterns.saved q !! idx) /\
    (s = Extracting 0 -> idx ∉ Patterns.tracked q ->
     Patterns.saved q' !! idx = Patterns.saved q !! idx).
Proof.
  induction frames as [| f frames IH]; intros p0 i i' s s' q q' Hinv Hq Hq' Hna.
  - destruct (visited_nil _ _ _ _ Hq).
  - destruct i as [| i], i' as [| i'].
    + apply visited_head in Hq, Hq'. destruct Hna as [Hlt | [_ Hle]]; [lia |].
      destruct (within_frame n_patterns idx p0 q q' f s s' Hinv Hle Hq Hq') as [He Hd].
      split; [exact He |]. split; [exact Hd |].
      intros -> Hn.
      rewrite (at_stage_start p0 f (at_stage_loaded _ _ _ _ Hq')) in Hq. injection Hq as <-.
      destruct (at_stage_ok n_patterns (fun _ => True) f (fun _ _ => I) p0 q' s' Hinv Hq')
        as [_ Hsaved].
      apply Hsaved, Hn.
    + apply visited_head in Hq. apply visited_tail in Hq' as (r & Hr & Hq').
      destruct (frame_step n_patterns p0 r f Hinv Hr) as (Hinvr & Hload & Hend).
      set (kend := match s with
                   | Extracting _ => length (Patterns.tracked p0)
                   | Updating k => Nat.max k (length (Patterns.tracked p0))
                   end).
      assert (Hqr : at_stage p0 f (Updating kend) = inr r).
      { apply Hend. unfold kend. destruct s; lia. }
      assert (Hle : stage_le s (Updating kend)).
      { unfold kend. destruct s; simpl; [exact I | lia]. }
      destruct (within_frame n_patterns idx p0 q r f s (Updating kend) Hinv Hle Hq Hqr)
        as [He Hd].
      destruct (visited_from_start n_patterns idx frames r i' s' q' Hinvr Hq')
        as (_ & He' & Hs').
      split; [eapply evolves_trans; eassumption |].
      split.
      * intros Hdrop. rewrite Hs', (Hd Hdrop); [reflexivity |].
        intros Ht. destruct (inv_tracked _ _ _ Hinvr idx Ht) as [Hnz Hnm].
        destruct He as (_ & E2 & E3 & _). tauto.
      * intros -> Hn.
        rewrite (at_stage_start p0 f Hload) in Hq. injection Hq as <-.
        destruct (at_stage_ok n_patterns (fun _ => True) f (fun _ _ => I) p0 r _ Hinv Hqr)
          as [_ Hsaved].
        rewrite Hs', Hsaved; [reflexivity | exact Hn |].
        intros Ht. apply Hn. destruct He as (Hsub & _). apply Hsub, Ht.
    + destruct Hna as [Hlt | [Heq _]]; [lia | discriminate Heq].
    + apply visited_tail in Hq as (r & Hr & Hq).
      apply visited_tail in Hq' as (r' & Hr' & Hq').
      rewrite Hr in Hr'. injection Hr' as <-.
      destruct (frame_step n_patterns p0 r f Hinv Hr) as (Hinvr & _).
      apply (IH r i i' s s' q q' Hinvr Hq Hq').
      destruct Hna as [Hlt | [Heq Hle]]; [left; lia | right; split; [lia | exact Hle]].
Qed.

(** A pattern in one of the lists when the run starts is in one of them
    at a stage unless an earlier iteration of an extraction loop removed
    it. *)
Lemma visited_cover (n_patterns idx : Z) (frames : list Z) :
  forall (p0 : Patterns.t) (i : nat) (s : stage) (q : Patterns.t),
    tracking_inv n_patterns (fun _ => True) p0 -> covered p0 idx ->
    visited p0 frames i s q ->
    covered q idx \/
    exists j k, removed p0 frames j k idx /\ not_after j (Extracting (S k)) i s.
Proof.
  induction frames as [| f frames IH]; intros p0 i s q Hinv Hc Hq.
  - destruct (visited_nil _ _ _ _ Hq).
  - destruct i as [| i].
    + apply visited_head in Hq.
      destruct (within_frame_cover idx p0 q f s Hc Hq) as [? | (k & Hk & Hfail & Hle)];
        [auto |].
      right. exists 0%nat, k. split; [| right; auto].
      apply removed_head. split; [apply (at_stage_loaded _ _ _ _ Hq) | auto].
    + apply visited_tail in Hq as (r & Hr & Hq).
      destruct (frame_step n_patterns p0 r f Hinv Hr) as (Hinvr & Hload & Hend).
      destruct (within_frame_cover idx p0 r f _ Hc (Hend _ (le_n _)))
        as [Hcr | (k & Hk & Hfail & _)].
      * destruct (IH r i s q Hinvr Hcr Hq) as [? | (j & k & Hrem & Hna)]; [auto |].
        right. exists (S j), k. split.
        -- apply removed_tail. exists r. auto.
        -- destruct Hna as [Hlt | [Heq Hle]]; [left; lia | right; split; [lia | exact Hle]].
      * right. exists 0%nat, k. split; [| left; lia].
        apply removed_head. auto.
Qed.

(** A pattern removed by an iteration of an extraction loop is in none of
    the lists at every later stage. *)
Lemma visited_removed (n_patterns idx : Z) (frames : list Z) :
  forall (p0 : Patterns.t) (i : nat) (s : stage) (q : Patterns.t) (j k : nat),
    tracking_inv n_patterns (fun _ => True) p0 ->
    removed p0 frames j k idx -> not_after j (Extracting (S k)) i s ->
    visited p0 frames i s q ->
    ~ covered q idx.
Proof.
  induction frames as [| f frames IH]; intros p0 i s q j k Hinv Hrem Hna Hq.
  - destruct (visited_nil _ _ _ _ Hq).
  - destruct j as [| j].
    + apply removed_head in Hrem as (Hload & Hk & Hfail).
      destruct i as [| i].
      * apply visited_head in Hq. destruct Hna as [Hlt | [_ Hle]]; [lia |].
        apply (within_frame_removed n_patterns idx p0 q f s k Hinv Hk Hfail Hle Hq).
      * apply visited_tail in Hq as (r & Hr & Hq).
        destruct (frame_step n_patterns p0 r f Hinv Hr) as (Hinvr & _ & Hend).
        pose proof (within_frame_removed n_patterns idx p0 r f
                      (Updating (length (Patterns.tracked p0))) k Hinv Hk Hfail I
                      (Hend _ (le_n _))) as Hr0.
        destruct (visited_from_start n_patterns idx frames r i s q Hinvr Hq) as (_ & He & _).
        apply (evolves_uncovered _ _ _ He Hr0).
    + apply removed_tail in Hrem as (r & Hr & Hrem).
      destruct i as [| i].
      * destruct Hna as [Hlt | [Heq _]]; [lia | discriminate Heq].
      * apply visited_tail in Hq as (r' & Hr' & Hq).
        rewrite Hr in Hr'. injection Hr' as <-.
        destruct (frame_step n_patterns p0 r f Hinv Hr) as (Hinvr & _).
        apply (IH r i s q j k Hinvr Hrem); [| exact Hq].
        destruct Hna as [Hlt | [Heq Hle]]; [left; lia | right; split; [lia | exact Hle]].
Qed.

Lemma init_inv_any (n_patterns : Z) :
  tracking_inv n_patterns (fun _ => True) (Patterns.init n_patterns).
Proof. eapply tracking_inv_weaken; [| apply init_inv]. auto. Qed.

(** C2 (as amended). While the frames of a view are processed, at every
    stage of the run, that is after every iteration of an extraction loop
    and after every iteration of an update loop: a pattern index lies in at
    most one of [tracked], [dropped_zero], [dropped_many]; an index of the
    view lies in exactly one of them unless an earlier iteration of an
    extraction loop was for it and found its region extraction raising, and
    from that iteration on it lies in none of them, the iteration taking it
    out of [tracked] and into neither dropped list.  From a stage to any
    later stage no index enters [tracked]; an index in [dropped_zero] or
    [dropped_many] stays there and its saved list stays the same; an index
    in none of the lists stays in none; a saved list only grows at its end;
    and an index that is not tracked when a frame starts has the same saved
    list at every later stage.  The state with which [_process_frame]
    returns is the one at the last stage of its frame, and the frame loop
    returns whenever every frame loads. *)
Theorem C2_tracking_partition
    (n_patterns : Z) (frames : list Z) (i i' : nat) (s s' : stage)
    (q q' : Patterns.t) (idx : Z) :
  visited (Patterns.init n_patterns) frames i s q ->
  visited (Patterns.init n_patterns) frames i' s' q' ->
  not_after i s i' s' ->
  (membership q idx <= 1)%nat /\
  (0 <= idx < n_patterns ->
   membership q idx = 1%nat \/
   exists j k, removed (Patterns.init n_patterns) frames j k idx /\
               not_after j (Extracting (S k)) i s) /\
  (forall j k, removed (Patterns.init n_patterns) frames j k idx ->
               not_after j (Extracting (S k)) i s ->
               membership q idx = 0%nat) /\
  (idx ∈ Patterns.tracked q' -> idx ∈ Patterns.tracked q) /\
  (idx ∈ Patterns.dropped_zero q ->
   idx ∈ Patterns.dropped_zero q' /\
   Patterns.saved q' !! idx = Patterns.saved q !! idx) /\
  (idx ∈ Patterns.dropped_many q ->
   idx ∈ Patterns.dropped_many q' /\
   Patterns.saved q' !! idx = Patterns.saved q !! idx) /\
  (membership q idx = 0%nat -> membership q' idx = 0%nat) /\
  (forall l, Patterns.saved q !! idx = Some l ->
             exists l', Patterns.saved q' !! idx = Some (l ++ l')) /\
  (s = Extracting 0 -> idx ∉ Patterns.tracked q ->
   Patterns.saved q' !! idx = Patterns.saved q !! idx) /\
  (forall frame_idx p r,
      frames !! i = Some frame_idx ->
      process_frames (take i frames) (Patterns.init n_patterns) = inr p ->
      _process_frame p frame_idx = inr r ->
      visited (Patterns.init n_patterns) frames i
        (Updating (length (Patterns.tracked p))) r) /\
  (forall frames',
      (forall g, g ∈ frames' -> is_ok (load_nuclei g) = true) ->
      exists r', process_frames frames' (Patterns.init n_patterns) = inr r').
Proof.
  intros Hq Hq' Hna.
  pose proof (init_inv_any n_patterns) as Hinit.
  destruct (visited_from_start n_patterns idx frames _ i s q Hinit Hq) as (Hinvq & _ & _).
  destruct (visited_later n_patterns idx frames _ i i' s s' q q' Hinit Hq Hq' Hna)
    as ((E1 & E2 & E3 & E4 & E5 & E6) & Hdropped & Hstart).
  destruct (membership_inv n_patterns _ q idx Hinvq) as [Hle _].
  split_and!.
  - exact Hle.
  - intros Hidx.
    assert (Hc : covered (Patterns.init n_patterns) idx).
    { left. simpl. unfold Py.range. apply elem_of_range2. lia. }
    destruct (visited_cover n_patterns idx frames _ i s q Hinit Hc Hq) as [Hcq | Hrem];
      [| right; exact Hrem].
    left. destruct (Nat.eq_dec (membership q idx) 0%nat) as [H0 | H0]; [| lia].
    apply membership_covered in H0. contradiction.
  - intros j k Hrem Hafter. apply membership_covered.
    apply (visited_removed n_patterns idx frames _ i s q j k Hinit Hrem Hafter Hq).
  - exact E1.
  - intros H. split; [apply E2, H | apply Hdropped; auto].
  - intros H. split; [apply E3, H | apply Hdropped; auto].
  - rewrite !membership_covered. apply evolves_uncovered.
    unfold evolves. split_and!; assumption.
  - exact E6.
  - exact Hstart.
  - intros frame_idx p r Hf Hp Hr. exists frame_idx, p.
    split; [exact Hf |]. split; [exact Hp |]. apply at_stage_end; [exact Hr | lia].
  - intros frames' Hload.
    apply (process_frames_returns n_patterns (fun _ => True) frames');
      [auto | exact Hinit | exact Hload].
Qed.

End Tracking.

Lemma C2_tracking_partition_witness :
  membership (Patterns.mk [1] [] [] {[0 := []; 1 := []]}) 0 = 0%nat /\
  membership (Patterns.mk [1] [] [] {[0 := [0]; 1 := [1]]}) 0 = 0%nat /\
  (exists l', ({[0 := [0]; 1 := [1]]} : gmap Z (list Z)) !! 0 = Some ([] ++ l')).
Proof.
  assert (Hq : visited FailedExtraction.load FailedExtraction.extract
                 FailedExtraction.count 3 (Patterns.init 2) [0; 1] 0 (Extracting 1)
                 (Patterns.mk [1] [] [] {[0 := []; 1 := []]})).
  { exists 0, (Patterns.init 2). split; [reflexivity |]. split; vm_compute; reflexivity. }
  assert (Hq' : visited FailedExtraction.load FailedExtraction.extract
                  FailedExtraction.count 3 (Patterns.init 2) [0; 1] 1 (Updating 1)
                  (Patterns.mk [1] [] [] {[0 := [0]; 1 := [1]]})).
  { exists 1, (Patterns.mk [1] [] [] {[0 := [0]; 1 := []]}).
    split; [reflexivity |]. split; vm_compute; reflexivity. }
  assert (Hrem : removed FailedExtraction.load FailedExtraction.extract
                   FailedExtraction.count 3 (Patterns.init 2) [0; 1] 0 0 0).
  { exists 0, (Patterns.init 2). split; [reflexivity |].
    split; [vm_compute; reflexivity |]. auto. }
  destruct (C2_tracking_partition FailedExtraction.load FailedExtraction.extract
              FailedExtraction.count 3 2 [0; 1] 0 1 (Extracting 1) (Updating 1)
              (Patterns.mk [1] [] [] {[0 := []; 1 := []]})
              (Patterns.mk [1] [] [] {[0 := [0]; 1 := [1]]}) 0 Hq Hq'
              (or_introl (Nat.lt_0_1)))
    as (_ & _ & Hzero & _ & _ & _ & Hstay & Hgrow & _).
  assert (H0 : membership (Patterns.mk [1] [] [] {[0 := []; 1 := []]}) 0 = 0%nat).
  { apply (Hzero 0%nat 0%nat Hrem). right. split; [reflexivity | simpl; lia]. }
  split; [exact H0 |]. split; [apply Hstay, H0 |].
  apply (Hgrow []). vm_compute. reflexivity.
Defined.

(** C2, the claim as stated fails when a region extraction raises: with a
    single pattern whose extraction fails in frame 0, the pattern leaves
    [tracked] and enters neither [dropped_zero] nor [dropped_many], so it
    lies in none of the three lists. *)
Lemma C2_failed_extraction_leaves_all_sets :
  FailedExtraction.single = inr (Patterns.mk [] [] [] {[0 := []]}) /\
  on_ok (fun p => membership p 0) FailedExtraction.single = inr 0%nat.
Proof. split; vm_compute; reflexivity. Qed.

(** * Further properties *)

(** * Further properties of the orchestrator *)

(** What one call of a [Patterns] method leaves alone. *)
Lemma tracked_remove_facts (idx : Z) (p q : Patterns.t) :
  Patterns.tracked_remove idx p = inr q ->
  Patterns.tracked q `sublist_of` Patterns.tracked p /\
  Patterns.dropped_zero q = Patterns.dropped_zero p /\
  Patterns.dropped_many q = Patterns.dropped_many p /\
  Patterns.saved q = Patterns.saved p.
Proof.
  unfold Patterns.tracked_remove.
  destruct (Py.remove idx (Patterns.tracked p)) as [e | tr] eqn:Hrm; simpl; [discriminate |].
  intros H. injection H as <-. simpl. split; [apply (remove_sublist _ _ _ Hrm) | auto].
Qed.

Lemma drop_facts (idx : Z) (p q : Patterns.t) :
  Patterns.drop_zero idx p = inr q \/ Patterns.drop_many idx p = inr q ->
  Patterns.tracked q `sublist_of` Patterns.tracked p /\
  Patterns.saved q = Patterns.saved p.
Proof.
  unfold Patterns.drop_zero, Patterns.drop_many.
  destruct (Py.mem idx (Patterns.tracked p)).
  - destruct (Py.remove idx (Patterns.tracked p)) as [e | tr] eqn:Hrm; simpl.
    + intros [H | H]; discriminate H.
    + intros [H | H]; injection H as <-; simpl;
        (split; [apply (remove_sublist _ _ _ Hrm) | reflexivity]).
  - intros [H | H]; injection H as <-; (split; reflexivity).
Qed.

Section TrackingOrder.
Context {region : Type}.
Variable load_nuclei : Z -> result unit.
Variable extract_nuclei : Z -> Z -> result region.
Variable count_nuclei : Z -> list region -> result (list Z).
Variable wanted : Z.

Local Abbreviation collect_nuclei := (Analyzer.collect_nuclei extract_nuclei).
Local Abbreviation update_tracking := (Analyzer.update_tracking wanted).
Local Abbreviation _process_frame :=
  (Analyzer._process_frame load_nuclei extract_nuclei count_nuclei wanted).
Local Abbreviation process_frames :=
  (Analyzer.process_frames load_nuclei extract_nuclei count_nuclei wanted).

Lemma update_tracking_facts (frame_idx : Z) (p q : Patterns.t) (obs : Z * Z) :
  update_tracking frame_idx p obs = inr q ->
  Patterns.tracked q `sublist_of` Patterns.tracked p /\
  appended obs.1 frame_idx (Patterns.saved p) (Patterns.saved q).
Proof.
  destruct obs as [idx n_count]. unfold Analyzer.update_tracking, appended. simpl.
  destruct (n_count =? wanted).
  { unfold Patterns.save_frame.
    destruct (Patterns.saved p !! idx) as [frames |] eqn:Hsaved; [| discriminate].
    intros H. injection H as <-. simpl. split; [reflexivity |]. right. eauto. }
  destruct (n_count >? wanted).
  { intros H. destruct (drop_facts idx p q (or_intror H)) as [Hsub ->]. auto. }
  destruct (n_count =? 0).
  { intros H. destruct (drop_facts idx p q (or_introl H)) as [Hsub ->]. auto. }
  intros H. injection H as <-. split; [reflexivity | auto].
Qed.

Lemma collect_nuclei_facts (frame_idx : Z) (indices : list Z)
    (nuclei_list nuclei_list' : list region) (p q : Patterns.t) :
  collect_nuclei frame_idx indices nuclei_list p = inr (nuclei_list', q) ->
  Patterns.tracked q `sublist_of` Patterns.tracked p /\
  Patterns.dropped_zero q = Patterns.dropped_zero p /\
  Patterns.dropped_many q = Patterns.dropped_many p /\
  Patterns.saved q = Patterns.saved p.
Proof.
  revert nuclei_list p. induction indices as [| idx rest IH]; intros nuclei_list p; simpl.
  - intros H. injection H as _ <-. split; [reflexivity | auto].
  - destruct (extract_nuclei frame_idx idx) as [e | nuclei]; [| apply IH].
    destruct (Patterns.tracked_remove idx p) as [e' | p1] eqn:Hrm; simpl; [discriminate |].
    intros Hrest.
    destruct (tracked_remove_facts _ _ _ Hrm) as (Hs1 & Hz1 & Hm1 & Hv1).
    destruct (IH _ _ Hrest) as (Hs & Hz & Hm & Hv).
    split; [etrans; eassumption |]. split; [congruence |]. split; congruence.
Qed.

Lemma update_loop_facts (frame_idx : Z) (observations : list (Z * Z)) (p q : Patterns.t) :
  for_each (update_tracking frame_idx) observations p = inr q ->
  Patterns.tracked q `sublist_of` Patterns.tracked p /\
  (forall j, j ∉ map fst observations ->
             Patterns.saved q !! j = Patterns.saved p !! j) /\
  (NoDup (map fst observations) ->
   forall j, Patterns.saved q !! j = Patterns.saved p !! j \/
             exists frames, Patterns.saved p !! j = Some frames /\
                            Patterns.saved q !! j = Some (frames ++ [frame_idx])).
Proof.
  revert p. induction observations as [| obs rest IH]; intros p; simpl.
  - intros H. injection H as <-. split; [reflexivity |]. split; auto.
  - destruct (update_tracking frame_idx p obs) as [e | p1] eqn:Hstep; simpl; [discriminate |].
    intros Hrest.
    destruct (update_tracking_facts _ _ _ _ Hstep) as [Hsub1 Happ].
    destruct (IH _ Hrest) as (Hsub & Hother & Honce).
    assert (Hne : forall j, j <> obs.1 -> Patterns.saved p1 !! j = Patterns.saved p !! j).
    { intros j Hj. destruct Happ as [-> | (frames & _ & ->)]; [reflexivity |].
      apply lookup_insert_ne. congruence. }
    split; [etrans; eassumption |]. split.
    + intros j Hj. rewrite Hother, Hne; [reflexivity | |].
      * intros ->. apply Hj. left.
      * intros Hin. apply Hj. right. exact Hin.
    + intros Hnd j. apply NoDup_cons in Hnd as [Hfresh Hnd].
      destruct (decide (j = obs.1)) as [-> | Hj].
      * rewrite (Hother _ Hfresh).
        destruct Happ as [-> | (frames & Hfr & ->)]; [auto |].
        right. exists frames. split; [exact Hfr | apply lookup_insert_eq].
      * rewrite <- (Hne j Hj). apply (Honce Hnd).
Qed.

Lemma process_frame_facts (p q : Patterns.t) (frame_idx : Z) :
  _process_frame p frame_idx = inr q ->
  is_ok (load_nuclei frame_idx) = true /\
  Patterns.tracked q `sublist_of` Patterns.tracked p /\
  (NoDup (Patterns.tracked p) ->
   forall j, Patterns.saved q !! j = Patterns.saved p !! j \/
             exists frames, Patterns.saved p !! j = Some frames /\
                            Patterns.saved q !! j = Some (frames ++ [frame_idx])).
Proof.
  unfold Analyzer._process_frame.
  destruct (load_nuclei frame_idx) as [e | u]; [discriminate |]. simpl.
  destruct (collect_nuclei frame_idx (Patterns.get_tracked_indices p) [] p)
    as [e | [nuclei_list p1]] eqn:Hcollect; simpl; [discriminate |].
  destruct (collect_nuclei_facts _ _ _ _ _ _ Hcollect) as (Hsub1 & _ & _ & Hsaved1).
  assert (Hskip : forall r, r = p1 ->
            Patterns.tracked r `sublist_of` Patterns.tracked p /\
            (NoDup (Patterns.tracked p) ->
             forall j, Patterns.saved r !! j = Patterns.saved p !! j \/
                       exists frames, Patterns.saved p !! j = Some frames /\
                         Patterns.saved r !! j = Some (frames ++ [frame_idx]))).
  { intros r ->. split; [exact Hsub1 |]. intros _ j. left. rewrite Hsaved1. reflexivity. }
  destruct nuclei_list as [| nuclei rest].
  { intros H. injection H as <-. split; [reflexivity | apply Hskip; reflexivity]. }
  destruct (count_nuclei frame_idx (nuclei :: rest)) as [e | counts].
  { intros H. injection H as <-. split; [reflexivity | apply Hskip; reflexivity]. }
  intros Hloop. split; [reflexivity |].
  destruct (reraise_as ProcessingFailed _) as [e | q'] eqn:Hre in Hloop; [discriminate |].
  injection Hloop as ->.
  assert (Hfor : for_each (update_tracking frame_idx)
                   (Py.zip (Patterns.get_tracked_indices p) counts) p1 = inr q).
  { destruct (for_each _ _ p1); [discriminate Hre | exact Hre]. }
  destruct (update_loop_facts _ _ _ _ Hfor) as (Hsub & _ & Honce).
  split; [etrans; eassumption |].
  intros Hnd j. rewrite <- Hsaved1. apply Honce.
  apply (sublist_NoDup _ _ Hnd), zip_fst_sublist.
Qed.

(** X1 and X2, on any list of frames and any starting state. *)
Lemma process_frames_facts (frames done : list Z) (p r : Patterns.t) :
  process_frames frames p = inr r ->
  (forall g, g ∈ frames -> is_ok (load_nuclei g) = true) /\
  Patterns.tracked r `sublist_of` Patterns.tracked p /\
  (NoDup (Patterns.tracked p) ->
   (forall j l, Patterns.saved p !! j = Some l -> l `sublist_of` done) ->
   forall j l, Patterns.saved r !! j = Some l -> l `sublist_of` done ++ frames) /\
  (NoDup (Patterns.tracked p) ->
   forall j, is_Some (Patterns.saved r !! j) <-> is_Some (Patterns.saved p !! j)).
Proof.
  revert done p. induction frames as [| f frames IH]; intros done p Hrun.
  - injection Hrun as <-. split; [intros g Hg; inversion Hg |].
    split; [reflexivity |]. split; [| tauto].
    intros _ Hp j l Hl. rewrite app_nil_r. eauto.
  - unfold Analyzer.process_frames in Hrun. simpl in Hrun.
    destruct (_process_frame p f) as [e | p1] eqn:Hframe; [discriminate Hrun |].
    simpl in Hrun.
    destruct (process_frame_facts _ _ _ Hframe) as (Hload & Hsub1 & Honce).
    destruct (IH (done ++ [f]) p1 Hrun) as (Hloads & Hsub & Hsaved & Hkeys).
    split.
    { intros g Hg. apply elem_of_cons in Hg as [-> | Hg]; [exact Hload | apply Hloads, Hg]. }
    split; [etrans; eassumption |].
    assert (Hnd1 : NoDup (Patterns.tracked p) -> NoDup (Patterns.tracked p1)).
    { intros Hnd. apply (sublist_NoDup _ _ Hnd Hsub1). }
    split.
    + intros Hnd Hp j l Hl. rewrite (app_assoc done [f] frames : done ++ f :: frames = _).
      apply (Hsaved (Hnd1 Hnd)) with (j := j); [| exact Hl].
      intros j' l' Hl'. destruct (Honce Hnd j') as [Hsame | (fr & Hfr & Hq)].
      * rewrite Hsame in Hl'. apply sublist_inserts_r, (Hp _ _ Hl').
      * rewrite Hq in Hl'. injection Hl' as <-. apply sublist_snoc, (Hp _ _ Hfr).
    + intros Hnd j. rewrite (Hkeys (Hnd1 Hnd) j).
      destruct (Honce Hnd j) as [-> | (fr & -> & ->)]; [reflexivity |].
      split; eauto.
Qed.

Lemma range2_sorted (a b : Z) : StronglySorted Z.lt (Py.range2 a b).
Proof.
  unfold Py.range2. generalize (Z.to_nat (b - a)) as len. generalize 0%nat as s.
  intros s len. revert s. induction len as [| len IH]; intros s; simpl; constructor.
  - apply IH.
  - apply Forall_forall. intros y Hy. apply list_elem_of_In, in_map_iff in Hy.
    destruct Hy as (k & <- & Hk). apply in_seq in Hk. lia.
Qed.

Lemma sublist_sorted (l1 l2 : list Z) :
  l1 `sublist_of` l2 -> StronglySorted Z.lt l2 -> StronglySorted Z.lt l1.
Proof.
  induction 1 as [| y l1 l2 Hsub IH | y l1 l2 Hsub IH]; intros Hs.
  - constructor.
  - apply StronglySorted_inv in Hs as [Hs Hall]. constructor; [apply IH, Hs |].
    apply Forall_forall. intros x Hx. rewrite Forall_forall in Hall.
    apply Hall, (sublist_elem _ _ _ Hsub Hx).
  - apply StronglySorted_inv in Hs as [Hs _]. apply IH, Hs.
Qed.

Lemma StronglySorted_lt_NoDup (l : list Z) : StronglySorted Z.lt l -> NoDup l.
Proof.
  induction 1 as [| x l _ IH Hall]; constructor; [| exact IH].
  intros Hx. rewrite Forall_forall in Hall. specialize (Hall x Hx). lia.
Qed.

Lemma range_NoDup (n : Z) : NoDup (Py.range n).
Proof.
  unfold Py.range, Py.range2. apply NoDup_fmap_2; [| apply NoDup_seq].
  intros a b Hab. lia.
Qed.

Lemma init_saved_lookup (n_patterns j : Z) (l : list Z) :
  Patterns.saved (Patterns.init n_patterns) !! j = Some l ->
  l = [] /\ 0 <= j < n_patterns.
Proof.
  simpl. intros H. apply elem_of_list_to_map_2 in H.
  apply list_elem_of_In, in_map_iff in H. destruct H as (i & Heq & Hi).
  injection Heq as -> <-. split; [reflexivity |].
  apply list_elem_of_In in Hi. unfold Py.range in Hi. apply elem_of_range2 in Hi. lia.
Qed.

(** The saved lists after the frames [range(n_frames)] of a view. *)
Lemma saved_lists_of_view (n_patterns n_frames : Z) (r : Patterns.t)
    (idx : Z) (frames : list Z) :
  process_frames (Py.range n_frames) (Patterns.init n_patterns) = inr r ->
  Patterns.saved r !! idx = Some frames ->
  frames `sublist_of` Py.range n_frames /\ 0 <= idx < n_patterns.
Proof.
  intros Hframes Hsaved.
  destruct (process_frames_facts _ [] _ _ Hframes) as (_ & _ & Hsub & Hkeys).
  split.
  - apply (Hsub (range_NoDup n_patterns)) with (j := idx); [| exact Hsaved].
    intros j l Hl. apply init_saved_lookup in Hl as [-> _]. reflexivity.
  - destruct (proj1 (Hkeys (range_NoDup n_patterns) idx)) as [l Hl];
      [exists frames; exact Hsaved |].
    apply init_saved_lookup in Hl. tauto.
Qed.

Lemma reachable_tracked_NoDup (n_patterns : Z) (frames : list Z) (r : Patterns.t) :
  process_frames frames (Patterns.init n_patterns) = inr r ->
  NoDup (Patterns.tracked r).
Proof.
  intros Hrun. destruct (process_frames_facts _ [] _ _ Hrun) as (_ & Hsub & _).
  simpl in Hsub. apply (sublist_NoDup _ _ (range_NoDup n_patterns) Hsub).
Qed.

(** X1. The tracked list is always a sublist of [range(n_patterns)]: the
    orchestrator visits the tracked patterns in ascending index order,
    without repetition, whatever was dropped before. *)
Theorem X1_tracked_keeps_detection_order
    (n_patterns : Z) (frames : list Z) (r : Patterns.t) :
  process_frames frames (Patterns.init n_patterns) = inr r ->
  Patterns.tracked r `sublist_of` Py.range n_patterns /\
  StronglySorted Z.lt (Patterns.tracked r) /\
  NoDup (Patterns.tracked r).
Proof.
  intros Hrun. destruct (process_frames_facts _ [] _ _ Hrun) as (_ & Hsub & _).
  simpl in Hsub. split; [exact Hsub |].
  split; [apply (sublist_sorted _ _ Hsub), range2_sorted |].
  apply (sublist_NoDup _ _ (range_NoDup n_patterns) Hsub).
Qed.

(** X3. The transition rule on a tracked pattern, for a positive wanted
    count: the wanted count appends the frame to the saved list and
    nothing else; a zero count moves the pattern to [dropped_zero]; a
    larger count moves it to [dropped_many]; any other count (between,
    or negative) changes nothing. *)
Theorem X3_transition_rule
    (p : Patterns.t) (idx frame_idx n_count : Z) (frames : list Z) :
  NoDup (Patterns.tracked p) -> idx ∈ Patterns.tracked p ->
  Patterns.saved p !! idx = Some frames -> 0 < wanted ->
  exists q,
    update_tracking frame_idx p (idx, n_count) = inr q /\
    (n_count = wanted ->
     q = Patterns.mk (Patterns.tracked p) (Patterns.dropped_zero p)
           (Patterns.dropped_many p)
           (<[idx := frames ++ [frame_idx]]> (Patterns.saved p))) /\
    (n_count = 0 \/ wanted < n_count ->
     (forall y, y ∈ Patterns.tracked q <-> (y ∈ Patterns.tracked p /\ y <> idx)) /\
     Patterns.tracked q `sublist_of` Patterns.tracked p /\
     Patterns.saved q = Patterns.saved p /\
     Patterns.dropped_zero q
       = (if n_count =? 0 then Patterns.dropped_zero p ++ [idx]
          else Patterns.dropped_zero p) /\
     Patterns.dropped_many q
       = (if n_count =? 0 then Patterns.dropped_many p
          else Patterns.dropped_many p ++ [idx])) /\
    (n_count < 0 \/ 0 < n_count < wanted -> q = p).
Proof.
  intros Hnd Hin Hsaved Hwanted. unfold Analyzer.update_tracking.
  destruct (remove_present load_nuclei extract_nuclei count_nuclei wanted idx _ Hin Hnd)
    as (tr & Hrm & _ & Htr).
  pose proof (remove_sublist _ _ _ Hrm) as Hsub.
  destruct (Z.eqb_spec n_count wanted) as [-> | Hne].
  { unfold Patterns.save_frame. rewrite Hsaved. eexists. split; [reflexivity |].
    split; [reflexivity |]. split; intros; lia. }
  destruct (Z.gtb_spec n_count wanted) as [Hgt | Hle].
  { unfold Patterns.drop_many, Py.mem. rewrite bool_decide_eq_true_2 by exact Hin.
    rewrite Hrm. eexists. split; [reflexivity |]. simpl.
    split; [intros; lia |]. split; [| intros; lia].
    intros _. destruct (Z.eqb_spec n_count 0) as [? | _]; [lia | auto]. }
  destruct (Z.eqb_spec n_count 0) as [-> | Hnz].
  { unfold Patterns.drop_zero, Py.mem. rewrite bool_decide_eq_true_2 by exact Hin.
    rewrite Hrm. eexists. split; [reflexivity |]. simpl.
    split; [intros; lia |]. split; [auto | intros; lia]. }
  exists p. split; [reflexivity |]. split; [intros; lia |]. split; [intros; lia | auto].
Qed.

Lemma collect_nuclei_tracked (frame_idx : Z) (indices : list Z)
    (nuclei_list : list region) (p : Patterns.t) :
  NoDup indices -> NoDup (Patterns.tracked p) ->
  (forall i, i ∈ indices -> i ∈ Patterns.tracked p) ->
  exists nuclei_list' q,
    collect_nuclei frame_idx indices nuclei_list p = inr (nuclei_list', q) /\
    NoDup (Patterns.tracked q) /\
    (forall y, y ∈ Patterns.tracked q <->
               (y ∈ Patterns.tracked p /\
                ~ (y ∈ indices /\ is_ok (extract_nuclei frame_idx y) = false))) /\
    ((forall i, i ∈ indices -> is_ok (extract_nuclei frame_idx i) = false) ->
     nuclei_list' = nuclei_list).
Proof.
  revert nuclei_list p.
  induction indices as [| idx rest IH]; intros nuclei_list p Hnd Hndp Hsub; simpl.
  - exists nuclei_list, p. split; [reflexivity |]. split; [exact Hndp |].
    split; [| auto]. intros y. split; [| tauto].
    intros Hy. split; [exact Hy |]. intros [Hin _]. inversion Hin.
  - apply NoDup_cons in Hnd as [Hfresh Hnd].
    destruct (extract_nuclei frame_idx idx) as [e | nuclei] eqn:Hext.
    + destruct (remove_present load_nuclei extract_nuclei count_nuclei wanted idx
                  (Patterns.tracked p)) as (tr & Hrm & Hndtr & Htr);
        [apply Hsub; left | exact Hndp |].
      unfold Patterns.tracked_remove. rewrite Hrm. simpl.
      destruct (IH nuclei_list
                  (Patterns.mk tr (Patterns.dropped_zero p) (Patterns.dropped_many p)
                     (Patterns.saved p)) Hnd Hndtr)
        as (nl & q & Hrun & Hndq & Hq & Hnone).
      { intros i Hi. simpl. apply Htr. split; [apply Hsub; right; exact Hi |].
        intros ->. contradiction. }
      exists nl, q. split; [exact Hrun |]. split; [exact Hndq |]. split.
      * intros y. rewrite Hq. simpl. rewrite Htr, elem_of_cons. split.
        -- intros [[Hy Hne] Hno]. split; [exact Hy |].
           intros [[-> | Hin] Hfail]; [congruence | tauto].
        -- intros [Hy Hno]. split; [split; [exact Hy |] |].
           ++ intros ->. apply Hno. split; [left; reflexivity |]. rewrite Hext. reflexivity.
           ++ intros [Hin Hfail]. apply Hno. tauto.
      * intros Hall. apply Hnone. intros i Hi. apply Hall. right. exact Hi.
    + destruct (IH (nuclei_list ++ [nuclei]) p Hnd Hndp)
        as (nl & q & Hrun & Hndq & Hq & _).
      { intros i Hi. apply Hsub. right. exact Hi. }
      exists nl, q. split; [exact Hrun |]. split; [exact Hndq |]. split.
      * intros y. rewrite Hq, elem_of_cons. split.
        -- intros [Hy Hno]. split; [exact Hy |].
           intros [[-> | Hin] Hfail]; [rewrite Hext in Hfail; discriminate | tauto].
        -- intros [Hy Hno]. split; [exact Hy |]. intros [Hin Hfail]. apply Hno. tauto.
      * intros Hall. specialize (Hall idx ltac:(left)).
        rewrite Hext in Hall. discriminate Hall.
Qed.

Lemma collect_nuclei_batch (frame_idx : Z) (indices : list Z)
    (nuclei_list nuclei_list' : list region) (p q : Patterns.t) :
  collect_nuclei frame_idx indices nuclei_list p = inr (nuclei_list', q) ->
  nuclei_list' = nuclei_list ++ extracted extract_nuclei frame_idx indices.
Proof.
  revert nuclei_list p. induction indices as [| idx rest IH]; intros nuclei_list p.
  - cbn. intros H. injection H as <- _. rewrite app_nil_r. reflexivity.
  - cbn [Analyzer.collect_nuclei extracted flat_map].
    destruct (extract_nuclei frame_idx idx) as [e | nuclei].
    + destruct (Patterns.tracked_remove idx p) as [e' | p1]; [discriminate |].
      cbn [bind app]. apply IH.
    + intros Hrun. apply IH in Hrun. rewrite Hrun, <- app_assoc. reflexivity.
Qed.

(** X4. A frame is skipped when no region could be extracted or when the
    count of the batch of this frame raises: nothing is saved and nothing
    is moved to a dropped list; the only change is that the patterns
    whose extraction raised leave [tracked]. *)
Theorem X4_frame_skipped_without_counts
    (n_patterns : Z) (done : list Z) (p : Patterns.t) (frame_idx : Z) :
  process_frames done (Patterns.init n_patterns) = inr p ->
  is_ok (load_nuclei frame_idx) = true ->
  extracted extract_nuclei frame_idx (Patterns.tracked p) = [] \/
  is_ok (count_nuclei frame_idx (extracted extract_nuclei frame_idx (Patterns.tracked p)))
  = false ->
  exists q,
    _process_frame p frame_idx = inr q /\
    Patterns.saved q = Patterns.saved p /\
    Patterns.dropped_zero q = Patterns.dropped_zero p /\
    Patterns.dropped_many q = Patterns.dropped_many p /\
    (forall idx, idx ∈ Patterns.tracked q <->
                 (idx ∈ Patterns.tracked p /\
                  is_ok (extract_nuclei frame_idx idx) = true)).
Proof.
  intros Hreach Hload Hskip.
  pose proof (reachable_tracked_NoDup _ _ _ Hreach) as Hnd.
  destruct (collect_nuclei_tracked frame_idx (Patterns.tracked p) [] p Hnd Hnd)
    as (nl & q & Hrun & _ & Hq & _); [auto |].
  destruct (collect_nuclei_facts _ _ _ _ _ _ Hrun) as (_ & Hz & Hm & Hs).
  pose proof (collect_nuclei_batch _ _ _ _ _ _ Hrun) as Hbatch. cbn [app] in Hbatch.
  exists q. split.
  - unfold Analyzer._process_frame, Patterns.get_tracked_indices.
    destruct (load_nuclei frame_idx) as [e | u]; [discriminate Hload |]. simpl.
    rewrite Hrun. simpl. rewrite <- Hbatch in Hskip.
    destruct nl as [| nuclei rest]; [reflexivity |].
    destruct Hskip as [Hnone | Hcount]; [discriminate Hnone |].
    destruct (count_nuclei frame_idx (nuclei :: rest)); [reflexivity | discriminate].
  - split; [exact Hs |]. split; [exact Hz |]. split; [exact Hm |].
    intros idx. rewrite Hq. split.
    + intros [Hin Hno]. split; [exact Hin |].
      destruct (is_ok (extract_nuclei frame_idx idx)); [reflexivity |].
      exfalso. apply Hno. auto.
    + intros [Hin Hok]. split; [exact Hin |]. intros [_ Hfail]. congruence.
Qed.

End TrackingOrder.

(** * Further properties of the analysis of a view and of the driver *)

Section ViewAnalysis.
Context {region metadata : Type}.
Variable self_metadata : metadata.
Variable n_views n_frames wanted : Z.
Variable prepare_view : Z -> result Z.
Variable load_nuclei : Z -> Z -> result unit.
Variable extract_nuclei : Z -> Z -> Z -> result region.
Variable count_nuclei : Z -> Z -> list region -> result (list Z).
Variable results_writable tracking_writable : Z -> bool.

Local Abbreviation analyze_time_series :=
  (Driver.analyze_time_series self_metadata n_frames wanted prepare_view
     load_nuclei extract_nuclei count_nuclei).
Local Abbreviation written :=
  (written_result self_metadata n_frames wanted prepare_view load_nuclei
     extract_nuclei count_nuclei results_writable).

Lemma analyze_time_series_inv (view_idx : Z) (res : Driver.results metadata) :
  analyze_time_series view_idx = inr res ->
  exists n_patterns r,
    prepare_view view_idx = inr n_patterns /\
    Analyzer.process_frames (load_nuclei view_idx) (extract_nuclei view_idx)
      (count_nuclei view_idx) wanted (Py.range n_frames)
      (Patterns.init n_patterns) = inr r /\
    res = Driver.mk_results self_metadata (Patterns.get_valid_patterns r).
Proof.
  unfold Driver.analyze_time_series, Driver.analyze_view.
  destruct (prepare_view view_idx) as [e | n_patterns]; simpl; [discriminate |].
  destruct (Analyzer.process_frames (load_nuclei view_idx) (extract_nuclei view_idx)
              (count_nuclei view_idx) wanted (Py.range n_frames)
              (Patterns.init n_patterns)) as [e | r] eqn:Hframes;
    simpl; [discriminate |].
  intros H. injection H as <-. exists n_patterns, r.
  split; [reflexivity | split; [exact Hframes | reflexivity]].
Qed.

(** X2. In the results of a view every pattern index is one of the
    detected patterns and its list of frames is not empty, strictly
    increasing and made of frame indices of the view. *)
Theorem X2_saved_frames_are_increasing_frame_indices
    (view_idx : Z) (res : Driver.results metadata) (idx : Z) (frames : list Z) :
  analyze_time_series view_idx = inr res ->
  Driver.time_lapse res !! idx = Some frames ->
  frames <> [] /\
  frames `sublist_of` Py.range n_frames /\
  StronglySorted Z.lt frames /\
  (forall f, f ∈ frames -> 0 <= f < n_frames) /\
  exists n_patterns, prepare_view view_idx = inr n_patterns /\ 0 <= idx < n_patterns.
Proof.
  intros Hrun Hlookup.
  destruct (analyze_time_series_inv _ _ Hrun) as (n_patterns & r & Hprep & Hframes & ->).
  cbn [Driver.time_lapse] in Hlookup. unfold Patterns.get_valid_patterns in Hlookup.
  apply map_lookup_filter_Some in Hlookup as [Hsaved Hne]. cbn [snd] in Hne.
  destruct (saved_lists_of_view _ _ _ _ _ _ _ _ _ Hframes Hsaved) as [Hfr Hidx].
  split; [exact Hne |]. split; [exact Hfr |].
  split; [apply (sublist_sorted _ _ Hfr), range2_sorted |].
  split.
  - intros f Hf. apply (sublist_elem _ _ _ Hfr) in Hf.
    unfold Py.range in Hf. apply elem_of_range2 in Hf. lia.
  - exists n_patterns. split; [exact Hprep | exact Hidx].
Qed.

Lemma process_frames_loaded (view_idx : Z) (frames : list Z) (p r : Patterns.t) :
  Analyzer.process_frames (load_nuclei view_idx) (extract_nuclei view_idx)
    (count_nuclei view_idx) wanted frames p = inr r ->
  forall f, f ∈ frames -> is_ok (load_nuclei view_idx f) = true.
Proof. intros Hrun. apply (process_frames_facts _ _ _ _ _ [] _ _ Hrun). Qed.

(** X5. The analysis of a view returns exactly when the patterns of the
    view can be prepared and every frame of the view loads; failures of
    region extraction or of counting never make it raise.  Whatever was
    raised inside, the caller sees the one error of [analyze_time_series]. *)
Theorem X5_analysis_raises_only_on_load_failures (view_idx : Z) :
  (is_ok (analyze_time_series view_idx) = true <->
   (is_ok (prepare_view view_idx) = true /\
    forall f, 0 <= f < n_frames -> is_ok (load_nuclei view_idx f) = true)) /\
  (forall e, analyze_time_series view_idx = inl e -> e = ProcessingFailed).
Proof.
  split.
  - split.
    + destruct (analyze_time_series view_idx) as [e | res] eqn:Hrun; [discriminate |].
      intros _.
      destruct (analyze_time_series_inv _ _ Hrun) as (n_patterns & r & -> & Hframes & _).
      split; [reflexivity |]. intros f Hf.
      apply (process_frames_loaded _ _ _ _ Hframes).
      unfold Py.range. apply elem_of_range2. lia.
    + intros [Hprep Hload].
      unfold Driver.analyze_time_series, Driver.analyze_view.
      destruct (prepare_view view_idx) as [e | n_patterns]; [discriminate Hprep |]. simpl.
      destruct (process_frames_returns (load_nuclei view_idx) (extract_nuclei view_idx)
                  (count_nuclei view_idx) wanted n_patterns (fun _ => True)
                  (Py.range n_frames) (Patterns.init n_patterns)) as (r & ->).
      * auto.
      * eapply tracking_inv_weaken; [| apply (init_inv (extract_nuclei view_idx))]. auto.
      * intros g Hg. apply Hload. unfold Py.range in Hg. apply elem_of_range2 in Hg. lia.
      * reflexivity.
  - unfold Driver.analyze_time_series, Driver.analyze_view. intros e.
    destruct (reraise_as ProcessingFailed _) as [e' | res] eqn:Hre; simpl; [| discriminate].
    intros H. injection H as <-.
    unfold reraise_as in Hre.
    destruct (bind _ _) in Hre; [congruence | discriminate].
Qed.

End ViewAnalysis.

Section DriverLoop.
Context {region metadata other : Type}.
Variable self_metadata : metadata.
Variable n_views n_frames wanted : Z.
Variable prepare_view : Z -> result Z.
Variable load_nuclei : Z -> Z -> result unit.
Variable extract_nuclei : Z -> Z -> Z -> result region.
Variable count_nuclei : Z -> Z -> list region -> result (list Z).
Variable results_writable tracking_writable : Z -> bool.
Variable sorted_mixed : list Z -> list other -> option (list (Driver.entry other)).

Local Abbreviation analyze_time_series :=
  (Driver.analyze_time_series self_metadata n_frames wanted prepare_view
     load_nuclei extract_nuclei count_nuclei).
Local Abbreviation process_view :=
  (Driver.process_view self_metadata n_frames wanted prepare_view
     load_nuclei extract_nuclei count_nuclei results_writable tracking_writable
     sorted_mixed).
Local Abbreviation process_views :=
  (Driver.process_views self_metadata n_views n_frames wanted prepare_view
     load_nuclei extract_nuclei count_nuclei results_writable tracking_writable
     sorted_mixed).
Local Abbreviation written :=
  (written_result self_metadata n_frames wanted prepare_view load_nuclei
     extract_nuclei count_nuclei results_writable).
Local Abbreviation loop_state := (@Driver.loop_state metadata other).
Local Abbreviation recorded :=
  (fun out : Driver.folder metadata other =>
     Driver.members (Driver.load_processed_views out)).
Local Abbreviation views_in := (fun st : loop_state => Driver.members (Driver.processed_views st)).

Lemma sort_elements_sorted (processed : gset Z) :
  StronglySorted Z.lt (Py.sort (elements processed)).
Proof.
  assert (Hnd : NoDup (Py.sort (elements processed))).
  { unfold Py.sort. rewrite merge_sort_Permutation. apply NoDup_elements. }
  assert (Hle : StronglySorted Z.le (Py.sort (elements processed))).
  { unfold Py.sort. apply StronglySorted_merge_sort; [| apply Z_le_total].
    intros x y z. lia. }
  revert Hnd Hle. generalize (Py.sort (elements processed)).
  induction l as [| x l IH]; intros Hnd Hle; constructor.
  - apply NoDup_cons in Hnd as [_ Hnd]. apply StronglySorted_inv in Hle as [Hle _].
    apply IH; assumption.
  - apply NoDup_cons in Hnd as [Hx _]. apply StronglySorted_inv in Hle as [_ Hall].
    rewrite Forall_forall in Hall |- *. intros y Hy.
    specialize (Hall y Hy). assert (x <> y) by (intros ->; contradiction). lia.
Qed.

(** What [processed_views.json] holds after a write for the set [s]:
    the sorted list, or nothing when [sorted] raised on the file just
    opened. *)
Lemma process_view_record (st : loop_state) (v : Z) :
  Driver.tracking_file (Driver.out_folder (process_view st v))
    = Driver.tracking_file (Driver.out_folder st) \/
  Driver.tracking_file (Driver.out_folder (process_view st v))
    = Some (Driver.sorted_views sorted_mixed
              (Driver.processed_views (process_view st v))).
Proof.
  unfold Driver.process_view.
  destruct (bool_decide (v ∈ Driver.members (Driver.processed_views st))); [auto |].
  destruct (analyze_time_series v) as [e | res]; [auto |].
  destruct (results_writable v); [| auto].
  destruct (tracking_writable v); [| auto]. cbn zeta.
  destruct (Driver.sorted_views sorted_mixed _) as [views |] eqn:Hsorted;
    cbn [Driver.out_folder Driver.tracking_file Driver.processed_views];
    rewrite Hsorted; auto.
Qed.

(** What the loop of [process_views] has done after the views [views],
    none of which it had seen before. *)
Lemma process_views_loop (views : list Z) (loaded : gset Z) (st : loop_state) :
  NoDup views ->
  (forall w, w ∈ views -> w ∈ views_in st <-> w ∈ loaded) ->
  let st' := fold_left process_view views st in
  Driver.analysed st'
    = Driver.analysed st
      ++ List.filter (fun v => negb (bool_decide (v ∈ loaded))) views /\
  (forall v,
      Driver.view_files (Driver.out_folder st') !! v
      = if bool_decide (v ∈ views /\ v ∉ loaded)
        then match written v with
             | Some res => Some res
             | None => Driver.view_files (Driver.out_folder st) !! v
             end
        else Driver.view_files (Driver.out_folder st) !! v) /\
  views_in st ⊆ views_in st' /\
  Driver.strangers (Driver.processed_views st')
    = Driver.strangers (Driver.processed_views st) /\
  (forall v, v ∈ views_in st' ->
             v ∈ views_in st \/
             (v ∈ views /\ (v ∉ loaded) /\ is_Some (written v))) /\
  (Driver.tracking_file (Driver.out_folder st')
     = Driver.tracking_file (Driver.out_folder st) \/
   exists members : gset Z,
     Driver.tracking_file (Driver.out_folder st')
       = Some (Driver.sorted_views sorted_mixed
                 (Driver.mk_set members (Driver.strangers (Driver.processed_views st)))) /\
     views_in st ⊆ members /\
     members ⊆ views_in st').
Proof.
  revert st. induction views as [| v views IH]; intros st Hnd Hsync;
    cbn [fold_left List.filter].
  - split; [rewrite app_nil_r; reflexivity |].
    split.
    { intros w. rewrite bool_decide_eq_false_2; [reflexivity |].
      intros [Hw _]. inversion Hw. }
    split; [reflexivity |]. split; [reflexivity |]. split; auto.
  - apply NoDup_cons in Hnd as [Hfresh Hnd].
    set (st1 := process_view st v).
    assert (Hstep :
      Driver.analysed st1
        = Driver.analysed st ++ (if bool_decide (v ∈ loaded) then [] else [v]) /\
      (forall w, Driver.view_files (Driver.out_folder st1) !! w
                 = if bool_decide (w = v /\ v ∉ loaded)
                   then match written v with
                        | Some res => Some res
                        | None => Driver.view_files (Driver.out_folder st) !! w
                        end
                   else Driver.view_files (Driver.out_folder st) !! w) /\
      views_in st ⊆ views_in st1 /\
      Driver.strangers (Driver.processed_views st1)
        = Driver.strangers (Driver.processed_views st) /\
      (forall w, w ∈ views_in st1 ->
                 w ∈ views_in st \/
                 (w = v /\ (v ∉ loaded) /\ is_Some (written v)))).
    { unfold st1, Driver.process_view, written_result.
      destruct (decide (v ∈ Driver.members (Driver.processed_views st))) as [Hin | Hnin].
      - assert (v ∈ loaded) as Hl by (apply Hsync; [left | exact Hin]).
        rewrite !bool_decide_eq_true_2 by assumption.
        rewrite app_nil_r. split; [reflexivity |].
        split.
        { intros w. rewrite bool_decide_eq_false_2; [reflexivity | tauto]. }
        split; [reflexivity |]. split; auto.
      - assert (v ∉ loaded) as Hl.
        { intros Hl. apply Hnin, Hsync; [left | exact Hl]. }
        rewrite !bool_decide_eq_false_2 by assumption.
        destruct (analyze_time_series v) as [e | res]; simpl.
        + split; [reflexivity |]. split.
          { intros w. destruct (bool_decide (w = v /\ v ∉ loaded)); reflexivity. }
          split; [reflexivity |]. split; auto.
        + destruct (results_writable v); simpl.
          * assert (Hfiles : forall w,
                <[v := res]> (Driver.view_files (Driver.out_folder st)) !! w
                = if bool_decide (w = v /\ v ∉ loaded) then Some res
                  else Driver.view_files (Driver.out_folder st) !! w).
            { intros w. destruct (decide (w = v)) as [-> | Hne].
              - rewrite bool_decide_eq_true_2 by tauto. apply lookup_insert_eq.
              - rewrite bool_decide_eq_false_2 by tauto.
                apply lookup_insert_ne. congruence. }
            assert (Hmem : forall w,
                      w ∈ {[v]} ∪ Driver.members (Driver.processed_views st) ->
                      w ∈ Driver.members (Driver.processed_views st) \/
                      (w = v /\ (v ∉ loaded) /\ is_Some (Some res))).
            { intros w Hw. apply elem_of_union in Hw as [Hw | Hw]; [| auto].
              apply elem_of_singleton in Hw. right. eauto. }
            destruct (tracking_writable v);
              [destruct (Driver.sorted_views sorted_mixed _) |];
              cbn [Driver.analysed Driver.out_folder Driver.view_files
                     Driver.processed_views Driver.members Driver.strangers];
              (split; [reflexivity |]; split; [exact Hfiles |];
               split; [apply union_subseteq_r |]; split; [reflexivity | exact Hmem]).
          * split; [reflexivity |]. split.
            { intros w. destruct (bool_decide (w = v /\ v ∉ loaded)); reflexivity. }
            split; [reflexivity |]. split; auto. }
    destruct Hstep as (Hlog & Hfiles & Hsub & Hstr & Hmem).
    pose proof (process_view_record st v) as Htrack. fold st1 in Htrack.
    destruct (IH st1 Hnd) as (Hlog' & Hfiles' & Hsub' & Hstr' & Hmem' & Htrack').
    { intros w Hw. rewrite <- (Hsync w) by (right; exact Hw). split.
      - intros H1. destruct (Hmem w H1) as [? | [-> _]]; [assumption | contradiction].
      - apply Hsub. }
    split.
    { rewrite Hlog', Hlog, <- app_assoc. f_equal.
      destruct (bool_decide (v ∈ loaded)); reflexivity. }
    split.
    { intros w. rewrite Hfiles', Hfiles.
      destruct (decide (w = v)) as [-> | Hne].
      - rewrite (bool_decide_eq_false_2 (v ∈ views /\ _)) by tauto.
        destruct (decide (v ∈ loaded)) as [Hl | Hl].
        + rewrite !bool_decide_eq_false_2 by tauto. reflexivity.
        + rewrite !bool_decide_eq_true_2; [reflexivity | | tauto].
          split; [left | exact Hl].
      - rewrite (bool_decide_eq_false_2 (w = v /\ _)) by tauto.
        destruct (decide (w ∈ views /\ w ∉ loaded)) as [Hw | Hw].
        + rewrite !bool_decide_eq_true_2; [reflexivity | | exact Hw].
          split; [right; tauto | tauto].
        + rewrite !bool_decide_eq_false_2; [reflexivity | | exact Hw].
          rewrite elem_of_cons. tauto. }
    split; [etrans; eassumption |].
    split; [congruence |].
    split.
    { intros w Hw. destruct (Hmem' w Hw) as [H1 | (Hin & Hl & Hwr)].
      - destruct (Hmem w H1) as [? | (-> & Hl & Hwr)]; [auto |].
        right. split; [left | auto].
      - right. split; [right; exact Hin | auto]. }
    destruct Htrack' as [Hsame | (members & Hrec & Hlo & Hhi)].
    + rewrite Hsame. destruct Htrack as [? | Hnew]; [auto |].
      right. exists (views_in st1).
      split; [| split; [exact Hsub | exact Hsub']].
      rewrite Hnew, <- Hstr. destruct (Driver.processed_views st1); reflexivity.
    + right. exists members. split; [rewrite Hrec, Hstr; reflexivity |].
      split; [| exact Hhi]. etrans; eassumption.
Qed.

(** X7. Over a valid range [process_views] analyses exactly the views of
    the range that are not among the integers of the processed-views
    record, each once, in ascending order; it rewrites the result file of
    an analysed view whose analysis returned and whose file could be
    opened, and leaves every other result file as it was. *)
Theorem X7_driver_analyses_pending_views
    (start_view end_view : Z) (out out' : Driver.folder metadata other)
    (analysed : list Z) :
  process_views start_view end_view out = inr (out', analysed) ->
  analysed = pending (recorded out) start_view end_view /\
  forall v,
    Driver.view_files out' !! v
    = if bool_decide (v ∈ analysed)
      then match written v with
           | Some res => Some res
           | None => Driver.view_files out !! v
           end
      else Driver.view_files out !! v.
Proof.
  unfold Driver.process_views.
  destruct ((start_view <? 0) || (end_view >? n_views) || (start_view >=? end_view));
    [discriminate |].
  intros H. injection H as <- <-.
  destruct (process_views_loop (Py.range2 start_view end_view) (recorded out)
              (Driver.mk_loop out (Driver.load_processed_views out) []))
    as (Hlog & Hfiles & _).
  { apply StronglySorted_lt_NoDup, range2_sorted. }
  { intros w _. reflexivity. }
  simpl in Hlog, Hfiles. split; [exact Hlog |].
  intros v. rewrite Hfiles, Hlog.
  assert (Hiff : v ∈ pending (recorded out) start_view end_view
                 <-> (v ∈ Py.range2 start_view end_view /\ v ∉ recorded out)).
  { unfold pending. rewrite list_elem_of_In, filter_In, <- list_elem_of_In.
    rewrite negb_true_iff, bool_decide_eq_false. reflexivity. }
  fold (pending (recorded out) start_view end_view).
  destruct (decide (v ∈ pending (recorded out) start_view end_view)) as [Hp | Hp].
  - rewrite !bool_decide_eq_true_2; [reflexivity | exact Hp | apply Hiff, Hp].
  - rewrite !bool_decide_eq_false_2; [reflexivity | exact Hp |].
    intros H. apply Hp, Hiff, H.
Qed.

(** X8. What a run leaves in [processed_views.json].  When the record
    it starts from is missing, cannot be loaded or holds only integers,
    the file is left as it was or holds a strictly ascending list of
    integers: every view of the old record and, besides, only views of
    the range whose results were written during the run; a view whose
    analysis raised is never recorded.  When the record holds a value
    with which [sorted] raises next to any integers, as a string does,
    the file is left as it was or left empty. *)
Theorem X8_record_only_gains_saved_views
    (start_view end_view : Z) (out out' : Driver.folder metadata other)
    (analysed : list Z) :
  process_views start_view end_view out = inr (out', analysed) ->
  (Driver.strangers (Driver.load_processed_views out) = [] ->
   Driver.tracking_file out' = Driver.tracking_file out \/
   exists views,
     Driver.tracking_file out' = Some (Some (map Driver.Int views)) /\
     StronglySorted Z.lt views /\
     (forall v, v ∈ recorded out -> v ∈ views) /\
     (forall v, v ∈ views ->
                v ∈ recorded out \/
                (start_view <= v < end_view /\ is_Some (written v)))) /\
  ((forall ints, sorted_mixed ints (Driver.strangers (Driver.load_processed_views out))
                 = None) ->
   Driver.strangers (Driver.load_processed_views out) <> [] ->
   Driver.tracking_file out' = Driver.tracking_file out \/
   Driver.tracking_file out' = Some None).
Proof.
  unfold Driver.process_views.
  destruct ((start_view <? 0) || (end_view >? n_views) || (start_view >=? end_view));
    [discriminate |].
  intros H. injection H as <- _.
  destruct (process_views_loop (Py.range2 start_view end_view) (recorded out)
              (Driver.mk_loop out (Driver.load_processed_views out) []))
    as (_ & _ & _ & _ & Hmem & Htrack).
  { apply StronglySorted_lt_NoDup, range2_sorted. }
  { intros w _. reflexivity. }
  cbn [Driver.out_folder Driver.processed_views] in Hmem, Htrack. split.
  - intros Hnone.
    destruct Htrack as [Hsame | (members & Hrec & Hlo & Hhi)]; [left; exact Hsame |].
    right. exists (Py.sort (elements members)).
    split.
    { rewrite Hrec. unfold Driver.sorted_views. cbn [Driver.strangers Driver.members].
      rewrite Hnone. reflexivity. }
    split; [apply sort_elements_sorted |].
    assert (Hin : forall v, v ∈ Py.sort (elements members) <-> v ∈ members).
    { intros v. unfold Py.sort. rewrite merge_sort_Permutation. apply elem_of_elements. }
    split.
    + intros v Hv. apply Hin, Hlo, Hv.
    + intros v Hv. apply Hin, Hhi, Hmem in Hv.
      destruct Hv as [? | (Hr & _ & Hw)]; [auto |].
      right. split; [apply elem_of_range2, Hr | exact Hw].
  - intros Hraise Hsome.
    destruct Htrack as [Hsame | (members & Hrec & _ & _)]; [left; exact Hsame |].
    right. rewrite Hrec. unfold Driver.sorted_views. cbn [Driver.strangers Driver.members].
    destruct (Driver.strangers (Driver.load_processed_views out)); [congruence |].
    rewrite Hraise. reflexivity.
Qed.

End DriverLoop.


(** * Further properties of the pattern extractor *)

Section GeneratorFacts.
Context {contour : Type} (ext : CellGenerator.externals contour).

Local Abbreviation entry := (@CellGenerator.entry contour).

Lemma refine_contours_inv (cs : list contour) (data : list entry) :
  CellGenerator._refine_contours ext cs = inr data ->
  cs <> [] /\
  data = Py.stable_sort (@CellGenerator.key_le contour)
           (map (entry_of ext)
              (List.filter (fun c => negb (rejected ext cs c)) cs)).
Proof.
  destruct cs as [| c0 cs0] eqn:Hcs; [discriminate |]. rewrite <- Hcs.
  intros Hrun. split; [rewrite Hcs; discriminate |].
  rewrite Hcs in Hrun at 1. unfold CellGenerator._refine_contours in Hrun.
  rewrite <- Hcs in Hrun. rewrite collect_contours_filter in Hrun.
  injection Hrun as <-. reflexivity.
Qed.

Lemma process_patterns_inv (g g' : CellGenerator.t contour) :
  CellGenerator.process_patterns ext g = inr g' ->
  exists img data,
    CellGenerator.patterns g = Some img /\
    Z.of_nat (length (concat img)) <> 0 /\
    CellGenerator._refine_contours ext (CellGenerator.cv_find_contours ext img)
      = inr data /\
    g' = CellGenerator.mk (CellGenerator.n_views g) (CellGenerator.n_frames g)
           (CellGenerator.current_view g) (CellGenerator.patterns g)
           (Z.of_nat (length (map (fun e : entry => e.1.2) data)))
           (Some (map (fun e : entry => e.1.2) data))
           (Some (map (fun e : entry => e.2) data))
           (Some (map (fun e : entry => (e.1.1.1, e.1.1.2)) data))
           (CellGenerator.frame_nuclei g) (CellGenerator.frame_cyto g).
Proof.
  unfold CellGenerator.process_patterns, CellGenerator._find_contours.
  destruct (CellGenerator.patterns g) as [img |] eqn:Hpat; [| discriminate].
  destruct (Z.eqb_spec (Z.of_nat (length (concat img))) 0) as [? | Hsize];
    simpl; [discriminate |].
  destruct (CellGenerator._refine_contours ext (CellGenerator.cv_find_contours ext img))
    as [e | data] eqn:Href; simpl; [discriminate |].
  intros H. injection H as <-. exists img, data.
  split; [reflexivity |]. split; [exact Hsize |]. split; [exact Href | reflexivity].
Qed.

(** X9. [process_patterns] returns exactly when a pattern image with at
    least one pixel is loaded and the contour detection finds a contour;
    an image without any contour raises instead of giving a view with no
    pattern. *)
Theorem X9_process_patterns_raises_without_contours (g : CellGenerator.t contour) :
  (is_ok (CellGenerator.process_patterns ext g) = true <->
   exists img, CellGenerator.patterns g = Some img /\
               concat img <> [] /\
               CellGenerator.cv_find_contours ext img <> []) /\
  (forall img, CellGenerator.patterns g = Some img -> concat img <> [] ->
               CellGenerator.cv_find_contours ext img = [] ->
               CellGenerator.process_patterns ext g = inl EmptyContours).
Proof.
  split.
  - split.
    + destruct (CellGenerator.process_patterns ext g) as [e | g'] eqn:Hrun; [discriminate |].
      intros _. destruct (process_patterns_inv _ _ Hrun) as (img & data & Hpat & Hsize & Href & _).
      exists img. split; [exact Hpat |]. split.
      * intros Hnil. rewrite Hnil in Hsize. apply Hsize. reflexivity.
      * apply (refine_contours_inv _ _ Href).
    + intros (img & Hpat & Hsize & Hcs).
      unfold CellGenerator.process_patterns, CellGenerator._find_contours. rewrite Hpat.
      destruct (Z.eqb_spec (Z.of_nat (length (concat img))) 0) as [Hz | _].
      { destruct (concat img); [congruence | discriminate Hz]. }
      simpl. destruct (CellGenerator.cv_find_contours ext img); [congruence | reflexivity].
  - intros img Hpat Hsize Hcs.
    unfold CellGenerator.process_patterns, CellGenerator._find_contours. rewrite Hpat.
    destruct (Z.eqb_spec (Z.of_nat (length (concat img))) 0) as [Hz | _].
    { destruct (concat img); [congruence | discriminate Hz]. }
    simpl. rewrite Hcs. reflexivity.
Qed.

Lemma Sorted_map_center (data : list entry) :
  Sorted center_le data ->
  Sorted row_col_le (map (fun e : entry => (e.1.1.1, e.1.1.2)) data).
Proof.
  induction 1 as [| e data _ IH Hhd]; simpl; constructor; [exact IH |].
  destruct Hhd as [| e' data' Hle]; simpl; constructor. exact Hle.
Qed.

(** X10. After [process_patterns] the three per-pattern lists describe the
    same patterns index by index: there are [n_patterns] contours,
    bounding boxes and centers, the [i]-th box is the bounding rectangle
    of the [i]-th contour and the [i]-th center is the middle of that
    box; the centers are in ascending (row, col) order; the loaded
    frames and the current view are left as they were. *)
Theorem X10_pattern_lists_are_aligned (g g' : CellGenerator.t contour) :
  CellGenerator.process_patterns ext g = inr g' ->
  exists cs boxes cens,
    CellGenerator.contours g' = Some cs /\
    CellGenerator.bounding_boxes g' = Some boxes /\
    CellGenerator.centers g' = Some cens /\
    CellGenerator.n_patterns g' = Z.of_nat (length cs) /\
    length boxes = length cs /\ length cens = length cs /\
    (forall (i : nat) c,
        cs !! i = Some c ->
        boxes !! i = Some (CellGenerator.boundingRect ext c) /\
        cens !! i
          = Some (let '(x, y, w, h) := CellGenerator.boundingRect ext c in
                  (y + h / 2, x + w / 2))) /\
    Sorted row_col_le cens /\
    CellGenerator.frame_nuclei g' = CellGenerator.frame_nuclei g /\
    CellGenerator.frame_cyto g' = CellGenerator.frame_cyto g /\
    CellGenerator.current_view g' = CellGenerator.current_view g /\
    CellGenerator.patterns g' = CellGenerator.patterns g.
Proof.
  intros Hrun.
  destruct (process_patterns_inv _ _ Hrun) as (img & data & _ & _ & Href & ->).
  destruct (refine_contours_inv _ _ Href) as [_ Hdata].
  set (cs0 := CellGenerator.cv_find_contours ext img) in *.
  set (kept := List.filter (fun c => negb (rejected ext cs0 c)) cs0) in *.
  assert (Hwf : Forall (fun e : entry => e = entry_of ext e.1.2) data).
  { apply Forall_forall. intros e He. rewrite Hdata, stable_sort_perm in He.
    apply list_elem_of_In, in_map_iff in He. destruct He as (c & <- & _).
    rewrite entry_of_contour. reflexivity. }
  eexists _, _, _. simpl.
  split; [reflexivity |]. split; [reflexivity |]. split; [reflexivity |].
  split; [reflexivity |]. split; [rewrite !length_map; reflexivity |].
  split; [rewrite !length_map; reflexivity |].
  split.
  - intros i c Hc.
    assert (exists e, data !! i = Some e /\ e.1.2 = c) as (e & He & <-).
    { clear -Hc. revert i Hc. induction data as [| e data IH]; intros [| i] Hc;
        simpl in *; try discriminate; [injection Hc as <-; eauto | eauto]. }
    assert (Hmap : forall (B : Type) (f : entry -> B), map f data !! i = Some (f e)).
    { intros B f. clear -He. revert i He.
      induction data as [| e' data IH]; intros [| i] He; simpl in *;
        try discriminate; [injection He as ->; reflexivity | eauto]. }
    rewrite !Hmap.
    rewrite Forall_forall in Hwf. specialize (Hwf e (list_elem_of_lookup_2 _ _ _ He)).
    unfold entry_of in Hwf.
    destruct (CellGenerator.boundingRect ext e.1.2) as [[[x y] w] h].
    rewrite Hwf. simpl. auto.
  - split; [| auto]. apply Sorted_map_center. rewrite Hdata. apply stable_sort_sorted.
Qed.

(** X11. Once the patterns of a view are processed and a nuclei frame is
    loaded, the region of every pattern index in [[0, n_patterns)] can be
    extracted and is the frame cropped to the bounding box of that
    pattern; any other index raises the out-of-range error. *)
Theorem X11_extraction_of_detected_patterns
    (g g1 g2 : CellGenerator.t contour) (frame_idx : Z) :
  CellGenerator.process_patterns ext g = inr g1 ->
  CellGenerator.load_nuclei ext frame_idx g1 = inr g2 ->
  exists img boxes,
    CellGenerator.cells_get_frame_2D ext 0 frame_idx (CellGenerator.current_view g)
      = inr img /\
    CellGenerator.bounding_boxes g2 = Some boxes /\
    CellGenerator.n_patterns g2 = Z.of_nat (length boxes) /\
    (forall idx, 0 <= idx < CellGenerator.n_patterns g2 ->
       exists b, boxes !! Z.to_nat idx = Some b /\
                 CellGenerator.extract_nuclei g2 idx = inr (CellGenerator.crop img b)) /\
    (forall idx, ~ 0 <= idx < CellGenerator.n_patterns g2 ->
       CellGenerator.extract_nuclei g2 idx = inl PatternIndexOutOfRange).
Proof.
  intros Hproc Hload.
  destruct (process_patterns_inv _ _ Hproc) as (pimg & data & _ & _ & _ & ->).
  unfold CellGenerator.load_nuclei in Hload. simpl in Hload.
  destruct (frame_idx >=? CellGenerator.n_frames g); [discriminate |].
  destruct (CellGenerator.cells_get_frame_2D ext 0 frame_idx (CellGenerator.current_view g))
    as [e | img]; [discriminate |].
  injection Hload as <-. exists img, (map (fun e : entry => e.2) data). simpl.
  split; [reflexivity |]. split; [reflexivity |].
  split; [rewrite !length_map; reflexivity |].
  unfold CellGenerator.extract_nuclei, CellGenerator._extract_region. simpl.
  rewrite !length_map. split.
  - intros idx Hidx.
    destruct (Z.geb_spec idx (Z.of_nat (length data))) as [? | _]; [lia |].
    destruct (Z.ltb_spec idx 0) as [? | _]; [lia |]. simpl.
    destruct (lookup_lt_is_Some_2 (map (fun e : entry => e.2) data) (Z.to_nat idx))
      as [b Hb]; [rewrite length_map; lia |].
    exists b. rewrite Hb. auto.
  - intros idx Hidx.
    destruct (Z.geb_spec idx (Z.of_nat (length data))) as [? | ?]; [reflexivity |].
    destruct (Z.ltb_spec idx 0) as [? | ?]; [reflexivity | lia].
Qed.

End GeneratorFacts.

Section ViewPreparation.
Context {contour region metadata : Type} (ext : CellGenerator.externals contour).
Variable self_metadata : metadata.
Variable n_frames wanted : Z.
Variable load_nuclei : Z -> Z -> result unit.
Variable extract_nuclei : Z -> Z -> Z -> result region.
Variable count_nuclei : Z -> Z -> list region -> result (list Z).
Variable results_writable : Z -> bool.

(** X6. The analysis of a view starts from at least one contour: the
    preparation of a view returns only for a view index of the file whose
    pattern image has a contour, with the number of contours that pass the
    area filter; for a view whose pattern image has no contour it raises,
    [analyze_time_series] raises with it, and [process_views] writes no
    result for the view. *)
Theorem X6_view_without_contours_is_not_analysed
    (g : CellGenerator.t contour) (view_idx : Z) :
  (forall n_patterns,
      Preparation.prepare_view ext g view_idx = inr n_patterns ->
      0 <= view_idx < CellGenerator.n_views g /\
      exists img,
        CellGenerator.patterns_get_frame_2D ext 0 0 view_idx = inr img /\
        CellGenerator.cv_find_contours ext img <> [] /\
        n_patterns
        = Z.of_nat (length (List.filter
                              (fun c => negb (rejected ext
                                                (CellGenerator.cv_find_contours ext img) c))
                              (CellGenerator.cv_find_contours ext img)))) /\
  (forall img,
      CellGenerator.patterns_get_frame_2D ext 0 0 view_idx = inr img ->
      CellGenerator.cv_find_contours ext img = [] ->
      is_ok (Preparation.prepare_view ext g view_idx) = false /\
      Driver.analyze_time_series self_metadata n_frames wanted
        (Preparation.prepare_view ext g) load_nuclei extract_nuclei count_nuclei view_idx
      = inl ProcessingFailed /\
      written_result self_metadata n_frames wanted (Preparation.prepare_view ext g)
        load_nuclei extract_nuclei count_nuclei results_writable view_idx
      = None).
Proof.
  assert (Hprep : forall n_patterns,
      Preparation.prepare_view ext g view_idx = inr n_patterns ->
      0 <= view_idx < CellGenerator.n_views g /\
      exists img,
        CellGenerator.patterns_get_frame_2D ext 0 0 view_idx = inr img /\
        CellGenerator.cv_find_contours ext img <> [] /\
        n_patterns
        = Z.of_nat (length (List.filter
                              (fun c => negb (rejected ext
                                                (CellGenerator.cv_find_contours ext img) c))
                              (CellGenerator.cv_find_contours ext img)))).
  { intros n_patterns. unfold Preparation.prepare_view, CellGenerator.load_view.
    destruct (Z.geb_spec view_idx (CellGenerator.n_views g)) as [? | Hhi];
      [discriminate |].
    destruct (Z.ltb_spec view_idx 0) as [? | Hlo]; [discriminate |].
    cbn [orb bind ret]. unfold CellGenerator.load_patterns.
    cbn [CellGenerator.current_view].
    destruct (CellGenerator.patterns_get_frame_2D ext 0 0 view_idx) as [e | img];
      [discriminate |].
    cbn [bind ret].
    destruct (CellGenerator.process_patterns ext _) as [e | g3] eqn:Hproc;
      [discriminate |].
    cbn [bind ret]. intros Hn. injection Hn as <-.
    destruct (process_patterns_inv ext _ _ Hproc) as (img' & data & Himg & _ & Href & ->).
    cbn [CellGenerator.patterns] in Himg. injection Himg as <-.
    destruct (refine_contours_inv ext _ _ Href) as [Hne ->].
    split; [lia |]. exists img. split; [reflexivity |]. split; [exact Hne |].
    cbn [CellGenerator.n_patterns].
    rewrite length_map. erewrite Permutation_length; [| apply stable_sort_perm].
    rewrite length_map. reflexivity. }
  split; [exact Hprep |].
  intros img Himg Hnone.
  assert (Hfail : is_ok (Preparation.prepare_view ext g view_idx) = false).
  { destruct (Preparation.prepare_view ext g view_idx) as [e | n] eqn:Hrun;
      [reflexivity |].
    destruct (Hprep n eq_refl) as (_ & img' & Himg' & Hcs & _).
    rewrite Himg in Himg'. injection Himg' as <-. contradiction. }
  split; [exact Hfail |].
  assert (Hraise : Driver.analyze_time_series self_metadata n_frames wanted
                     (Preparation.prepare_view ext g) load_nuclei extract_nuclei
                     count_nuclei view_idx = inl ProcessingFailed).
  { unfold Driver.analyze_time_series, Driver.analyze_view.
    destruct (Preparation.prepare_view ext g view_idx); [reflexivity | discriminate]. }
  split; [exact Hraise |].
  unfold written_result. rewrite Hraise. reflexivity.
Qed.

End ViewPreparation.

Lemma slice_nonneg {A : Type} (l : list A) (a b : Z) :
  0 <= a -> a <= b ->
  Py.slice l a b = take (Z.to_nat (b - a)) (drop (Z.to_nat a) l).
Proof.
  intros Ha Hab. unfold Py.slice, Py.slice_bound.
  destruct (Z.ltb_spec a 0) as [? | _]; [lia |].
  destruct (Z.ltb_spec b 0) as [? | _]; [lia |].
  destruct (Z_le_gt_dec b (Z.of_nat (length l))) as [Hb | Hb].
  - rewrite !Z.min_l by lia. reflexivity.
  - rewrite (Z.min_r b) by lia.
    destruct (Z_le_gt_dec a (Z.of_nat (length l))) as [Hal | Hal].
    + rewrite Z.min_l by lia.
      rewrite !take_ge; [reflexivity | |]; rewrite length_drop; lia.
    + rewrite Z.min_r by lia.
      rewrite !drop_ge by lia. rewrite !take_nil. reflexivity.
Qed.

(** X12. Cropping never raises: for a bounding box with non-negative
    coordinates and sizes, pixel (i, j) of the region is pixel
    (y + i, x + j) of the frame, and a box that sticks out of a
    rectangular frame is cut at the border, so the region has
    [min(h, H - y)] rows of [min(w, W - x)] pixels (none when the box
    starts outside). *)
Theorem X12_crop_is_the_clipped_window
    (frame : CellGenerator.image) (x y w h : Z) :
  0 <= x -> 0 <= y -> 0 <= w -> 0 <= h ->
  (forall i j : nat,
      Z.of_nat i < h -> Z.of_nat j < w ->
      CellGenerator.crop frame (x, y, w, h) !! i ≫= (fun row => row !! j)
      = frame !! (Z.to_nat y + i)%nat ≫= (fun row => row !! (Z.to_nat x + j)%nat)) /\
  Z.of_nat (length (CellGenerator.crop frame (x, y, w, h)))
    = Z.min h (Z.max 0 (Z.of_nat (length frame) - y)) /\
  (forall width, rectangular width frame ->
                 rectangular (Z.min w (Z.max 0 (width - x)))
                             (CellGenerator.crop frame (x, y, w, h))).
Proof.
  intros Hx Hy Hw Hh. unfold CellGenerator.crop, CellGenerator.image in *.
  rewrite (slice_nonneg frame y (y + h)) by lia.
  replace (y + h - y) with h by lia.
  assert (Hrow : forall row : list Z,
            Py.slice row x (x + w) = take (Z.to_nat w) (drop (Z.to_nat x) row)).
  { intros row. rewrite slice_nonneg by lia. f_equal. f_equal. lia. }
  split; [| split].
  - intros i j Hi Hj.
    change (map (fun row => Py.slice row x (x + w))
                (take (Z.to_nat h) (drop (Z.to_nat y) frame)))
      with ((fun row => Py.slice row x (x + w))
              <$> take (Z.to_nat h) (drop (Z.to_nat y) frame)).
    rewrite list_lookup_fmap, lookup_take_lt, lookup_drop by lia.
    destruct (frame !! (Z.to_nat y + i)%nat) as [row |]; simpl; [| reflexivity].
    rewrite Hrow, lookup_take_lt, lookup_drop by lia. reflexivity.
  - rewrite length_map, length_take, length_drop. lia.
  - intros width Hrect. unfold rectangular in *.
    apply Forall_forall. intros row' Hrow'.
    apply list_elem_of_In, in_map_iff in Hrow'. destruct Hrow' as (row & <- & Hin).
    apply list_elem_of_In in Hin.
    apply subseteq_take, subseteq_drop in Hin.
    rewrite Forall_forall in Hrect. specialize (Hrect row Hin).
    rewrite Hrow, length_take, length_drop. lia.
Qed.

Lemma X12_crop_is_the_clipped_window_witness :
  Z.of_nat (length (CellGenerator.crop TwoPatterns.mask (3, 1, 2, 2)))
    = Z.min 2 (Z.max 0 (Z.of_nat (length TwoPatterns.mask) - 1)).
Proof.
  apply (X12_crop_is_the_clipped_window TwoPatterns.mask 3 1 2 2); lia.
Defined.


Section SortStability.
Context {contour : Type} (ext : CellGenerator.externals contour).

Local Abbreviation entry := (@CellGenerator.entry contour).





End SortStability.

Lemma range2_nil (a : Z) : Py.range2 a a = [].
Proof. unfold Py.range2. rewrite Z.sub_diag. reflexivity. Qed.

Lemma range2_cons (a b : Z) : a < b -> Py.range2 a b = a :: Py.range2 (a + 1) b.
Proof.
  intros Hab. unfold Py.range2.
  replace (Z.to_nat (b - a)) with (S (Z.to_nat (b - (a + 1)))) by lia.
  cbn [seq map]. f_equal; [lia |].
  rewrite <- seq_shift, map_map. apply map_ext. intros k. lia.
Qed.

Lemma elem_of_combine_range2 {A : Type} (l : list A) (k i : Z) (x : A) :
  (i, x) ∈ combine (Py.range2 k (k + Z.of_nat (length l))) l <->
  k <= i /\ l !! Z.to_nat (i - k) = Some x.
Proof.
  revert k. induction l as [| y l IH]; intros k.
  - rewrite Z.add_0_r, range2_nil. cbn [combine]. rewrite elem_of_nil.
    split; [tauto | intros [_ H]; discriminate H].
  - rewrite range2_cons by (cbn [length]; lia). cbn [combine].
    replace (k + Z.of_nat (length (y :: l))) with (k + 1 + Z.of_nat (length l))
      by (cbn [length]; lia).
    rewrite elem_of_cons, IH. split.
    + intros [Heq | [Hk Hl]].
      * inversion Heq; subst. split; [lia |]. rewrite Z.sub_diag. reflexivity.
      * split; [lia |].
        replace (Z.to_nat (i - k)) with (S (Z.to_nat (i - (k + 1)))) by lia.
        exact Hl.
    + intros [Hk Hl]. destruct (Z.eq_dec i k) as [-> | Hne].
      * left. rewrite Z.sub_diag in Hl. change (Z.to_nat 0) with 0%nat in Hl.
        cbn [lookup list_lookup] in Hl. inversion Hl. reflexivity.
      * right. split; [lia |].
        replace (Z.to_nat (i - k)) with (S (Z.to_nat (i - (k + 1)))) in Hl by lia.
        exact Hl.
Qed.

Lemma combine_fst {A B : Type} (a : list A) (b : list B) :
  length a = length b -> map fst (combine a b) = a.
Proof.
  revert b. induction a as [| x a IH]; intros [| y b] Hlen; try discriminate Hlen.
  - reflexivity.
  - cbn [combine map fst]. f_equal. apply IH. cbn in Hlen. lia.
Qed.

Lemma elem_of_enumerate {A : Type} (l : list A) (i : Z) (x : A) :
  (i, x) ∈ Py.enumerate l <-> 0 <= i /\ l !! Z.to_nat i = Some x.
Proof.
  unfold Py.enumerate, Py.range.
  rewrite (elem_of_combine_range2 l 0 i x), Z.sub_0_r. reflexivity.
Qed.

Lemma new_pattern_idx_below_1000 (p s : Z) :
  0 <= p -> 0 <= s < 1000 -> Extractor.new_pattern_idx p s = inr (p * 1000 + s).
Proof.
  intros Hp Hs. rewrite new_pattern_idx_value by lia.
  destruct (digits_spec s ltac:(lia)) as (_ & Hd & _).
  destruct (zfill_spec 3 _ Hd) as (_ & _ & _ & Hlen).
  rewrite Hlen by (apply digits_below_1000, Hs). reflexivity.
Qed.

Lemma key_div (p i : Z) : 0 <= i < 1000 -> (p * 1000 + i) / 1000 = p.
Proof. intros Hi. rewrite Z.div_add_l by lia. rewrite Z.div_small by lia. lia. Qed.

Lemma key_mod (p i : Z) : 0 <= i < 1000 -> (p * 1000 + i) mod 1000 = i.
Proof. intros Hi. rewrite Z.add_comm, Z.mod_add by lia. apply Z.mod_small; lia. Qed.

Lemma key_between (p key : Z) :
  p * 1000 <= key < p * 1000 + 1000 -> key / 1000 = p.
Proof.
  intros Hk. replace key with (p * 1000 + (key - p * 1000)) by lia.
  apply key_div. lia.
Qed.

(** The loop over [enumerate(sequences)], from sequence number [k] on. *)
Lemma add_sequences_fresh (p : Z) (seqs : list (Z * Z)) (k : Z)
    (refined : Extractor.segments) :
  0 <= p -> 0 <= k -> k + Z.of_nat (length seqs) <= 1000 ->
  (forall key, key ∈ map fst refined -> ~ (p * 1000 + k <= key < p * 1000 + 1000)) ->
  for_each (Extractor.add_sequence p)
           (combine (Py.range2 k (k + Z.of_nat (length seqs))) seqs) refined
  = inr (refined
         ++ map (keyed p) (combine (Py.range2 k (k + Z.of_nat (length seqs))) seqs)).
Proof.
  intros Hp. revert k refined.
  induction seqs as [| [s e] seqs IH]; intros k refined Hk Hlen Hfresh.
  - rewrite Z.add_0_r, range2_nil. cbn [combine for_each map].
    rewrite app_nil_r. reflexivity.
  - cbn [length] in Hlen. rewrite range2_cons by (cbn [length]; lia).
    replace (k + Z.of_nat (length ((s, e) :: seqs)))
      with (k + 1 + Z.of_nat (length seqs)) by (cbn [length]; lia).
    cbn [combine for_each map]. unfold Extractor.add_sequence at 1.
    rewrite new_pattern_idx_below_1000 by lia. cbn [bind ret].
    rewrite dict_set_fresh.
    + rewrite IH; [| lia | lia |].
      * rewrite <- app_assoc. reflexivity.
      * intros key Hin. rewrite map_app, elem_of_app in Hin.
        destruct Hin as [Hin | Hin].
        -- specialize (Hfresh key Hin). lia.
        -- cbn in Hin. apply list_elem_of_singleton in Hin. lia.
    + intros Hin. apply (Hfresh _ Hin). lia.
Qed.

Lemma runs_from_count (hi prev : Z) (rest current : list Z) :
  Sorted Z.le (prev :: rest) -> Forall (fun f => f <= hi) (prev :: rest) ->
  7 * Z.of_nat (length (runs_from prev rest current)) <= hi - prev + 7.
Proof.
  revert prev current. induction rest as [| x rest IH]; intros prev current Hs Hhi.
  - apply Forall_cons in Hhi as [Hp _]. cbn. lia.
  - apply Sorted_inv in Hs as [Hs Hhd]. apply HdRel_inv in Hhd.
    apply Forall_cons in Hhi as [Hp Hhi].
    cbn [runs_from]. destruct (Z.gtb_spec (x - prev) Extractor.MAX_GAP) as [Hgap | Hgap];
      unfold Extractor.MAX_GAP in Hgap.
    + specialize (IH x [x] Hs Hhi). cbn [length]. lia.
    + specialize (IH x (current ++ [x]) Hs Hhi). lia.
Qed.

Lemma find_sequences_runs (frames : list Z) :
  Extractor.find_sequences frames = []  /\ frames = [] \/
  exists first rest,
    Py.sort frames = first :: rest /\
    Extractor.find_sequences frames
    = map Extractor.bounds (runs_from first rest [first]).
Proof.
  unfold Extractor.find_sequences.
  destruct (Py.sort frames) as [| first rest] eqn:Hsort.
  - left. split; [reflexivity |].
    apply Permutation_nil. rewrite <- Hsort.
    exact (merge_sort_Permutation Z.le frames).
  - right. exists first, rest. split; [reflexivity |].
    apply (walk_frames_runs first rest [first] []). discriminate.
Qed.

Lemma sort_Forall (P : Z -> Prop) (frames : list Z) :
  Forall P frames -> Forall P (Py.sort frames).
Proof.
  intros H. unfold Py.sort. rewrite merge_sort_Permutation. exact H.
Qed.

Lemma find_sequences_count (frames : list Z) :
  Forall (fun f => 0 <= f < 7000) frames ->
  Z.of_nat (length (Extractor.find_sequences frames)) <= 1000.
Proof.
  intros Hall. destruct (find_sequences_runs frames) as [[-> _] | (first & rest & Hsort & ->)].
  - cbn. lia.
  - rewrite length_map.
    pose proof (sort_Forall _ _ Hall) as Hs. rewrite Hsort in Hs.
    pose proof (runs_from_count 6999 first rest [first]) as Hcount.
    assert (Hsorted : Sorted Z.le (first :: rest)).
    { rewrite <- Hsort. apply Sorted_merge_sort, _. }
    apply Forall_cons in Hs as Hs'. destruct Hs' as [Hf _].
    specialize (Hcount Hsorted). lapply Hcount.
    + lia.
    + eapply Forall_impl; [exact Hs |]. cbn. intros; lia.
Qed.

Lemma refine_pattern_fresh (p : Z) (frames : list Z) (refined : Extractor.segments) :
  0 <= p -> Z.of_nat (length (Extractor.find_sequences frames)) <= 1000 ->
  (forall key, key ∈ map fst refined -> key / 1000 <> p) ->
  Extractor.refine_pattern refined (p, frames)
  = inr (refined ++ map (keyed p) (Py.enumerate (Extractor.find_sequences frames))).
Proof.
  intros Hp Hlen Hfresh. unfold Extractor.refine_pattern.
  destruct frames as [| f frames'].
  - cbn. rewrite app_nil_r. reflexivity.
  - unfold Py.enumerate, Py.range.
    apply (add_sequences_fresh p _ 0 refined); [lia | lia | lia |].
    intros key Hin Hk. apply (Hfresh key Hin). apply key_between. lia.
Qed.

Lemma keyed_keys (p : Z) (seqs : list (Z * Z)) (key : Z) :
  Z.of_nat (length seqs) <= 1000 ->
  key ∈ map fst (map (keyed p) (Py.enumerate seqs)) ->
  key / 1000 = p /\ 0 <= key mod 1000 < Z.of_nat (length seqs).
Proof.
  intros Hlen Hin. rewrite map_map in Hin.
  apply list_elem_of_fmap in Hin as ([i se] & -> & Hin).
  apply elem_of_enumerate in Hin as [Hi Hl].
  apply lookup_lt_Some in Hl. cbn [keyed fst].
  rewrite key_div, key_mod by lia. lia.
Qed.

Lemma refine_fold (time_lapse : list (Z * list Z)) (refined : Extractor.segments) :
  NoDup (map fst time_lapse) ->
  from_view 7000 time_lapse ->
  (forall key, key ∈ map fst refined -> key / 1000 ∉ map fst time_lapse) ->
  NoDup (map fst refined) ->
  for_each Extractor.refine_pattern time_lapse refined
  = inr (refined ++ segments_of time_lapse) /\
  NoDup (map fst (refined ++ segments_of time_lapse)).
Proof.
  revert refined. induction time_lapse as [| [p frames] tl IH];
    intros refined Hnd Hview Hfresh Hkeys.
  - cbn. rewrite app_nil_r. split; [reflexivity | exact Hkeys].
  - cbn [map fst] in Hnd. apply NoDup_cons in Hnd as [Hp Hnd].
    apply Forall_cons in Hview as [[Hp0 Hframes] Hview]. cbn [fst snd] in Hp0, Hframes.
    pose proof (find_sequences_count frames Hframes) as Hlen.
    cbn [for_each segments_of flat_map fst snd].
    rewrite refine_pattern_fresh; [| exact Hp0 | exact Hlen |].
    + cbn [bind]. fold (segments_of tl). rewrite app_assoc. apply IH.
      * exact Hnd.
      * exact Hview.
      * intros key Hin. rewrite map_app, elem_of_app in Hin.
        destruct Hin as [Hin | Hin].
        -- specialize (Hfresh key Hin). cbn [map fst] in Hfresh.
           rewrite not_elem_of_cons in Hfresh. tauto.
        -- apply keyed_keys in Hin as [-> _]; [exact Hp | exact Hlen].
      * rewrite map_app. apply NoDup_app. split; [exact Hkeys |]. split.
        -- intros key Hin Hin'. apply keyed_keys in Hin' as [Hdiv _]; [| exact Hlen].
           specialize (Hfresh key Hin). apply Hfresh. rewrite Hdiv. left.
        -- rewrite map_map. apply NoDup_fmap_2_strong.
           ++ intros [i se] [j se'] Hi Hj Heq. cbn [keyed fst] in Heq.
              apply elem_of_enumerate in Hi as [Hi Hl], Hj as [Hj Hl'].
              assert (i = j) as -> by lia. congruence.
           ++ unfold Py.enumerate. apply NoDup_ListNoDup.
              apply NoDup_ListNoDup. clear.
              generalize (Extractor.find_sequences frames) as seqs. intros seqs.
              apply (NoDup_fmap_1 fst).
              assert (Hfst : fst <$> combine (Py.range (Z.of_nat (length seqs))) seqs
                             = Py.range (Z.of_nat (length seqs))).
              { change (fst <$> ?l) with (map fst l). apply combine_fst.
                unfold Py.range, Py.range2. rewrite length_map, length_seq. lia. }
              rewrite Hfst. apply range_NoDup.
    + intros key Hin Hdiv. specialize (Hfresh key Hin). apply Hfresh.
      rewrite Hdiv. left.
Qed.

(** X14. In a view of at most 7000 frames the composite keys never
    collide: for the time lapse of such a view, [_refine_time_lapse]
    returns without raising the sequences of every pattern in order, the
    [i]-th sequence of pattern [p] under the key [p * 1000 + i], all keys
    distinct, and division and remainder by 1000 of every key give back the
    pattern index and the sequence number. *)
Theorem X14_no_key_collision_up_to_7000_frames
    (time_lapse : list (Z * list Z)) (view_idx total_frames : Z) :
  NoDup (map fst time_lapse) ->
  total_frames <= 7000 ->
  from_view total_frames time_lapse ->
  Extractor._refine_time_lapse time_lapse view_idx = inr (segments_of time_lapse) /\
  NoDup (map fst (segments_of time_lapse)) /\
  (forall key se,
      (key, se) ∈ segments_of time_lapse <->
      exists frames,
        (key / 1000, frames) ∈ time_lapse /\ 0 <= key mod 1000 /\
        Extractor.find_sequences frames !! Z.to_nat (key mod 1000) = Some se) .
Proof.
  intros Hnd Htotal Hview.
  assert (Hview' : from_view 7000 time_lapse).
  { eapply Forall_impl; [exact Hview |]. intros [p frames] [Hp Hf]. split; [exact Hp |].
    eapply Forall_impl; [exact Hf |]. cbn. intros; lia. }
  destruct (refine_fold time_lapse [] Hnd Hview') as [Hrun Hkeys].
  - intros key Hin. cbn in Hin. apply elem_of_nil in Hin. contradiction.
  - constructor.
  - cbn [app] in Hrun, Hkeys. split; [exact Hrun |]. split; [exact Hkeys |].
    intros key se. unfold segments_of. rewrite list_elem_of_In, in_flat_map. split.
    + intros ([p frames] & Hin & Hse). cbn [fst snd] in Hse.
      apply list_elem_of_In, list_elem_of_fmap in Hse as ([i se'] & Heq & Hi).
      cbn [keyed fst snd] in Heq. inversion Heq; subst. clear Heq.
      apply elem_of_enumerate in Hi as [Hi Hl].
      unfold from_view in Hview'. rewrite Forall_forall in Hview'.
      apply list_elem_of_In in Hin.
      destruct (Hview' _ Hin) as [_ Hf]. cbn [snd] in Hf.
      pose proof (find_sequences_count frames Hf) as Hlen.
      pose proof (lookup_lt_Some _ _ _ Hl) as Hlt.
      rewrite key_div, key_mod by lia. exists frames. auto.
    + intros (frames & Hin & Hmod & Hl). exists (key / 1000, frames).
      split; [apply list_elem_of_In, Hin |]. cbn [fst snd].
      apply list_elem_of_In, list_elem_of_fmap. exists (key mod 1000, se). split.
      * unfold keyed. cbn [fst snd]. f_equal. pose proof (Z.div_mod key 1000 ltac:(lia)). lia.
      * apply elem_of_enumerate. auto.
Qed.

(** The [[start, end]] pairs of the runs: each starts no earlier than the
    run in progress, ends no earlier than it starts, and the next pair
    starts more than [MAX_GAP] after the end of the one before. *)
Lemma runs_from_bounds (prev : Z) (rest current : list Z) :
  Sorted Z.le (prev :: rest) ->
  current <> [] -> List.last current 0 = prev -> hd 0 current <= prev ->
  Forall (fun se : Z * Z => hd 0 current <= se.1 /\ se.1 <= se.2)
         (map Extractor.bounds (runs_from prev rest current)) /\
  StronglySorted (fun a b : Z * Z => a.2 + Extractor.MAX_GAP < b.1)
                 (map Extractor.bounds (runs_from prev rest current)).
Proof.
  revert prev current.
  induction rest as [| x rest IH]; intros prev current Hs Hne Hlast Hhd.
  - cbn [runs_from map]. unfold Extractor.bounds. rewrite Hlast. split.
    + constructor; [cbn [fst snd]; lia | constructor].
    + repeat constructor.
  - apply Sorted_inv in Hs as [Hs Hrel]. apply HdRel_inv in Hrel.
    cbn [runs_from].
    destruct (Z.gtb_spec (x - prev) Extractor.MAX_GAP) as [Hgap | Hgap].
    + destruct (IH x [x] Hs ltac:(discriminate) eq_refl ltac:(cbn; lia)) as [Hall Hsorted].
      cbn [hd] in Hall. cbn [map]. unfold Extractor.bounds at 1 3. rewrite Hlast. split.
      * constructor; [cbn [fst snd]; lia |].
        eapply Forall_impl; [exact Hall |]. intros se [H1 H2]. lia.
      * constructor; [exact Hsorted |].
        eapply Forall_impl; [exact Hall |]. intros se [H1 H2]. cbn [fst snd]. lia.
    + destruct (IH x (current ++ [x]) Hs) as [Hall Hsorted].
      * destruct current; discriminate.
      * apply last_snoc.
      * rewrite hd_snoc by exact Hne. lia.
      * rewrite hd_snoc in Hall by exact Hne. split; assumption.
Qed.

Lemma hd_elem (l : list Z) : l <> [] -> hd 0 l ∈ l.
Proof. destruct l; [congruence | left]. Qed.

Lemma last_elem (l : list Z) : l <> [] -> List.last l 0 ∈ l.
Proof.
  induction l as [| x l IH]; [congruence |]. intros _.
  destruct l as [| y l]; [left |]. right. apply IH. discriminate.
Qed.

Lemma runs_from_frames (prev : Z) (rest current : list Z) :
  current <> [] ->
  Forall (fun se : Z * Z => se.1 ∈ current ++ rest /\ se.2 ∈ current ++ rest)
         (map Extractor.bounds (runs_from prev rest current)).
Proof.
  revert prev current. induction rest as [| x rest IH]; intros prev current Hne.
  - cbn [runs_from map]. constructor; [| constructor]. rewrite app_nil_r.
    unfold Extractor.bounds. cbn [fst snd].
    split; [apply hd_elem | apply last_elem]; exact Hne.
  - cbn [runs_from]. destruct (x - prev >? Extractor.MAX_GAP).
    + cbn [map]. constructor.
      * unfold Extractor.bounds. cbn [fst snd].
        split; apply elem_of_app; left; [apply hd_elem | apply last_elem]; exact Hne.
      * specialize (IH x [x] ltac:(discriminate)).
        eapply Forall_impl; [exact IH |]. intros se [H1 H2].
        split; apply elem_of_app; right; assumption.
    + specialize (IH x (current ++ [x])). rewrite <- app_assoc in IH. apply IH.
      destruct current; discriminate.
Qed.

Lemma StronglySorted_lookup {A : Type} (R : A -> A -> Prop) (l : list A)
    (i j : nat) (a b : A) :
  StronglySorted R l -> l !! i = Some a -> l !! j = Some b -> (i < j)%nat -> R a b.
Proof.
  intros Hs. revert i j. induction Hs as [| x l Hs IH Hall]; intros i j Hi Hj Hlt.
  - discriminate Hi.
  - destruct j as [| j]; [lia |]. cbn in Hj. destruct i as [| i].
    + cbn in Hi. inversion Hi; subst. rewrite Forall_forall in Hall.
      apply Hall. eapply list_elem_of_lookup_2. exact Hj.
    + cbn in Hi. apply (IH i j Hi Hj). lia.
Qed.

(** What [find_sequences] returns on the saved frames of a view. *)
Lemma find_sequences_facts (total_frames : Z) (frames : list Z) :
  Forall (fun f => 0 <= f < total_frames) frames ->
  Forall (fun se : Z * Z => 0 <= se.1 /\ se.1 <= se.2 /\ se.2 < total_frames)
         (Extractor.find_sequences frames) /\
  StronglySorted (fun a b : Z * Z => a.2 + Extractor.MAX_GAP < b.1)
                 (Extractor.find_sequences frames).
Proof.
  intros Hall.
  destruct (find_sequences_runs frames) as [[-> _] | (first & rest & Hsort & ->)].
  - split; constructor.
  - assert (Hsorted : Sorted Z.le (first :: rest)).
    { rewrite <- Hsort. apply Sorted_merge_sort, _. }
    destruct (runs_from_bounds first rest [first] Hsorted
                ltac:(discriminate) eq_refl ltac:(cbn; lia)) as [Hb Hs].
    split; [| exact Hs].
    pose proof (runs_from_frames first rest [first] ltac:(discriminate)) as Hin.
    pose proof (sort_Forall _ _ Hall) as Hrange. rewrite Hsort in Hrange.
    rewrite Forall_forall in Hrange. rewrite Forall_forall in Hb.
    rewrite Forall_forall in Hin. apply Forall_forall. intros se Hse.
    destruct (Hb se Hse) as [_ Hle]. destruct (Hin se Hse) as [H1 H2].
    cbn [app] in H1, H2.
    pose proof (Hrange _ H1). pose proof (Hrange _ H2). cbn beta in *. lia.
Qed.

(** X15. Padding never makes two sequences of one pattern overlap, for a
    padding of at most half of [MAX_GAP] (the code pads by 3): for the
    time lapse of a view of at most 7000 frames, every padded interval is
    a non-empty range of frame indices of the view that contains the
    sequence it comes from, and of two padded intervals of the same
    pattern the one with the smaller key ends before the other starts. *)
Theorem X15_padded_sequences_do_not_overlap
    (time_lapse : list (Z * list Z)) (view_idx total_frames n : Z) :
  NoDup (map fst time_lapse) ->
  total_frames <= 7000 ->
  from_view total_frames time_lapse ->
  0 <= n -> 2 * n <= Extractor.MAX_GAP ->
  exists refined,
    Extractor._refine_time_lapse time_lapse view_idx = inr refined /\
    let extended := Extractor._add_head_tail total_frames refined n in
    map fst extended = map fst refined /\
    (forall key s e,
        (key, (s, e)) ∈ extended ->
        0 <= s /\ s <= e /\ e < total_frames /\
        exists s0 e0, (key, (s0, e0)) ∈ refined /\ s <= s0 /\ s0 <= e0 /\ e0 <= e) /\
    (forall k1 s1 e1 k2 s2 e2,
        (k1, (s1, e1)) ∈ extended -> (k2, (s2, e2)) ∈ extended ->
        k1 / 1000 = k2 / 1000 -> k1 < k2 -> e1 < s2).
Proof.
  intros Hnd Htotal Hview Hn Hgap.
  assert (Hview' : from_view 7000 time_lapse).
  { eapply Forall_impl; [exact Hview |]. intros [p frames] [Hp Hf]. split; [exact Hp |].
    eapply Forall_impl; [exact Hf |]. cbn. intros; lia. }
  destruct (refine_fold time_lapse [] Hnd Hview') as [Hrun Hkeys].
  { intros key Hin. cbn in Hin. apply elem_of_nil in Hin. contradiction. }
  { constructor. }
  cbn [app] in Hrun, Hkeys. exists (segments_of time_lapse).
  split; [exact Hrun |]. cbn zeta.
  rewrite (add_head_tail_map _ _ _ Hkeys).
  (* an entry of the refined dictionary, traced back to its pattern *)
  assert (Horigin : forall key s e,
             (key, (s, e)) ∈ segments_of time_lapse ->
             exists frames,
               (key / 1000, frames) ∈ time_lapse /\ 0 <= key mod 1000 /\
               Extractor.find_sequences frames !! Z.to_nat (key mod 1000)
               = Some (s, e) /\
               Forall (fun f => 0 <= f < total_frames) frames).
  { intros key s e Hin. unfold segments_of in Hin.
    apply list_elem_of_In, in_flat_map in Hin as ([p frames] & Hin & Hse).
    cbn [fst snd] in Hse.
    apply list_elem_of_In, list_elem_of_fmap in Hse as ([i se'] & Heq & Hi).
    unfold keyed in Heq. cbn [fst snd] in Heq. inversion Heq; subst. clear Heq.
    apply elem_of_enumerate in Hi as [Hi Hl].
    apply list_elem_of_In in Hin.
    unfold from_view in Hview, Hview'. rewrite Forall_forall in Hview, Hview'.
    destruct (Hview' _ Hin) as [_ Hf']. destruct (Hview _ Hin) as [_ Hf].
    cbn [snd] in Hf, Hf'.
    pose proof (find_sequences_count frames Hf') as Hlen.
    pose proof (lookup_lt_Some _ _ _ Hl) as Hlt.
    rewrite key_div, key_mod by lia. exists frames. auto. }
  split; [| split].
  - rewrite map_map. apply map_ext. intros [key [s e]]. reflexivity.
  - intros key s e Hin.
    apply list_elem_of_fmap in Hin as ([key0 [s0 e0]] & Heq & Hin).
    unfold padded in Heq. cbn [fst snd] in Heq. inversion Heq; subst. clear Heq.
    destruct (Horigin _ _ _ Hin) as (frames & _ & _ & Hl & Hf).
    destruct (find_sequences_facts total_frames frames Hf) as [Hb _].
    rewrite Forall_forall in Hb.
    pose proof (Hb _ (list_elem_of_lookup_2 _ _ _ Hl)) as Hse. cbn [fst snd] in Hse.
    split; [lia |]. split; [lia |]. split; [lia |].
    exists s0, e0. split; [exact Hin | lia].
  - intros k1 s1 e1 k2 s2 e2 Hin1 Hin2 Hdiv Hlt.
    apply list_elem_of_fmap in Hin1 as ([k1' [a1 b1]] & Heq1 & Hin1).
    apply list_elem_of_fmap in Hin2 as ([k2' [a2 b2]] & Heq2 & Hin2).
    unfold padded in Heq1, Heq2. cbn [fst snd] in Heq1, Heq2.
    inversion Heq1; subst. inversion Heq2; subst. clear Heq1 Heq2.
    destruct (Horigin _ _ _ Hin1) as (frames & Htl1 & Hm1 & Hl1 & Hf).
    destruct (Horigin _ _ _ Hin2) as (frames' & Htl2 & Hm2 & Hl2 & _).
    rewrite <- Hdiv in Htl2.
    assert (frames' = frames) as ->.
    { pose proof (dict_get_elem_of _ _ _ Hnd Htl1) as H1.
      pose proof (dict_get_elem_of _ _ _ Hnd Htl2) as H2. congruence. }
    destruct (find_sequences_facts total_frames frames Hf) as [_ Hs].
    assert (Hidx : (Z.to_nat (k1' mod 1000) < Z.to_nat (k2' mod 1000))%nat).
    { pose proof (Z.div_mod k1' 1000 ltac:(lia)).
      pose proof (Z.div_mod k2' 1000 ltac:(lia)). lia. }
    pose proof (StronglySorted_lookup _ _ _ _ _ _ Hs Hl1 Hl2 Hidx) as Hsep.
    cbn [fst snd] in Hsep. lia.
Qed.

Section ExportFacts.
Context {contour : Type} (ext : CellGenerator.externals contour).

Local Abbreviation generator := (CellGenerator.t contour).

Lemma same_view_refl (g : generator) : same_view g g.
Proof. repeat split. Qed.

Lemma same_view_trans (g1 g2 g3 : generator) :
  same_view g1 g2 -> same_view g2 g3 -> same_view g1 g3.
Proof.
  unfold same_view. intros (?&?&?&?&?&?&?&?) (?&?&?&?&?&?&?&?).
  repeat split; congruence.
Qed.

Lemma load_nuclei_same_view (frame_idx : Z) (g g' : generator) :
  CellGenerator.load_nuclei ext frame_idx g = inr g' ->
  same_view g g' /\ CellGenerator.frame_cyto g' = CellGenerator.frame_cyto g.
Proof.
  unfold CellGenerator.load_nuclei. destruct (frame_idx >=? CellGenerator.n_frames g);
    [discriminate |].
  destruct (CellGenerator.cells_get_frame_2D ext 0 frame_idx _); [discriminate |].
  intros Heq. inversion Heq; subst. repeat split.
Qed.

Lemma load_cyto_same_view (frame_idx : Z) (g g' : generator) :
  CellGenerator.load_cyto ext frame_idx g = inr g' ->
  same_view g g' /\ CellGenerator.frame_nuclei g' = CellGenerator.frame_nuclei g.
Proof.
  unfold CellGenerator.load_cyto. destruct (frame_idx >=? CellGenerator.n_frames g);
    [discriminate |].
  destruct (CellGenerator.cells_get_frame_2D ext 1 frame_idx _); [discriminate |].
  intros Heq. inversion Heq; subst. repeat split.
Qed.

(** One iteration of the loop over the frames of a segment appends to
    both stacks or to none. *)
Lemma extract_frame_stacks (key frame_idx : Z) (g g' : generator)
    (ns cs ns' cs' : list CellGenerator.image) :
  Extractor.extract_frame ext key (g, ns, cs) frame_idx = (g', ns', cs') ->
  same_view g g' /\
  ((ns' = ns /\ cs' = cs) \/ (exists a b, ns' = ns ++ [a] /\ cs' = cs ++ [b])).
Proof.
  unfold Extractor.extract_frame.
  destruct (CellGenerator.load_nuclei ext frame_idx g) as [? | g1] eqn:H1.
  { intros Heq. inversion Heq; subst. split; [apply same_view_refl | left; auto]. }
  apply load_nuclei_same_view in H1 as [H1 _].
  destruct (CellGenerator.load_cyto ext frame_idx g1) as [? | g2] eqn:H2.
  { intros Heq. inversion Heq; subst. split; [exact H1 | left; auto]. }
  apply load_cyto_same_view in H2 as [H2 _].
  pose proof (same_view_trans _ _ _ H1 H2) as H12.
  destruct (CellGenerator.extract_nuclei g2 key).
  { intros Heq. inversion Heq; subst. split; [exact H12 | left; auto]. }
  destruct (CellGenerator.extract_cyto g2 key).
  { intros Heq. inversion Heq; subst. split; [exact H12 | left; auto]. }
  intros Heq. inversion Heq; subst. split; [exact H12 | right; eauto].
Qed.

Lemma extract_frames_stacks (key : Z) (frames : list Z) (g g' : generator)
    (ns cs ns' cs' : list CellGenerator.image) :
  fold_left (Extractor.extract_frame ext key) frames (g, ns, cs) = (g', ns', cs') ->
  length ns = length cs ->
  same_view g g' /\ length ns' = length cs' /\
  (length ns' <= length ns + length frames)%nat.
Proof.
  revert g ns cs. induction frames as [| t frames IH]; intros g ns cs Hrun Hlen.
  - cbn in Hrun. inversion Hrun; subst. split; [apply same_view_refl |]. cbn. lia.
  - cbn [fold_left] in Hrun.
    destruct (Extractor.extract_frame ext key (g, ns, cs) t) as [[g1 ns1] cs1] eqn:Hstep.
    apply extract_frame_stacks in Hstep as [Hsame Hst].
    assert (Hlen1 : length ns1 = length cs1 /\ (length ns1 <= S (length ns))%nat).
    { destruct Hst as [[-> ->] | (a & b & -> & ->)];
        [| rewrite !length_app; cbn [length]]; lia. }
    destruct (IH g1 ns1 cs1 Hrun (proj1 Hlen1)) as (Hsame' & Hlen' & Hle).
    split; [exact (same_view_trans _ _ _ Hsame Hsame') |].
    split; [exact Hlen' |]. cbn [length]. lia.
Qed.

Lemma assign_channel_length (n_frames : Z) (stack red : list CellGenerator.image) :
  Extractor.assign_channel n_frames stack = inr red ->
  stack <> [] -> (length stack <= Z.to_nat n_frames)%nat ->
  Z.of_nat (length red) = n_frames.
Proof.
  unfold Extractor.assign_channel. intros Hrun Hne Hle.
  destruct (Z.eqb_spec (Z.of_nat (length stack)) n_frames) as [Heq | Hneq].
  - inversion Hrun; subst. reflexivity.
  - destruct stack as [| frame [| ? ?]]; try discriminate Hrun.
    inversion Hrun; subst. rewrite length_replicate. cbn [length] in Hle. lia.
Qed.

Lemma range2_length (a b : Z) : length (Py.range2 a b) = Z.to_nat (b - a).
Proof. unfold Py.range2. rewrite length_map, length_seq. reflexivity. Qed.

(** The branch [if not nuclei_stack or not cyto_stack: continue]. *)
Ltac empty_directory Hsame :=
  let Heq := fresh "Heq" in
  intros Heq; inversion Heq; subst; split; [exact Hsame |]; right;
  split; [reflexivity |]; eexists; split; [reflexivity |];
  unfold exports, dir_of; cbn; repeat split; try discriminate.

(** One iteration of the loop over the padded segments. *)
Lemma export_segment_spec (view_idx min_frames : Z) (g g' : generator)
    (dirs dirs' : list Extractor.time_lapse_dir) (item : Z * (Z * Z)) :
  Extractor.export_segment ext view_idx min_frames (g, dirs) item = inr (g', dirs') ->
  same_view g g' /\
  ((long_enough min_frames item = false /\ dirs' = dirs) \/
   (long_enough min_frames item = true /\
    exists d, dirs' = dirs ++ [d] /\ exports view_idx d item)).
Proof.
  destruct item as [key [s e]]. unfold Extractor.export_segment, long_enough.
  cbn [fst snd]. destruct (e - s + 1 <? min_frames).
  { intros Heq. inversion Heq; subst. split; [apply same_view_refl | left; auto]. }
  destruct (fold_left (Extractor.extract_frame ext key) (Py.range2 s (e + 1)) (g, [], []))
    as [[g1 ns] cs] eqn:Hfold.
  apply extract_frames_stacks in Hfold as (Hsame & Hlen & Hle); [| reflexivity].
  rewrite range2_length in Hle. cbn [length] in Hle.
  replace (e + 1 - s) with (e - s + 1) in Hle by lia.
  destruct ns as [| n0 ns]; [destruct cs; empty_directory Hsame |].
  destruct cs as [| c0 cs]; [empty_directory Hsame |].
  destruct (Extractor.assign_channel (e - s + 1) (n0 :: ns)) as [? | red] eqn:Hred;
    [discriminate |].
  destruct (Extractor.assign_channel (e - s + 1) (c0 :: cs)) as [? | green] eqn:Hgreen;
    [discriminate |].
  apply assign_channel_length in Hred; [| discriminate | lia].
  apply assign_channel_length in Hgreen; [| discriminate | lia].
  cbn [bind].
  destruct (CellGenerator.extract_pattern g1 key) as [? | pattern];
    intros Heq; inversion Heq; subst; (split; [exact Hsame |]); right;
    (split; [reflexivity |]); eexists; (split; [reflexivity |]);
    unfold exports, dir_of; cbn [fst snd Extractor.dir_name Extractor.frames_tif
                                   Extractor.pattern_tif Extractor.frames_json].
  - split; [reflexivity |]. split; [| split; [discriminate | reflexivity]].
    intros r gr Hs. inversion Hs; subst. auto.
  - split; [reflexivity |]. split; [| split; [| discriminate]].
    + intros r gr Hs. inversion Hs; subst. auto.
    + intros stack Hs. inversion Hs; subst. split; [eauto |]. split; [eauto | reflexivity].
Qed.

Lemma export_segments_spec (view_idx min_frames : Z) (items : list (Z * (Z * Z)))
    (g g' : generator) (dirs dirs' : list Extractor.time_lapse_dir) :
  for_each (Extractor.export_segment ext view_idx min_frames) items (g, dirs)
  = inr (g', dirs') ->
  same_view g g' /\
  exists new, dirs' = dirs ++ new /\
              Forall2 (exports view_idx) new
                      (List.filter (long_enough min_frames) items).
Proof.
  revert g dirs. induction items as [| item items IH]; intros g dirs Hrun.
  - cbn in Hrun. inversion Hrun; subst. split; [apply same_view_refl |].
    exists []. rewrite app_nil_r. split; [reflexivity | constructor].
  - cbn [for_each] in Hrun.
    destruct (Extractor.export_segment ext view_idx min_frames (g, dirs) item)
      as [? | [g1 dirs1]] eqn:Hstep; [discriminate |].
    cbn [bind] in Hrun.
    apply export_segment_spec in Hstep as [Hsame Hstep].
    destruct (IH g1 dirs1 Hrun) as (Hsame' & new & -> & Hnew).
    split; [exact (same_view_trans _ _ _ Hsame Hsame') |].
    cbn [List.filter].
    destruct Hstep as [[-> ->] | (-> & d & -> & Hd)].
    + exists new. auto.
    + exists (d :: new). rewrite <- app_assoc. split; [reflexivity |].
      constructor; assumption.
Qed.

(** X16. What [_process_time_series_file] leaves behind when it returns:
    the view index is a view of the files, and there is one directory for
    every padded segment that has at least [min_frames] frames, in the
    order of the padded dictionary and none for the others; the directory
    of a segment with key [k] is named by [k // 1000] and [k % 1000], its
    stacks have as many frames as the segment, and [frames.json] with
    start, end and number of frames is there exactly when [pattern.tif]
    is, which in turn is only there next to [frames.tif]. *)
Theorem X16_one_directory_per_long_segment
    (view_idx min_frames : Z) (time_lapse : list (Z * list Z))
    (g g' : generator) (dirs : list Extractor.time_lapse_dir) :
  Extractor._process_time_series_file ext view_idx time_lapse min_frames g
  = inr (g', dirs) ->
  0 <= view_idx < CellGenerator.n_views g /\
  CellGenerator.current_view g' = view_idx /\
  exists refined,
    Extractor._refine_time_lapse time_lapse view_idx = inr refined /\
    Forall2 (exports view_idx) dirs
      (List.filter (long_enough min_frames)
         (Extractor._add_head_tail (CellGenerator.n_frames g) refined 3)).
Proof.
  unfold Extractor._process_time_series_file. intros Hrun.
  destruct (Extractor._refine_time_lapse time_lapse view_idx) as [? | refined];
    [discriminate |].
  cbn [bind] in Hrun.
  destruct (CellGenerator.load_view view_idx g) as [? | g1] eqn:Hview; [discriminate |].
  cbn [bind] in Hrun.
  destruct (CellGenerator.load_patterns ext g1) as [? | g2] eqn:Hpat; [discriminate |].
  cbn [bind] in Hrun.
  destruct (CellGenerator.process_patterns ext g2) as [? | g3] eqn:Hproc; [discriminate |].
  cbn [bind] in Hrun.
  destruct (for_each _ _ (g3, [])) as [? | [g4 dirs4]] eqn:Hloop; [discriminate |].
  cbn [reraise_as] in Hrun. inversion Hrun; subst. clear Hrun.
  apply export_segments_spec in Hloop as (Hsame & new & Hnew & Hall).
  cbn [app] in Hnew. subst new.
  unfold CellGenerator.load_view in Hview.
  destruct (Z.geb_spec view_idx (CellGenerator.n_views g)) as [? | Hhi];
    [discriminate |].
  destruct (Z.ltb_spec view_idx 0) as [? | Hlo]; [discriminate |].
  cbn [orb] in Hview. inversion Hview; subst. clear Hview.
  assert (Hcur : CellGenerator.current_view g3 = view_idx).
  { unfold CellGenerator.load_patterns in Hpat. cbn [CellGenerator.current_view] in Hpat.
    destruct (CellGenerator.patterns_get_frame_2D ext 0 0 view_idx); [discriminate |].
    inversion Hpat; subst. clear Hpat.
    destruct (process_patterns_inv ext _ _ Hproc) as (img & data & _ & _ & _ & ->).
    reflexivity. }
  split; [lia |]. split.
  - destruct Hsame as (_ & _ & Hc & _). congruence.
  - exists refined. split; [reflexivity | exact Hall].
Qed.

(** The frames of a segment that all load and crop: every iteration
    appends the two crops. *)
Lemma extract_frames_loaded (key : Z) (boxes : list CellGenerator.bbox)
    (b : CellGenerator.bbox) (nuc cyt : Z -> CellGenerator.image)
    (frames : list Z) (g : generator) (ns cs : list CellGenerator.image) :
  CellGenerator.bounding_boxes g = Some boxes ->
  0 <= key < CellGenerator.n_patterns g ->
  boxes !! Z.to_nat key = Some b ->
  Forall (fun t => t < CellGenerator.n_frames g /\
                   CellGenerator.cells_get_frame_2D ext 0 t (CellGenerator.current_view g)
                   = inr (nuc t) /\
                   CellGenerator.cells_get_frame_2D ext 1 t (CellGenerator.current_view g)
                   = inr (cyt t)) frames ->
  exists g',
    fold_left (Extractor.extract_frame ext key) frames (g, ns, cs)
    = (g', ns ++ map (fun t => CellGenerator.crop (nuc t) b) frames,
           cs ++ map (fun t => CellGenerator.crop (cyt t) b) frames) /\
    same_view g g'.
Proof.
  intros Hboxes Hkey Hb. revert g ns cs Hboxes Hkey.
  induction frames as [| t frames IH]; intros g ns cs Hboxes Hkey Hall.
  - exists g. cbn. rewrite !app_nil_r. split; [reflexivity | apply same_view_refl].
  - apply Forall_cons in Hall as [(Ht & Hn & Hc) Hall].
    cbn [fold_left map].
    assert (Hstep : exists g2,
               Extractor.extract_frame ext key (g, ns, cs) t
               = (g2, ns ++ [CellGenerator.crop (nuc t) b],
                      cs ++ [CellGenerator.crop (cyt t) b]) /\
               same_view g g2).
    { unfold Extractor.extract_frame, CellGenerator.load_nuclei.
      destruct (Z.geb_spec t (CellGenerator.n_frames g)) as [? | _]; [lia |].
      rewrite Hn. cbn [ret].
      unfold CellGenerator.load_cyto. cbn [CellGenerator.n_frames CellGenerator.current_view].
      destruct (Z.geb_spec t (CellGenerator.n_frames g)) as [? | _]; [lia |].
      rewrite Hc. cbn [ret].
      unfold CellGenerator.extract_nuclei, CellGenerator.extract_cyto,
        CellGenerator._extract_region.
      cbn [CellGenerator.frame_nuclei CellGenerator.frame_cyto CellGenerator.n_patterns
             CellGenerator.bounding_boxes].
      destruct (Z.geb_spec key (CellGenerator.n_patterns g)) as [? | _]; [lia |].
      destruct (Z.ltb_spec key 0) as [? | _]; [lia |].
      cbn [orb]. rewrite Hboxes, Hb. cbn [ret].
      eexists. split; [reflexivity |].
      repeat split; cbn [CellGenerator.bounding_boxes]; congruence. }
    destruct Hstep as (g2 & -> & Hsame2).
    destruct Hsame2 as (Hv & Hf & Hcur & Hp & Hnp & Hcs & Hbb & Hce).
    destruct (IH g2 (ns ++ [CellGenerator.crop (nuc t) b])
                (cs ++ [CellGenerator.crop (cyt t) b])) as (g' & Hrun & Hsame).
    + congruence.
    + rewrite Hnp. exact Hkey.
    + rewrite Hf, Hcur. exact Hall.
    + exists g'. rewrite Hrun, <- !app_assoc. split; [reflexivity |].
      apply (same_view_trans g g2 g'); [repeat split; assumption | exact Hsame].
Qed.

(** X17. A segment all of whose frames can be read, under a key that is
    the index of a detected pattern, is exported whole: [frames.tif]
    holds for every frame of [[start, end]] in order the nuclei and the
    cytoplasm image cropped to the bounding box at index [key];
    [pattern.tif] holds as many copies of the pattern image cropped to
    the same box; [frames.json] records start, end and their count. *)
Theorem X17_readable_segment_is_exported_whole
    (view_idx min_frames key s e : Z) (g : generator)
    (dirs : list Extractor.time_lapse_dir)
    (boxes : list CellGenerator.bbox) (b : CellGenerator.bbox)
    (mask : CellGenerator.image) (nuc cyt : Z -> CellGenerator.image) :
  CellGenerator.bounding_boxes g = Some boxes ->
  CellGenerator.patterns g = Some mask ->
  0 <= key < CellGenerator.n_patterns g ->
  boxes !! Z.to_nat key = Some b ->
  s <= e -> e < CellGenerator.n_frames g -> min_frames <= e - s + 1 ->
  (forall t, s <= t <= e ->
             CellGenerator.cells_get_frame_2D ext 0 t (CellGenerator.current_view g)
             = inr (nuc t) /\
             CellGenerator.cells_get_frame_2D ext 1 t (CellGenerator.current_view g)
             = inr (cyt t)) ->
  exists g',
    Extractor.export_segment ext view_idx min_frames (g, dirs) (key, (s, e))
    = inr (g',
           dirs ++ [Extractor.mk_dir (view_idx, key / 1000, key mod 1000)
                      (Some (map (fun t => CellGenerator.crop (nuc t) b)
                                 (Py.range2 s (e + 1)),
                             map (fun t => CellGenerator.crop (cyt t) b)
                                 (Py.range2 s (e + 1))))
                      (Some (replicate (Z.to_nat (e - s + 1))
                                       (CellGenerator.crop mask b)))
                      (Some (s, e, e - s + 1))]) /\
    same_view g g'.
Proof.
  intros Hboxes Hmask Hkey Hb Hse He Hmin Hread.
  destruct (extract_frames_loaded key boxes b nuc cyt (Py.range2 s (e + 1)) g [] []
              Hboxes Hkey Hb) as (g' & Hfold & Hsame).
  { apply Forall_forall. intros t Ht. apply elem_of_range2 in Ht.
    split; [lia |]. apply Hread. lia. }
  exists g'. split; [| exact Hsame].
  unfold Extractor.export_segment.
  destruct (Z.ltb_spec (e - s + 1) min_frames) as [? | _]; [lia |].
  rewrite Hfold. cbn [app].
  assert (Hlen : forall f : Z -> CellGenerator.image,
             Z.of_nat (length (map f (Py.range2 s (e + 1)))) = e - s + 1).
  { intros f. rewrite length_map, range2_length. lia. }
  assert (Hassign : forall f : Z -> CellGenerator.image,
             Extractor.assign_channel (e - s + 1) (map f (Py.range2 s (e + 1)))
             = inr (map f (Py.range2 s (e + 1)))).
  { intros f. unfold Extractor.assign_channel. rewrite Hlen, Z.eqb_refl. reflexivity. }
  pose proof (Hassign (fun t => CellGenerator.crop (nuc t) b)) as Hred.
  pose proof (Hassign (fun t => CellGenerator.crop (cyt t) b)) as Hgreen.
  assert (Hpattern : CellGenerator.extract_pattern g' key
                     = inr (CellGenerator.crop mask b)).
  { destruct Hsame as (_ & _ & _ & Hp & Hnp & _ & Hbb & _).
    unfold CellGenerator.extract_pattern, CellGenerator._extract_region.
    rewrite Hp, Hmask, Hnp, Hbb, Hboxes.
    destruct (Z.geb_spec key (CellGenerator.n_patterns g)) as [? | _]; [lia |].
    destruct (Z.ltb_spec key 0) as [? | _]; [lia |].
    cbn [orb]. rewrite Hb. reflexivity. }
  revert Hred Hgreen.
  rewrite (range2_cons s (e + 1)) by lia. cbn [map]. intros -> ->.
  cbn [bind]. rewrite Hpattern. reflexivity.
Qed.

End ExportFacts.

Lemma digit_is_plain (d : Z) (c : ascii) :
  is_digit d -> c = "."%char \/ c = "_"%char ->
  Ascii.eqb (Py.ascii_of_digit d) c = false.
Proof.
  intros Hd Hc.
  assert (Hall : forallb (fun d => negb (Ascii.eqb (Py.ascii_of_digit d) "."%char)
                                   && negb (Ascii.eqb (Py.ascii_of_digit d) "_"%char))
                         (Py.range 10) = true) by (vm_compute; reflexivity).
  rewrite forallb_forall in Hall.
  specialize (Hall d). rewrite <- list_elem_of_In in Hall.
  specialize (Hall (elem_of_range 10 d Hd)).
  apply andb_true_iff in Hall as [Hdot Hunder].
  destruct Hc as [-> | ->]; apply negb_true_iff; assumption.
Qed.

Lemma digits_are_plain (l : list Z) (c : ascii) :
  Forall is_digit l -> c = "."%char \/ c = "_"%char ->
  occurs c (Py.string_of_digits l) = false.
Proof.
  intros Hl Hc. induction Hl as [| d l Hd Hl IH]; [reflexivity |].
  cbn [Py.string_of_digits occurs]. rewrite (digit_is_plain d c Hd Hc). exact IH.
Qed.

Lemma str_is_plain (n : Z) (c : ascii) :
  c = "."%char \/ c = "_"%char -> occurs c (Files.str n) = false.
Proof.
  intros Hc. unfold Files.str. destruct (Z.ltb_spec n 0) as [Hn | Hn].
  - destruct (digits_spec (- n) ltac:(lia)) as (_ & Hd & _).
    cbn [occurs]. rewrite (digits_are_plain _ c Hd Hc).
    destruct Hc as [-> | ->]; reflexivity.
  - destruct (digits_spec n Hn) as (_ & Hd & _). exact (digits_are_plain _ c Hd Hc).
Qed.

Lemma rfind_absent (c : ascii) (s : string) :
  occurs c s = false -> Files.rfind c s = -1.
Proof.
  induction s as [| a s IH]; [reflexivity |]. cbn [occurs Files.rfind].
  intros Hocc. apply orb_false_iff in Hocc as [Ha Hs]. cbv zeta.
  rewrite (IH Hs), Ha. reflexivity.
Qed.

Lemma append_nil (b : string) : String.append EmptyString b = b.
Proof. reflexivity. Qed.

Lemma append_cons (x : ascii) (a b : string) :
  String.append (String x a) b = String x (String.append a b).
Proof. reflexivity. Qed.

Lemma rfind_append (c : ascii) (a b : string) :
  0 <= Files.rfind c b ->
  Files.rfind c (String.append a b)
  = Z.of_nat (String.length a) + Files.rfind c b.
Proof.
  intros Hb. induction a as [| x a IH];
    [rewrite append_nil; cbn [String.length]; lia |].
  rewrite append_cons. cbn [String.length Files.rfind]. cbv zeta. rewrite IH.
  destruct (Z.leb_spec 0 (Z.of_nat (String.length a) + Files.rfind c b)); lia.
Qed.

Lemma length_append (a b : string) :
  String.length (String.append a b) = (String.length a + String.length b)%nat.
Proof.
  induction a as [| x a IH]; [reflexivity |].
  rewrite append_cons. cbn [String.length]. rewrite IH. reflexivity.
Qed.

Lemma substring_prefix (a b : string) :
  substring 0 (String.length a) (String.append a b) = a.
Proof.
  induction a as [| x a IH].
  - rewrite append_nil. destruct b; reflexivity.
  - rewrite append_cons. cbn [String.length substring]. rewrite IH. reflexivity.
Qed.

Lemma split_absent (c : ascii) (s : string) :
  occurs c s = false -> Files.split c s = [s].
Proof.
  induction s as [| a s IH]; [reflexivity |]. cbn [occurs Files.split].
  intros Hocc. apply orb_false_iff in Hocc as [Ha Hs].
  rewrite Ha, (IH Hs). reflexivity.
Qed.

Lemma stem_of_json (a : string) :
  a <> EmptyString -> Files.stem (String.append a ".json") = a.
Proof.
  intros Hne. unfold Files.stem.
  rewrite (rfind_append "."%char a ".json") by (vm_compute; discriminate).
  change (Files.rfind "."%char ".json") with 0.
  rewrite length_append. change (String.length ".json") with 5%nat.
  assert (Hlen : (0 < String.length a)%nat).
  { destruct a; [congruence | cbn [String.length]; lia]. }
  destruct (Z.ltb_spec 0 (Z.of_nat (String.length a) + 0)) as [_ | ?]; [| lia].
  destruct (Z.ltb_spec (Z.of_nat (String.length a) + 0)
                       (Z.of_nat (String.length a + 5) - 1)) as [_ | ?]; [| lia].
  cbn [andb]. rewrite Z.add_0_r, Nat2Z.id. apply substring_prefix.
Qed.

Lemma int_of_str (n : Z) : Py.int_of_string (Files.str n) = inr n.
Proof.
  unfold Files.str. destruct (Z.ltb_spec n 0) as [Hn | Hn].
  - destruct (digits_spec (- n) ltac:(lia)) as (Hv & Hd & Hne).
    pose proof (parse_string_of_digits _ 0 Hd) as Hparse.
    destruct (Py.digits (- n)) as [| d l]; [congruence |].
    cbn [Py.string_of_digits Py.int_of_string] in *.
    change (Ascii.eqb "-"%char "-"%char) with true. cbn match.
    rewrite Hparse. cbn [bind ret]. rewrite Hv. f_equal. lia.
  - destruct (digits_spec n Hn) as (Hv & Hd & Hne).
    rewrite int_of_digit_string by assumption. rewrite Hv. reflexivity.
Qed.

Lemma keys_of_json_fold (time_lapse : list (Z * list Z)) (acc : list (Z * list Z)) :
  for_each (fun acc (item : string * list Z) =>
              do key <- Py.int_of_string item.1;
              ret (Py.dict_set key item.2 acc))
           (Files.json_of_keys time_lapse) acc
  = inr (fold_left (fun acc (item : Z * list Z) => Py.dict_set item.1 item.2 acc)
                   time_lapse acc).
Proof.
  revert acc. induction time_lapse as [| [k frames] tl IH]; intros acc; [reflexivity |].
  cbn [Files.json_of_keys map for_each fst snd fold_left].
  rewrite int_of_str. cbn [bind ret]. apply IH.
Qed.

Lemma dict_of_items {V : Type} (d acc : list (Z * V)) :
  NoDup (map fst (acc ++ d)) ->
  fold_left (fun acc (item : Z * V) => Py.dict_set item.1 item.2 acc) d acc = acc ++ d.
Proof.
  revert acc. induction d as [| [k v] d IH]; intros acc Hnd.
  - cbn. rewrite app_nil_r. reflexivity.
  - cbn [fold_left fst snd]. rewrite dict_set_fresh.
    + rewrite IH; rewrite <- app_assoc; [reflexivity | exact Hnd].
    + rewrite map_app in Hnd. apply NoDup_app in Hnd as (_ & Hdisj & _).
      intros Hin. apply (Hdisj k Hin). left.
Qed.

(** X18. The Extractor reads back what the Analyzer wrote: the view index
    taken from the name [time_series_<view>.json] is the view index the
    file was written for, whatever its sign and size, and the pattern
    indices taken from the keys of the JSON object are the integer keys
    of the dictionary that was dumped, in the same order. *)
Theorem X18_file_names_and_keys_round_trip :
  (forall view_idx : Z,
      Files.view_of_name (Files.time_series_name view_idx) = inr view_idx) /\
  (forall time_lapse : list (Z * list Z),
      NoDup (map fst time_lapse) ->
      Files.keys_of_json (Files.json_of_keys time_lapse) = inr time_lapse).
Proof.
  split.
  - intros v. unfold Files.view_of_name, Files.time_series_name.
    rewrite stem_of_json by discriminate.
    pose proof (split_absent "_"%char (Files.str v)
                  (str_is_plain v _ (or_intror eq_refl))) as Hsplit.
    pose proof (int_of_str v) as Hint.
    revert Hsplit Hint. generalize (Files.str v) as ds. intros ds Hsplit Hint.
    rewrite !append_cons, append_nil. cbn [Files.split]. rewrite Hsplit.
    cbn. exact Hint.
  - intros time_lapse Hnd. unfold Files.keys_of_json.
    rewrite keys_of_json_fold. f_equal. apply (dict_of_items time_lapse []). exact Hnd.
Qed.

Lemma sort_sorted (l : list Z) : StronglySorted Z.lt l -> Py.sort l = l.
Proof.
  intros Hl. unfold Py.sort.
  assert (Hle : StronglySorted Z.le l).
  { induction Hl as [| x l Hl IH Hall]; constructor; [exact IH |].
    eapply Forall_impl; [exact Hall |]. intros; lia. }
  apply (Sorted_unique Z.le).
  - apply Sorted_merge_sort, _.
  - apply StronglySorted_Sorted, Hle.
  - apply merge_sort_Permutation.
Qed.

Section Pipeline.
Context {region metadata : Type}.
Variable self_metadata : metadata.
Variable n_frames wanted : Z.
Variable prepare_view : Z -> result Z.
Variable load_nuclei : Z -> Z -> result unit.
Variable extract_nuclei : Z -> Z -> Z -> result region.
Variable count_nuclei : Z -> Z -> list region -> result (list Z).

(** X19. The Extractor on what the Analyzer saved: for the results of a
    view of at most 7000 frames, listed as the items of the JSON object,
    every pattern index is not negative and every frame list is made of
    frame indices of the view and is already in ascending order, so the
    sort of [_refine_time_lapse] changes nothing, the refinement does
    not raise, and no two sequences get the same key. *)
Theorem X19_analysis_results_refine_without_collision
    (view_idx : Z) (res : Driver.results metadata) (items : list (Z * list Z)) :
  Driver.analyze_time_series self_metadata n_frames wanted prepare_view
    load_nuclei extract_nuclei count_nuclei view_idx = inr res ->
  n_frames <= 7000 ->
  NoDup (map fst items) ->
  (list_to_map items : gmap Z (list Z)) = Driver.time_lapse res ->
  from_view n_frames items /\
  Forall (fun item : Z * list Z => item.2 <> [] /\ Py.sort item.2 = item.2) items /\
  Extractor._refine_time_lapse items view_idx = inr (segments_of items) /\
  NoDup (map fst (segments_of items)).
Proof.
  intros Hrun Hmax Hnd Hitems.
  assert (Hfacts : forall idx frames,
             (idx, frames) ∈ items ->
             frames <> [] /\ StronglySorted Z.lt frames /\
             (forall f, f ∈ frames -> 0 <= f < n_frames) /\ 0 <= idx).
  { intros idx frames Hin.
    apply (elem_of_list_to_map_1 (M := gmap Z)) in Hin; [| exact Hnd].
    rewrite Hitems in Hin.
    destruct (analyze_time_series_inv _ _ _ _ _ _ _ _ _ Hrun)
      as (n_patterns & r & _ & Hframes & ->).
    cbn [Driver.time_lapse] in Hin. unfold Patterns.get_valid_patterns in Hin.
    apply map_lookup_filter_Some in Hin as [Hsaved Hne]. cbn [snd] in Hne.
    destruct (saved_lists_of_view _ _ _ _ _ _ _ _ _ Hframes Hsaved) as [Hfr Hidx].
    split; [exact Hne |].
    split; [apply (sublist_sorted _ _ Hfr), range2_sorted |].
    split; [| lia].
    intros f Hf. apply (sublist_elem _ _ _ Hfr) in Hf.
    unfold Py.range in Hf. apply elem_of_range2 in Hf. lia. }
  assert (Hview : from_view n_frames items).
  { apply Forall_forall. intros [idx frames] Hin.
    destruct (Hfacts idx frames Hin) as (_ & _ & Hr & Hidx).
    split; [exact Hidx |]. apply Forall_forall. exact Hr. }
  split; [exact Hview |]. split.
  - apply Forall_forall. intros [idx frames] Hin.
    destruct (Hfacts idx frames Hin) as (Hne & Hs & _ & _).
    split; [exact Hne | apply sort_sorted, Hs].
  - assert (Hview' : from_view 7000 items).
    { eapply Forall_impl; [exact Hview |]. intros [p frames] [Hp Hf].
      split; [exact Hp |]. eapply Forall_impl; [exact Hf |]. cbn. intros; lia. }
    destruct (refine_fold items [] Hnd Hview') as [Hrefined Hkeys].
    + intros key Hin. cbn in Hin. apply elem_of_nil in Hin. contradiction.
    + constructor.
    + cbn [app] in Hrefined, Hkeys. split; assumption.
Qed.

End Pipeline.

Lemma filter_filter_and {A : Type} (f g : A -> bool) (l : list A) :
  List.filter f (List.filter g l) = List.filter (fun x => g x && f x) l.
Proof.
  induction l as [| x l IH]; [reflexivity |]. cbn [List.filter].
  destruct (g x); cbn [List.filter andb]; [destruct (f x) |]; rewrite IH; reflexivity.
Qed.

Lemma filter_absent (x : Z) (l : list Z) :
  x ∉ l -> List.filter (fun y => negb (y =? x)) l = l.
Proof.
  intros Hx. induction l as [| y l IH]; [reflexivity |].
  apply not_elem_of_cons in Hx as [Hne Hx]. cbn [List.filter].
  destruct (Z.eqb_spec y x) as [-> | _]; [congruence |].
  cbn [negb]. rewrite (IH Hx). reflexivity.
Qed.

Lemma remove_filter (x : Z) (l : list Z) :
  NoDup l -> x ∈ l ->
  Py.remove x l = inr (List.filter (fun y => negb (y =? x)) l).
Proof.
  induction l as [| y l IH]; intros Hnd Hin; [inversion Hin |].
  apply NoDup_cons in Hnd as [Hy Hnd]. cbn [Py.remove List.filter].
  destruct (decide (x = y)) as [-> | Hne].
  - rewrite bool_decide_eq_true_2 by reflexivity. rewrite Z.eqb_refl. cbn [negb].
    rewrite (filter_absent y l Hy). reflexivity.
  - rewrite bool_decide_eq_false_2 by exact Hne.
    apply elem_of_cons in Hin as [? | Hin]; [congruence |].
    rewrite (IH Hnd Hin). cbn [bind ret].
    destruct (Z.eqb_spec y x) as [? | _]; [congruence | reflexivity].
Qed.

Section FrameOutcome.
Context {region : Type}.
Variable load_nuclei : Z -> result unit.
Variable extract_nuclei : Z -> Z -> result region.
Variable count_nuclei : Z -> list region -> result (list Z).
Variable wanted : Z.
Variable frame_idx : Z.
Variable count_of : Z -> Z.

Local Abbreviation update_tracking := (Analyzer.update_tracking wanted).
Local Abbreviation _process_frame :=
  (Analyzer._process_frame load_nuclei extract_nuclei count_nuclei wanted).
Local Abbreviation process_frames :=
  (Analyzer.process_frames load_nuclei extract_nuclei count_nuclei wanted).
Local Abbreviation leaves :=
  (fun idx => drops_many wanted (count_of idx) || drops_zero wanted (count_of idx)).

(** The loop over [zip(tracked_indices, counts)] when the count of every
    index is its own. *)
Lemma update_loop_outcome (l : list Z) (p : Patterns.t) :
  NoDup l -> NoDup (Patterns.tracked p) ->
  (forall idx, idx ∈ l ->
               idx ∈ Patterns.tracked p /\ is_Some (Patterns.saved p !! idx)) ->
  exists q,
    for_each (update_tracking frame_idx) (map (fun idx => (idx, count_of idx)) l) p
    = inr q /\
    Patterns.tracked q
    = List.filter (fun idx => negb (bool_decide (idx ∈ l) && leaves idx))
                  (Patterns.tracked p) /\
    Patterns.dropped_zero q
    = Patterns.dropped_zero p
      ++ List.filter (fun idx => drops_zero wanted (count_of idx)) l /\
    Patterns.dropped_many q
    = Patterns.dropped_many p
      ++ List.filter (fun idx => drops_many wanted (count_of idx)) l /\
    (forall idx,
        Patterns.saved q !! idx
        = if bool_decide (idx ∈ l) && saves wanted (count_of idx)
          then (fun frames => frames ++ [frame_idx]) <$> Patterns.saved p !! idx
          else Patterns.saved p !! idx).
Proof.
  revert p. induction l as [| idx l IH]; intros p Hndl Hnd Hin.
  - exists p. cbn [map for_each List.filter]. rewrite !app_nil_r.
    split; [reflexivity |]. split.
    + symmetry. rewrite <- (filter_true (Patterns.tracked p)) at 2.
      apply filter_ext_in. intros a _.
      rewrite bool_decide_eq_false_2 by apply not_elem_of_nil. reflexivity.
    + split; [reflexivity |]. split; [reflexivity |]. intros j.
      rewrite bool_decide_eq_false_2 by apply not_elem_of_nil. reflexivity.
  - apply NoDup_cons in Hndl as [Hfresh Hndl].
    destruct (Hin idx ltac:(left)) as [Htracked [frames Hsaved]].
    assert (Hmem : forall j, bool_decide (j ∈ idx :: l)
                             = (j =? idx) || bool_decide (j ∈ l)).
    { intros j. destruct (Z.eqb_spec j idx) as [-> | Hne].
      - apply bool_decide_eq_true_2. left.
      - cbn [orb]. apply bool_decide_ext. rewrite elem_of_cons. tauto. }
    assert (Hfresh' : bool_decide (idx ∈ l) = false)
      by (apply bool_decide_eq_false_2, Hfresh).
    cbn [map for_each List.filter]. unfold Analyzer.update_tracking at 1.
    unfold drops_zero, drops_many, saves in *.
    destruct (Z.eqb_spec (count_of idx) wanted) as [Hsave | Hnsave].
    { (* the frame is saved *)
      unfold Patterns.save_frame. rewrite Hsaved. cbn [bind ret].
      set (p1 := Patterns.mk _ _ _ _).
      destruct (IH p1 Hndl Hnd) as (q & Hrun & Htr & Hz & Hm & Hs).
      { intros j Hj. destruct (Hin j ltac:(right; exact Hj)) as [Hjt Hjs].
        split; [exact Hjt |]. subst p1. cbn [Patterns.saved].
        apply lookup_insert_is_Some'. right. exact Hjs. }
      exists q. split; [exact Hrun |]. cbn [negb andb].
      split; [| split; [exact Hz | split; [exact Hm |]]].
      - rewrite Htr. apply filter_ext_in. intros j _. rewrite Hmem.
        destruct (Z.eqb_spec j idx) as [-> | _]; [| reflexivity].
        rewrite Hfresh'. destruct (Z.eqb_spec (count_of idx) wanted); [| congruence].
        reflexivity.
      - intros j. rewrite Hs, Hmem. subst p1. cbn [Patterns.saved].
        destruct (Z.eqb_spec j idx) as [-> | Hne].
        + rewrite Hfresh'. cbn [orb andb]. rewrite lookup_insert_eq, Hsaved.
          destruct (Z.eqb_spec (count_of idx) wanted); [reflexivity | congruence].
        + cbn [orb]. rewrite lookup_insert_ne by congruence. reflexivity. }
    cbn [negb andb].
    destruct (Z.gtb_spec (count_of idx) wanted) as [Hmany | Hnmany].
    { (* too many nuclei *)
      unfold Patterns.drop_many, Py.mem.
      rewrite bool_decide_eq_true_2 by exact Htracked.
      rewrite (remove_filter idx _ Hnd Htracked). cbn [bind ret].
      set (p1 := Patterns.mk _ _ _ _).
      destruct (IH p1 Hndl) as (q & Hrun & Htr & Hz & Hm & Hs).
      { subst p1. cbn [Patterns.tracked].
        apply NoDup_ListNoDup, List.NoDup_filter, NoDup_ListNoDup, Hnd. }
      { intros j Hj. destruct (Hin j ltac:(right; exact Hj)) as [Hjt Hjs].
        split; [| exact Hjs]. subst p1. cbn [Patterns.tracked].
        apply list_elem_of_In, filter_In. split; [apply list_elem_of_In, Hjt |].
        destruct (Z.eqb_spec j idx) as [-> | _]; [contradiction | reflexivity]. }
      exists q. split; [exact Hrun |]. subst p1.
      cbn [Patterns.tracked Patterns.dropped_zero Patterns.dropped_many Patterns.saved]
        in Htr, Hz, Hm, Hs.
      split; [| split; [exact Hz | split]].
      - rewrite Htr, filter_filter_and. apply filter_ext_in. intros j _. rewrite Hmem.
        destruct (Z.eqb_spec j idx) as [-> | _]; [| reflexivity].
        cbn [negb andb orb].
        destruct (Z.eqb_spec (count_of idx) wanted); [congruence |].
        destruct (Z.gtb_spec (count_of idx) wanted); [reflexivity | lia].
      - rewrite Hm, <- app_assoc. reflexivity.
      - intros j. rewrite Hs, Hmem.
        destruct (Z.eqb_spec j idx) as [-> | _]; [| reflexivity].
        rewrite Hfresh'. cbn [orb andb].
        destruct (Z.eqb_spec (count_of idx) wanted); [congruence | reflexivity]. }
    cbn [negb andb].
    destruct (Z.eqb_spec (count_of idx) 0) as [Hzero | Hnzero].
    { (* no nucleus *)
      unfold Patterns.drop_zero, Py.mem.
      rewrite bool_decide_eq_true_2 by exact Htracked.
      rewrite (remove_filter idx _ Hnd Htracked). cbn [bind ret].
      set (p1 := Patterns.mk _ _ _ _).
      destruct (IH p1 Hndl) as (q & Hrun & Htr & Hz & Hm & Hs).
      { subst p1. cbn [Patterns.tracked].
        apply NoDup_ListNoDup, List.NoDup_filter, NoDup_ListNoDup, Hnd. }
      { intros j Hj. destruct (Hin j ltac:(right; exact Hj)) as [Hjt Hjs].
        split; [| exact Hjs]. subst p1. cbn [Patterns.tracked].
        apply list_elem_of_In, filter_In. split; [apply list_elem_of_In, Hjt |].
        destruct (Z.eqb_spec j idx) as [-> | _]; [contradiction | reflexivity]. }
      exists q. split; [exact Hrun |]. subst p1.
      cbn [Patterns.tracked Patterns.dropped_zero Patterns.dropped_many Patterns.saved]
        in Htr, Hz, Hm, Hs.
      split; [| split; [| split; [exact Hm |]]].
      - rewrite Htr, filter_filter_and. apply filter_ext_in. intros j _. rewrite Hmem.
        destruct (Z.eqb_spec j idx) as [-> | _]; [| reflexivity].
        cbn [negb andb orb].
        destruct (Z.eqb_spec (count_of idx) wanted); [congruence |].
        destruct (Z.gtb_spec (count_of idx) wanted); [lia |].
        destruct (Z.eqb_spec (count_of idx) 0); [reflexivity | congruence].
      - rewrite Hz, <- app_assoc. reflexivity.
      - intros j. rewrite Hs, Hmem.
        destruct (Z.eqb_spec j idx) as [-> | _]; [| reflexivity].
        rewrite Hfresh'. cbn [orb andb].
        destruct (Z.eqb_spec (count_of idx) wanted); [congruence | reflexivity]. }
    (* any other count *)
    cbn [bind ret].
    destruct (IH p Hndl Hnd) as (q & Hrun & Htr & Hz & Hm & Hs).
    { intros j Hj. apply Hin. right. exact Hj. }
    exists q. split; [exact Hrun |].
    split; [| split; [exact Hz | split; [exact Hm |]]].
    + rewrite Htr. apply filter_ext_in. intros j _. rewrite Hmem.
      destruct (Z.eqb_spec j idx) as [-> | _]; [| reflexivity].
      rewrite Hfresh'. cbn [orb andb negb].
      destruct (Z.eqb_spec (count_of idx) wanted); [congruence |].
      destruct (Z.gtb_spec (count_of idx) wanted); [lia |].
      destruct (Z.eqb_spec (count_of idx) 0); [congruence | reflexivity].
    + intros j. rewrite Hs, Hmem.
      destruct (Z.eqb_spec j idx) as [-> | _]; [| reflexivity].
      rewrite Hfresh'. cbn [orb andb].
      destruct (Z.eqb_spec (count_of idx) wanted); [congruence | reflexivity].
Qed.

(** X20. A frame in which every region is extracted and the counter
    returns the count of every region: each tracked pattern is judged by
    its own count.  The patterns with the wanted count get the frame
    appended to their saved list, those with more nuclei go to the end of
    [dropped_many] and those with none to the end of [dropped_zero], in
    the order of [tracked]; the others stay as they are, and [tracked]
    keeps its order. *)
Theorem X20_frame_without_failures
    (n_patterns : Z) (done : list Z) (p : Patterns.t) (region_of : Z -> region) :
  process_frames done (Patterns.init n_patterns) = inr p ->
  is_ok (load_nuclei frame_idx) = true ->
  (forall idx, idx ∈ Patterns.tracked p ->
               extract_nuclei frame_idx idx = inr (region_of idx)) ->
  count_nuclei frame_idx (map region_of (Patterns.tracked p))
  = inr (map count_of (Patterns.tracked p)) ->
  exists q,
    _process_frame p frame_idx = inr q /\
    Patterns.tracked q
    = List.filter (fun idx => negb (leaves idx)) (Patterns.tracked p) /\
    Patterns.dropped_zero q
    = Patterns.dropped_zero p
      ++ List.filter (fun idx => drops_zero wanted (count_of idx)) (Patterns.tracked p) /\
    Patterns.dropped_many q
    = Patterns.dropped_many p
      ++ List.filter (fun idx => drops_many wanted (count_of idx)) (Patterns.tracked p) /\
    (forall idx,
        Patterns.saved q !! idx
        = if bool_decide (idx ∈ Patterns.tracked p) && saves wanted (count_of idx)
          then (fun frames => frames ++ [frame_idx]) <$> Patterns.saved p !! idx
          else Patterns.saved p !! idx).
Proof.
  intros Hreach Hload Hext Hcount.
  destruct (process_frames_facts load_nuclei extract_nuclei count_nuclei wanted
              _ [] _ _ Hreach) as (_ & Hsub & _ & Hkeys).
  cbn [Patterns.init Patterns.tracked] in Hsub.
  pose proof (sublist_NoDup _ _ (range_NoDup n_patterns) Hsub) as Hnd.
  destruct (update_loop_outcome (Patterns.tracked p) p Hnd Hnd)
    as (q & Hrun & Htr & Hz & Hm & Hs).
  { intros idx Hin. split; [exact Hin |].
    apply (Hkeys (range_NoDup n_patterns)).
    apply (sublist_elem _ _ _ Hsub) in Hin.
    exists []. apply (elem_of_list_to_map_1 (M := gmap Z)).
    - rewrite map_map. cbn [fst]. rewrite map_id. apply range_NoDup.
    - apply list_elem_of_fmap. exists idx. split; [reflexivity | exact Hin]. }
  assert (Hzip : Py.zip (Patterns.tracked p) (map count_of (Patterns.tracked p))
                 = map (fun idx => (idx, count_of idx)) (Patterns.tracked p)).
  { unfold Py.zip. generalize (Patterns.tracked p) as l. intros l.
    induction l as [| x l IHl]; [reflexivity |]. cbn [map combine]. rewrite IHl.
    reflexivity. }
  assert (Hframe : _process_frame p frame_idx = inr q).
  { destruct (decide (Patterns.tracked p = [])) as [Hnil | Hcons].
    - rewrite Hnil in Hrun. cbn [map for_each] in Hrun. inversion Hrun; subst q.
      unfold Analyzer._process_frame, Patterns.get_tracked_indices.
      destruct (load_nuclei frame_idx); [discriminate Hload |].
      rewrite Hnil. reflexivity.
    - rewrite (process_frame_all_extracted load_nuclei extract_nuclei count_nuclei
                 wanted frame_idx p (map region_of (Patterns.tracked p))
                 (map count_of (Patterns.tracked p)) Hload).
      + rewrite Hzip, Hrun. reflexivity.
      + apply Forall2_fmap_r, Forall_Forall2_diag, Forall_forall. exact Hext.
      + intros Hmap. apply Hcons. destruct (Patterns.tracked p); [reflexivity |].
        discriminate Hmap.
      + exact Hcount. }
  exists q. split; [exact Hframe |].
  split; [| split; [exact Hz | split; [exact Hm | exact Hs]]].
  rewrite Htr. apply filter_ext_in. intros j Hj.
  rewrite bool_decide_eq_true_2 by (apply list_elem_of_In, Hj). reflexivity.
Qed.

End FrameOutcome.

(** * The further properties on concrete runs *)

Lemma X1_tracked_keeps_detection_order_witness :
  Patterns.tracked Runs.after_three `sublist_of` Py.range 2 /\
  StronglySorted Z.lt (Patterns.tracked Runs.after_three) /\
  NoDup (Patterns.tracked Runs.after_three).
Proof.
  apply (X1_tracked_keeps_detection_order Scenario.load Scenario.extract
           Scenario.count 3 2 (Py.range 3)).
  vm_compute. reflexivity.
Defined.

Lemma X2_saved_frames_are_increasing_frame_indices_witness :
  [1; 2; 3] <> [] /\
  [1; 2; 3] `sublist_of` Py.range 5 /\
  StronglySorted Z.lt [1; 2; 3] /\
  (forall f, f ∈ [1; 2; 3] -> 0 <= f < 5) /\
  exists n_patterns, (ret 2 : result Z) = inr n_patterns /\ 0 <= 1 < n_patterns.
Proof.
  apply (X2_saved_frames_are_increasing_frame_indices tt 5 3 (fun _ => ret 2)
           (fun _ => Scenario.load) (fun _ => Scenario.extract)
           (fun _ => Scenario.count) 0 Runs.scenario_results 1 [1; 2; 3]).
  - vm_compute. reflexivity.
  - vm_compute. reflexivity.
Defined.

Lemma X3_transition_rule_witness :
  exists q,
    Analyzer.update_tracking 3 0 (Patterns.init 2) (0, 3) = inr q /\
    (3 = 3 ->
     q = Patterns.mk (Patterns.tracked (Patterns.init 2))
           (Patterns.dropped_zero (Patterns.init 2))
           (Patterns.dropped_many (Patterns.init 2))
           (<[0 := [] ++ [0]]> (Patterns.saved (Patterns.init 2)))).
Proof.
  destruct (X3_transition_rule Scenario.load Scenario.extract Scenario.count 3
              (Patterns.init 2) 0 0 3 []) as (q & Hrun & Hsave & _).
  - apply range_NoDup.
  - apply elem_of_range. lia.
  - vm_compute. reflexivity.
  - lia.
  - exists q. split; assumption.
Defined.

Lemma X4_frame_skipped_without_counts_witness :
  exists q,
    Analyzer._process_frame FailedExtraction.load FailedExtraction.extract
      Runs.failing_count 3 (Patterns.init 2) 0 = inr q /\
    Patterns.saved q = Patterns.saved (Patterns.init 2) /\
    Patterns.dropped_zero q = Patterns.dropped_zero (Patterns.init 2) /\
    Patterns.dropped_many q = Patterns.dropped_many (Patterns.init 2) /\
    (forall idx, idx ∈ Patterns.tracked q <->
                 (idx ∈ Patterns.tracked (Patterns.init 2) /\
                  is_ok (FailedExtraction.extract 0 idx) = true)).
Proof.
  apply (X4_frame_skipped_without_counts FailedExtraction.load
           FailedExtraction.extract Runs.failing_count 3 2 []).
  - reflexivity.
  - reflexivity.
  - right. reflexivity.
Defined.

Lemma X5_analysis_raises_only_on_load_failures_witness :
  is_ok Scenario.analysis = true <->
  (is_ok (ret 2 : result Z) = true /\
   forall f, 0 <= f < 5 -> is_ok (Scenario.load f) = true).
Proof.
  exact (proj1 (X5_analysis_raises_only_on_load_failures tt 5 3 (fun _ => ret 2)
                  (fun _ => Scenario.load) (fun _ => Scenario.extract)
                  (fun _ => Scenario.count) 0)).
Defined.

Lemma X6_view_without_contours_is_not_analysed_witness :
  is_ok (Preparation.prepare_view Runs.blank_ext Runs.blank_generator 0) = false /\
  Driver.analyze_time_series tt 5 3
    (Preparation.prepare_view Runs.blank_ext Runs.blank_generator)
    (fun _ => Scenario.load) (fun _ => Scenario.extract) (fun _ => Scenario.count) 0
  = inl ProcessingFailed /\
  written_result tt 5 3 (Preparation.prepare_view Runs.blank_ext Runs.blank_generator)
    (fun _ => Scenario.load) (fun _ => Scenario.extract) (fun _ => Scenario.count)
    (fun _ => true) 0
  = None.
Proof.
  apply (proj2 (X6_view_without_contours_is_not_analysed Runs.blank_ext tt 5 3
                  (fun _ => Scenario.load) (fun _ => Scenario.extract)
                  (fun _ => Scenario.count) (fun _ => true) Runs.blank_generator 0)
               [[0]]).
  - reflexivity.
  - reflexivity.
Defined.

Lemma X7_driver_analyses_pending_views_witness :
  (returned (Runs.mixed_folder, []) Runs.mixed_run).2
  = pending (Driver.members (Driver.load_processed_views Runs.mixed_folder)) 0 3 /\
  (returned (Runs.mixed_folder, []) Runs.mixed_run).2 = [0; 2].
Proof.
  split; [| reflexivity].
  apply (X7_driver_analyses_pending_views tt 3 5 3 (fun _ => ret 2)
           (fun _ => Scenario.load) (fun _ => Scenario.extract)
           (fun _ => Scenario.count) (fun _ => true) (fun _ => true)
           Runs.sorted_text 0 3
           Runs.mixed_folder
           (returned (Runs.mixed_folder, []) Runs.mixed_run).1).
  vm_compute. reflexivity.
Defined.

Lemma X8_record_only_gains_saved_views_witness :
  (Driver.tracking_file (returned (Runs.empty_folder, []) Runs.first_run).1
   = Driver.tracking_file Runs.empty_folder \/
   exists views,
     Driver.tracking_file (returned (Runs.empty_folder, []) Runs.first_run).1
     = Some (Some (map Driver.Int views)) /\
     StronglySorted Z.lt views /\
     (forall v, v ∈ Driver.members (Driver.load_processed_views Runs.empty_folder)
                -> v ∈ views) /\
     (forall v, v ∈ views ->
                v ∈ Driver.members (Driver.load_processed_views Runs.empty_folder) \/
                (0 <= v < 3 /\
                 is_Some (written_result tt 5 3 (fun _ => ret 2) (fun _ => Scenario.load)
                            (fun _ => Scenario.extract) (fun _ => Scenario.count)
                            (fun _ => true) v)))) /\
  (Driver.tracking_file (returned (Runs.text_folder, []) Runs.text_run).1
   = Driver.tracking_file Runs.text_folder \/
   Driver.tracking_file (returned (Runs.text_folder, []) Runs.text_run).1 = Some None).
Proof.
  split.
  - apply (proj1 (X8_record_only_gains_saved_views tt 3 5 3 (fun _ => ret 2)
                    (fun _ => Scenario.load) (fun _ => Scenario.extract)
                    (fun _ => Scenario.count) (fun _ => true) (fun _ => true)
                    Runs.sorted_text 0 3
                    Runs.empty_folder
                    (returned (Runs.empty_folder, []) Runs.first_run).1
                    (returned (Runs.empty_folder, []) Runs.first_run).2
                    ltac:(vm_compute; reflexivity))).
    reflexivity.
  - apply (proj2 (X8_record_only_gains_saved_views tt 3 5 3 (fun _ => ret 2)
                    (fun _ => Scenario.load) (fun _ => Scenario.extract)
                    (fun _ => Scenario.count) (fun _ => true) (fun _ => true)
                    Runs.sorted_text 0 3
                    Runs.text_folder
                    (returned (Runs.text_folder, []) Runs.text_run).1
                    (returned (Runs.text_folder, []) Runs.text_run).2
                    ltac:(vm_compute; reflexivity))).
    + intros ints. reflexivity.
    + discriminate.
Defined.

Lemma X9_process_patterns_raises_without_contours_witness :
  CellGenerator.process_patterns TenContours.ext Runs.blank = inl EmptyContours.
Proof.
  apply (proj2 (X9_process_patterns_raises_without_contours TenContours.ext Runs.blank)
               [[0]]).
  - reflexivity.
  - discriminate.
  - reflexivity.
Defined.

Lemma X10_pattern_lists_are_aligned_witness :
  exists cs boxes cens,
    CellGenerator.contours Runs.processed = Some cs /\
    CellGenerator.bounding_boxes Runs.processed = Some boxes /\
    CellGenerator.centers Runs.processed = Some cens /\
    CellGenerator.n_patterns Runs.processed = Z.of_nat (length cs) /\
    length boxes = length cs /\ length cens = length cs.
Proof.
  destruct (X10_pattern_lists_are_aligned TwoPatterns.ext Runs.loaded Runs.processed)
    as (cs & boxes & cens & H1 & H2 & H3 & H4 & H5 & H6 & _).
  - vm_compute. reflexivity.
  - exists cs, boxes, cens. auto 10.
Defined.

Lemma X11_extraction_of_detected_patterns_witness :
  exists img boxes,
    CellGenerator.cells_get_frame_2D TwoPatterns.ext 0 7
      (CellGenerator.current_view Runs.loaded) = inr img /\
    CellGenerator.bounding_boxes Runs.with_frame = Some boxes /\
    CellGenerator.n_patterns Runs.with_frame = Z.of_nat (length boxes) /\
    (forall idx, 0 <= idx < CellGenerator.n_patterns Runs.with_frame ->
       exists b, boxes !! Z.to_nat idx = Some b /\
                 CellGenerator.extract_nuclei Runs.with_frame idx
                 = inr (CellGenerator.crop img b)) /\
    (forall idx, ~ 0 <= idx < CellGenerator.n_patterns Runs.with_frame ->
       CellGenerator.extract_nuclei Runs.with_frame idx = inl PatternIndexOutOfRange).
Proof.
  apply (X11_extraction_of_detected_patterns TwoPatterns.ext Runs.loaded
           Runs.processed Runs.with_frame 7).
  - vm_compute. reflexivity.
  - vm_compute. reflexivity.
Defined.


Lemma two_patterns_from_view : from_view 60 TwoPatterns.time_lapse.
Proof.
  unfold from_view, TwoPatterns.time_lapse.
  constructor; [| constructor; [| constructor]]; cbn [fst snd]; (split; [lia |]).
  - apply Forall_app. split; apply Forall_forall; intros f Hf;
      apply elem_of_range2 in Hf; lia.
  - apply Forall_forall. intros f Hf. apply elem_of_range2 in Hf. lia.
Qed.

Lemma two_keys : NoDup [0; 1].
Proof.
  apply NoDup_cons. split; [| apply NoDup_singleton].
  intros Hin. apply list_elem_of_singleton in Hin. discriminate Hin.
Qed.

Lemma two_patterns_keys : NoDup (map fst TwoPatterns.time_lapse).
Proof. exact two_keys. Qed.

Lemma X14_no_key_collision_up_to_7000_frames_witness :
  Extractor._refine_time_lapse TwoPatterns.time_lapse 0
  = inr (segments_of TwoPatterns.time_lapse) /\
  NoDup (map fst (segments_of TwoPatterns.time_lapse)).
Proof.
  destruct (X14_no_key_collision_up_to_7000_frames TwoPatterns.time_lapse 0 60)
    as (Hrun & Hkeys & _).
  - exact two_patterns_keys.
  - lia.
  - exact two_patterns_from_view.
  - split; assumption.
Defined.

Lemma X15_padded_sequences_do_not_overlap_witness :
  exists refined,
    Extractor._refine_time_lapse TwoPatterns.time_lapse 0 = inr refined /\
    map fst (Extractor._add_head_tail 60 refined 3) = map fst refined.
Proof.
  destruct (X15_padded_sequences_do_not_overlap TwoPatterns.time_lapse 0 60 3)
    as (refined & Hrun & Hkeys & _).
  - exact two_patterns_keys.
  - lia.
  - exact two_patterns_from_view.
  - lia.
  - unfold Extractor.MAX_GAP. lia.
  - exists refined. split; assumption.
Defined.

Lemma X16_one_directory_per_long_segment_witness :
  0 <= 0 < CellGenerator.n_views TwoPatterns.generator /\
  CellGenerator.current_view (returned (TwoPatterns.generator, []) Runs.export).1 = 0 /\
  exists refined,
    Extractor._refine_time_lapse TwoPatterns.time_lapse 0 = inr refined /\
    Forall2 (exports 0) (returned (TwoPatterns.generator, []) Runs.export).2
      (List.filter (long_enough 20)
         (Extractor._add_head_tail (CellGenerator.n_frames TwoPatterns.generator)
            refined 3)).
Proof.
  apply (X16_one_directory_per_long_segment TwoPatterns.ext 0 20
           TwoPatterns.time_lapse TwoPatterns.generator).
  vm_compute. reflexivity.
Defined.

Lemma X17_readable_segment_is_exported_whole_witness :
  exists g',
    Extractor.export_segment TwoPatterns.ext 0 2 (Runs.processed, []) (1, (4, 6))
    = inr (g',
           [] ++ [Extractor.mk_dir (0, 1 / 1000, 1 mod 1000)
                    (Some (map (fun t => CellGenerator.crop
                                           (returned [] (TwoPatterns.cells_frame 0 t 0))
                                           TwoPatterns.right)
                               (Py.range2 4 (6 + 1)),
                           map (fun t => CellGenerator.crop
                                           (returned [] (TwoPatterns.cells_frame 1 t 0))
                                           TwoPatterns.right)
                               (Py.range2 4 (6 + 1))))
                    (Some (replicate (Z.to_nat (6 - 4 + 1))
                                     (CellGenerator.crop TwoPatterns.mask
                                                         TwoPatterns.right)))
                    (Some (4, 6, 6 - 4 + 1))]) /\
    same_view Runs.processed g'.
Proof.
  apply (X17_readable_segment_is_exported_whole TwoPatterns.ext 0 2 1 4 6
           Runs.processed [] [TwoPatterns.left; TwoPatterns.right]).
  - vm_compute. reflexivity.
  - vm_compute. reflexivity.
  - vm_compute. split; [discriminate | reflexivity].
  - reflexivity.
  - lia.
  - vm_compute. reflexivity.
  - lia.
  - intros t _. split; reflexivity.
Defined.

Lemma X18_file_names_and_keys_round_trip_witness :
  Files.keys_of_json (Files.json_of_keys [(0, [0; 1]); (1, [1; 2; 3])])
  = inr [(0, [0; 1]); (1, [1; 2; 3])].
Proof.
  apply (proj2 X18_file_names_and_keys_round_trip).
  exact two_keys.
Defined.

Lemma X19_analysis_results_refine_without_collision_witness :
  from_view 5 [(0, [0; 1]); (1, [1; 2; 3])] /\
  Forall (fun item : Z * list Z => item.2 <> [] /\ Py.sort item.2 = item.2)
         [(0, [0; 1]); (1, [1; 2; 3])] /\
  Extractor._refine_time_lapse [(0, [0; 1]); (1, [1; 2; 3])] 0
  = inr (segments_of [(0, [0; 1]); (1, [1; 2; 3])]) /\
  NoDup (map fst (segments_of [(0, [0; 1]); (1, [1; 2; 3])])).
Proof.
  apply (X19_analysis_results_refine_without_collision tt 5 3 (fun _ => ret 2)
           (fun _ => Scenario.load) (fun _ => Scenario.extract)
           (fun _ => Scenario.count) 0 Runs.scenario_results).
  - vm_compute. reflexivity.
  - lia.
  - exact two_keys.
  - vm_compute. reflexivity.
Defined.

Lemma X20_frame_without_failures_witness :
  exists q,
    Analyzer._process_frame Scenario.load Scenario.extract Scenario.count 3
      (Patterns.init 2) 0 = inr q /\
    Patterns.tracked q
    = List.filter
        (fun idx => negb (drops_many 3 (Scenario.count_one (idx, 0))
                          || drops_zero 3 (Scenario.count_one (idx, 0))))
        (Patterns.tracked (Patterns.init 2)).
Proof.
  destruct (X20_frame_without_failures Scenario.load Scenario.extract Scenario.count
              3 0 (fun idx => Scenario.count_one (idx, 0)) 2 [] (Patterns.init 2)
              (fun idx => (idx, 0))) as (q & Hrun & Htracked & _).
  - reflexivity.
  - reflexivity.
  - intros idx _. reflexivity.
  - vm_compute. reflexivity.
  - exists q. split; assumption.
Defined.
